(** * ArduCopter guided flight mode (ArduCopter/mode_guided.cpp)

    A shallow embedding of the guided-mode state machine: the target store
    (file-level statics of mode_guided.cpp), target ingestion, the per-tick
    sub-controller drivers, the guided limits and the mission callbacks.

    Conventions.
    - [float] values are idealised as real numbers (no rounding, no NaN).
    - [uint32_t] timestamps are integers with wrap-around written out.
    - The file-level statics, [guided_mode], the [auto_yaw] member and the
      [copter.ap] flags the drivers write form the [State].
    - Every command sent to a collaborator object (wp_nav, pos_control,
      attitude_control, motors, circle_nav, logger, ...) is appended to the
      [calls] log of the state, in program order.
    - Every value read from a collaborator during one call is a field of
      the environment [Env] of that call.
    - Left out: allows_arming, get_wp and the read-only wp_distance,
      wp_bearing and crosstrack_error, run_autopilot and exit_mission;
      do_user_takeoff_start has a section of its own after the model. *)

From Stdlib Require Import ZArith List Bool Lia Reals Lra Psatz.
Import ListNotations.

Open Scope Z_scope.

(** ** Numbers *)

Definition float := R.
Definition uint32 := Z.

(** [a - b] on [uint32_t]. *)
Definition u32_sub (a b : uint32) : uint32 := (a - b) mod 2 ^ 32.

(** C++ comparisons on [float], as booleans. *)
Definition f_lt (a b : float) : bool := if Rlt_dec a b then true else false.
Definition f_le (a b : float) : bool := if Rle_dec a b then true else false.
Definition f_gt (a b : float) : bool := f_lt b a.
Definition f_ge (a b : float) : bool := f_le b a.

(** Modelled from the spec: AP_Math's [is_zero], [is_positive], [sq],
    [safe_sqrt], [norm] and [constrain_float] are not part of this file; the
    spec speaks of values that are "nonzero" and "positive" and of acceleration
    "caps", and the helpers are given that meaning over the reals. *)
Definition is_zero (a : float) : bool := if Req_dec_T a 0%R then true else false.
Definition is_positive (a : float) : bool := f_gt a 0%R.
Definition sq (a : float) : float := (a * a)%R.
Definition safe_sqrt (a : float) : float := sqrt a.
Definition norm (a b : float) : float := sqrt (sq a + sq b).
Definition constrain_float (amt low high : float) : float :=
  if f_lt amt low then low else if f_gt amt high then high else amt.
Definition MIN (a b : float) : float := if f_lt a b then a else b.

(** ** Vectors *)

(** Modelled from the spec: AP_Math's [Vector3f] is declared outside this
    file; it is the spec's "3D vector", with the operations this file uses
    ([+], [-], [* float], [is_zero], [zero], [length]) given their usual
    meaning, component by component. *)
Module Vector3f.
Record t : Type := mk { x : float; y : float; z : float }.

Definition zero : t := mk 0%R 0%R 0%R.
Definition add (a b : t) : t := mk (x a + x b)%R (y a + y b)%R (z a + z b)%R.
Definition sub (a b : t) : t := mk (x a - x b)%R (y a - y b)%R (z a - z b)%R.
Definition scale (a : t) (k : float) : t := mk (x a * k)%R (y a * k)%R (z a * k)%R.
Definition is_zero (a : t) : bool :=
    is_zero (x a) && is_zero (y a) && is_zero (z a).
Definition length (a : t) : float := sqrt (sq (x a) + sq (y a) + sq (z a)).
End Vector3f.
Abbreviation Vector3f := Vector3f.t.

(** Modelled from the spec: AP_Math's [get_horizontal_distance_cm], the
    "horizontal distance from the reference position". *)
Definition get_horizontal_distance_cm (origin destination : Vector3f) : float :=
  norm (Vector3f.x destination - Vector3f.x origin)%R
       (Vector3f.y destination - Vector3f.y origin)%R.

(** ** Locations and mission commands *)

(** Modelled from the spec: [Location] and [AP_Mission::Mission_Command] are
    declared outside this file.  A location is latitude, longitude, an
    altitude in cm and the frame of that altitude; of a mission command this
    file reads [id], [index], [p1] and [content.location].  What needs the
    EKF origin or terrain data (the constructor from a vector,
    [get_vector_from_origin_NEU], [get_alt_cm]) is a reading of [Env]. *)
Inductive AltFrame : Type :=
  ABSOLUTE | ABOVE_HOME | ABOVE_ORIGIN | ABOVE_TERRAIN.

Module Location.
Record t : Type := mk { lat : Z; lng : Z; alt : Z; alt_frame : AltFrame }.
Definition get_alt_frame (l : t) : AltFrame := alt_frame l.
Definition set_alt_cm (l : t) (alt_cm : Z) (frame : AltFrame) : t :=
    mk (lat l) (lng l) alt_cm frame.
End Location.
Abbreviation Location := Location.t.

(** The command id, 18 by the comment at its use in start_command. *)
Definition MAV_CMD_NAV_LOITER_TURNS : Z := 18.

Module Mission_Command.
Record t : Type := mk {
    id : Z;
    index : Z;
    p1 : Z;                      (* uint16_t *)
    content_location : Location
  }.
End Mission_Command.
Abbreviation Mission_Command := Mission_Command.t.

(** Modelled from the spec: the [HIGHBYTE] and [LOWBYTE] macros are defined
    outside this file; the circle radius is "held in high byte of p1", the
    number of turns in its low byte. *)
Definition HIGHBYTE (i : Z) : Z := Z.land (Z.shiftr i 8) 255.
Definition LOWBYTE (i : Z) : Z := Z.land i 255.

(** ** Enumerations *)

(** The enumerations are declared outside this file (mode.h, AP_Motors,
    AP_Logger); the constructors are the enumerators this file names, with
    the remaining ones of autopilot_yaw_mode and of the spool states. *)

Inductive GuidedMode : Type :=
  | Guided_TakeOff
  | Guided_WP
  | Guided_Velocity
  | Guided_PosVel
  | Guided_Angle
  | Guided_Circle
  | Guided_CircleMoveToEdge.

Definition GuidedMode_eqb (a b : GuidedMode) : bool :=
  match a, b with
  | Guided_TakeOff, Guided_TakeOff
  | Guided_WP, Guided_WP
  | Guided_Velocity, Guided_Velocity
  | Guided_PosVel, Guided_PosVel
  | Guided_Angle, Guided_Angle
  | Guided_Circle, Guided_Circle
  | Guided_CircleMoveToEdge, Guided_CircleMoveToEdge => true
  | _, _ => false
  end.

Inductive autopilot_yaw_mode : Type :=
  | AUTO_YAW_HOLD
  | AUTO_YAW_LOOK_AT_NEXT_WP
  | AUTO_YAW_ROI
  | AUTO_YAW_FIXED
  | AUTO_YAW_LOOK_AHEAD
  | AUTO_YAW_RESETTOARMEDYAW
  | AUTO_YAW_RATE
  | AUTO_YAW_CIRCLE.

Definition yaw_mode_eqb (a b : autopilot_yaw_mode) : bool :=
  match a, b with
  | AUTO_YAW_HOLD, AUTO_YAW_HOLD
  | AUTO_YAW_LOOK_AT_NEXT_WP, AUTO_YAW_LOOK_AT_NEXT_WP
  | AUTO_YAW_ROI, AUTO_YAW_ROI
  | AUTO_YAW_FIXED, AUTO_YAW_FIXED
  | AUTO_YAW_LOOK_AHEAD, AUTO_YAW_LOOK_AHEAD
  | AUTO_YAW_RESETTOARMEDYAW, AUTO_YAW_RESETTOARMEDYAW
  | AUTO_YAW_RATE, AUTO_YAW_RATE
  | AUTO_YAW_CIRCLE, AUTO_YAW_CIRCLE => true
  | _, _ => false
  end.

Inductive DesiredSpoolState : Type :=
  DSS_SHUT_DOWN | DSS_GROUND_IDLE | DSS_THROTTLE_UNLIMITED.

Inductive SpoolState : Type :=
  | SS_SHUT_DOWN
  | SS_GROUND_IDLE
  | SS_SPOOLING_UP
  | SS_THROTTLE_UNLIMITED
  | SS_SPOOLING_DOWN.

Definition spool_is_unlimited (s : SpoolState) : bool :=
  match s with SS_THROTTLE_UNLIMITED => true | _ => false end.

Inductive LogErrorCode : Type :=
  DEST_OUTSIDE_FENCE | FAILED_TO_SET_DESTINATION | FAILED_CIRCLE_INIT.

(** ** The yaw state *)

(** Modelled from the spec: the [auto_yaw] member (class AutoYaw, declared
    outside this file).  The spec's YawState is Hold, FixedAngle(angle,
    relative flag), FixedRate(rate) or ROI, set by the ingestion calls and
    kept until the next ingestion or mode initialisation. *)
Module AutoYaw.
Record t : Type := mk {
    _mode : autopilot_yaw_mode;
    _fixed_yaw : float;          (* degrees *)
    _fixed_yaw_relative : bool;
    _rate_cds : float
  }.
Definition mode (a : t) : autopilot_yaw_mode := _mode a.
Definition rate_cds (a : t) : float := _rate_cds a.
Definition set_mode (m : autopilot_yaw_mode) (a : t) : t :=
    mk m (_fixed_yaw a) (_fixed_yaw_relative a) (_rate_cds a).
Definition set_fixed_yaw (angle_deg : float) (relative_angle : bool) (a : t) : t :=
    mk AUTO_YAW_FIXED angle_deg relative_angle (_rate_cds a).
Definition set_rate (turn_rate_cds : float) (a : t) : t :=
    mk AUTO_YAW_RATE (_fixed_yaw a) (_fixed_yaw_relative a) turn_rate_cds.
End AutoYaw.
Abbreviation AutoYaw := AutoYaw.t.

(** ** The target store *)

Record Guided_Angle_State : Type := mkAngleState {
  update_time_ms : uint32;
  roll_cd : float;
  pitch_cd : float;
  yaw_cd : float;
  yaw_rate_cds : float;
  climb_rate_cms : float;
  thrust : float;
  use_yaw_rate : bool;
  use_thrust : bool
}.

Record Guided_Limit : Type := mkLimit {
  timeout_ms : uint32;
  alt_min_cm : float;
  alt_max_cm : float;
  horiz_max_cm : float;
  start_time : uint32;
  start_pos : Vector3f
}.

(** ** Commands sent to collaborators *)

Inductive Call : Type :=
  | Logger_Write_Error (code : LogErrorCode)
  | Log_Write_GuidedTarget (m : GuidedMode) (pos vel : Vector3f)
  | WPNav_wp_and_spline_init
  | WPNav_set_wp_destination (dest : Vector3f) (terrain_alt : bool)
  | WPNav_set_wp_destination_loc (dest : Location)
  | WPNav_update_wpnav
  | PosControl_set_max_speed_xy (speed : float)
  | PosControl_set_max_accel_xy (accel : float)
  | PosControl_set_max_speed_z (down up : float)
  | PosControl_set_max_accel_z (accel : float)
  | PosControl_init_vel_controller_xyz
  | PosControl_init_xy_controller
  | PosControl_set_xy_target (px py : float)
  | PosControl_set_desired_velocity_xy (vx vy : float)
  | PosControl_set_desired_velocity (v : Vector3f)
  | PosControl_set_desired_velocity_z (v : float)
  | PosControl_set_pos_target (p : Vector3f)
  | PosControl_set_alt_target_to_current_alt
  | PosControl_set_alt_target_from_climb_rate_ff (climb dt : float) (force_descend : bool)
  | PosControl_update_xy_controller
  | PosControl_update_z_controller
  | PosControl_update_vel_controller_xyz
  | Attitude_input_euler_angle_roll_pitch_euler_rate_yaw (roll pitch yaw_rate : float)
  | Attitude_input_euler_angle_roll_pitch_yaw (roll pitch yaw : float) (slew_yaw : bool)
  | Attitude_set_throttle_out (throttle : float) (angle_boost : bool) (filt : float)
  | Motors_set_desired_spool_state (d : DesiredSpoolState)
  | Mode_make_safe_spool_down
  | Mode_zero_throttle_and_relax_ac
  | Mode_set_throttle_takeoff
  | Mode_auto_takeoff_run
  | Copter_failsafe_terrain_set_status (ok : bool)
  | Copter_failsafe_terrain_on_event
  | LandingGear_retract_after_takeoff
  | CircleNav_set_center (c : Vector3f)
  | CircleNav_set_radius (r : float)
  | CircleNav_init_get_center        (* circle_nav->init(circle_nav->get_center()) *)
  | CircleNav_update
  | GCS_send_text_skipping_invalid_cmd (id : Z)
  | GCS_send_mission_item_reached_message (index : Z).

(** ** State *)

Record State : Type := mkState {
  guided_mode : GuidedMode;
  guided_pos_target_cm : Vector3f;
  guided_vel_target_cms : Vector3f;
  posvel_update_time_ms : uint32;
  vel_update_time_ms : uint32;
  guided_angle_state : Guided_Angle_State;
  guided_limit : Guided_Limit;
  auto_yaw : AutoYaw;
  ap_auto_armed : bool;
  ap_land_complete : bool;
  calls : list Call
}.

Definition with_guided_mode (m : GuidedMode) (s : State) : State :=
  mkState m (guided_pos_target_cm s) (guided_vel_target_cms s)
    (posvel_update_time_ms s) (vel_update_time_ms s) (guided_angle_state s)
    (guided_limit s) (auto_yaw s) (ap_auto_armed s) (ap_land_complete s) (calls s).

Definition with_guided_pos_target_cm (p : Vector3f) (s : State) : State :=
  mkState (guided_mode s) p (guided_vel_target_cms s)
    (posvel_update_time_ms s) (vel_update_time_ms s) (guided_angle_state s)
    (guided_limit s) (auto_yaw s) (ap_auto_armed s) (ap_land_complete s) (calls s).

Definition with_guided_vel_target_cms (v : Vector3f) (s : State) : State :=
  mkState (guided_mode s) (guided_pos_target_cm s) v
    (posvel_update_time_ms s) (vel_update_time_ms s) (guided_angle_state s)
    (guided_limit s) (auto_yaw s) (ap_auto_armed s) (ap_land_complete s) (calls s).

Definition with_posvel_update_time_ms (t : uint32) (s : State) : State :=
  mkState (guided_mode s) (guided_pos_target_cm s) (guided_vel_target_cms s)
    t (vel_update_time_ms s) (guided_angle_state s)
    (guided_limit s) (auto_yaw s) (ap_auto_armed s) (ap_land_complete s) (calls s).

Definition with_vel_update_time_ms (t : uint32) (s : State) : State :=
  mkState (guided_mode s) (guided_pos_target_cm s) (guided_vel_target_cms s)
    (posvel_update_time_ms s) t (guided_angle_state s)
    (guided_limit s) (auto_yaw s) (ap_auto_armed s) (ap_land_complete s) (calls s).

Definition with_guided_angle_state (a : Guided_Angle_State) (s : State) : State :=
  mkState (guided_mode s) (guided_pos_target_cm s) (guided_vel_target_cms s)
    (posvel_update_time_ms s) (vel_update_time_ms s) a
    (guided_limit s) (auto_yaw s) (ap_auto_armed s) (ap_land_complete s) (calls s).

Definition with_guided_limit (l : Guided_Limit) (s : State) : State :=
  mkState (guided_mode s) (guided_pos_target_cm s) (guided_vel_target_cms s)
    (posvel_update_time_ms s) (vel_update_time_ms s) (guided_angle_state s)
    l (auto_yaw s) (ap_auto_armed s) (ap_land_complete s) (calls s).

Definition with_auto_yaw (a : AutoYaw) (s : State) : State :=
  mkState (guided_mode s) (guided_pos_target_cm s) (guided_vel_target_cms s)
    (posvel_update_time_ms s) (vel_update_time_ms s) (guided_angle_state s)
    (guided_limit s) a (ap_auto_armed s) (ap_land_complete s) (calls s).

Definition with_ap_auto_armed (b : bool) (s : State) : State :=
  mkState (guided_mode s) (guided_pos_target_cm s) (guided_vel_target_cms s)
    (posvel_update_time_ms s) (vel_update_time_ms s) (guided_angle_state s)
    (guided_limit s) (auto_yaw s) b (ap_land_complete s) (calls s).

Definition with_ap_land_complete (b : bool) (s : State) : State :=
  mkState (guided_mode s) (guided_pos_target_cm s) (guided_vel_target_cms s)
    (posvel_update_time_ms s) (vel_update_time_ms s) (guided_angle_state s)
    (guided_limit s) (auto_yaw s) (ap_auto_armed s) b (calls s).

Definition with_calls (c : list Call) (s : State) : State :=
  mkState (guided_mode s) (guided_pos_target_cm s) (guided_vel_target_cms s)
    (posvel_update_time_ms s) (vel_update_time_ms s) (guided_angle_state s)
    (guided_limit s) (auto_yaw s) (ap_auto_armed s) (ap_land_complete s) c.

(** ** A state monad for the member functions *)

Definition M (A : Type) : Type := State -> A * State.

Definition ret {A : Type} (a : A) : M A := fun s => (a, s).
Definition bind {A B : Type} (m : M A) (k : A -> M B) : M B :=
  fun s => let (a, s') := m s in k a s'.
Definition gets {A : Type} (f : State -> A) : M A := fun s => (f s, s).
Definition modify (f : State -> State) : M unit := fun s => (tt, f s).
Definition call (c : Call) : M unit :=
  modify (fun s => with_calls (calls s ++ [c]) s).
Definition when (b : bool) (m : M unit) : M unit := if b then m else ret tt.

Declare Scope guided_scope.
Delimit Scope guided_scope with guided.
Notation "x <- m ;; k" := (bind m (fun x => k))
  (at level 61, m at next level, right associativity) : guided_scope.
Notation "m ;; k" := (bind m (fun _ => k))
  (at level 61, right associativity) : guided_scope.
Open Scope guided_scope.

(** ** The environment of one call *)

(** Modelled from the spec: AP_Math's [Quaternion], the "supplied
    orientation" of set_angle; its [to_euler] is a reading of [Env]. *)
Record Quaternion : Type := mkQuaternion { q1 : float; q2 : float; q3 : float; q4 : float }.

(** What one call of a member function reads from outside this file: build
    options, the clock, sensors, parameters and the getters of the
    collaborator objects. *)
Record Env : Type := mkEnv {
  (* build options *)
  AC_FENCE : bool;
  AC_AVOID_ENABLED : bool;
  (* AP_HAL and AP_Math *)
  millis : uint32;
  G_Dt : float;
  wrap_180_cd : float -> float;
  to_euler : Quaternion -> float * float * float;
  (* Location *)
  Location_from_vector : Vector3f -> Location;
  get_vector_from_origin_NEU : Location -> option Vector3f;
  (* fence and avoidance *)
  check_destination_within_fence : Location -> bool;
  avoid_adjust_velocity : float -> float -> Vector3f -> float -> Vector3f;
  get_avoidance_adjusted_climbrate : float -> float;
  (* inertial navigation and attitude estimate *)
  inertial_nav_get_position : Vector3f;
  inertial_nav_get_velocity : Vector3f;
  ahrs_roll_sensor : Z;
  ahrs_pitch_sensor : Z;
  ahrs_yaw_sensor : Z;
  (* wp_nav *)
  wp_nav_set_wp_destination_loc : Location -> bool;
  wp_nav_get_wp_stopping_point : Vector3f;
  wp_nav_reached_wp_destination : bool;
  wp_nav_get_wp_destination : Vector3f;
  wp_nav_origin_and_destination_are_terrain_alt : bool;
  wp_nav_update_wpnav : bool;
  wp_nav_get_roll : float;
  wp_nav_get_pitch : float;
  wp_nav_get_default_speed_xy : float;
  wp_nav_get_default_speed_down : float;
  wp_nav_get_default_speed_up : float;
  wp_nav_get_wp_acceleration : float;
  wp_nav_get_accel_z : float;
  (* pos_control *)
  pos_control_is_active_z : bool;
  pos_control_get_desired_velocity : Vector3f;
  pos_control_time_since_last_xy_update : float;
  pos_control_get_max_accel_xy : float;
  pos_control_get_max_accel_z : float;
  pos_control_get_pos_xy_p_kP : float;
  pos_control_get_roll : float;
  pos_control_get_pitch : float;
  (* attitude_control and parameters *)
  attitude_control_get_althold_lean_angle_max : float;
  aparm_angle_max : float;
  get_pilot_speed_dn : float;
  g_pilot_speed_up : float;
  g_pilot_accel_z : float;
  g_throttle_filt : float;
  g2_guided_options : Z;
  Options_IgnorePilotYaw : Z;
  (* pilot input *)
  failsafe_radio : bool;
  get_pilot_desired_yaw_rate : float;
  (* motors *)
  motors_armed : bool;
  motors_get_spool_state : SpoolState;
  (* auto_yaw *)
  auto_yaw_default_mode : bool -> autopilot_yaw_mode;
  auto_yaw_yaw : AutoYaw -> float;
  (* circle_nav *)
  circle_nav_get_radius : float;
  circle_nav_get_closest_point_on_circle : Vector3f -> float -> Vector3f;
  circle_nav_get_angle_total : float;
  circle_nav_get_roll : float;
  circle_nav_get_pitch : float;
  circle_nav_get_yaw : float;
  (* copter.current_loc *)
  current_loc : Location;
  current_loc_get_alt_cm : AltFrame -> option Z;
  (* the vehicle's active flight mode is this one *)
  flightmode_is_mode_guided : bool
}.

Definition GUIDED_POSVEL_TIMEOUT_MS : Z := 3000.
Definition GUIDED_ATTITUDE_TIMEOUT_MS : Z := 1000.

(** Modelled from the spec: AP_Math's [ToDeg] and [M_2PI], radians to
    degrees and a full turn. *)
Definition ToDeg (rad : float) : float := (rad * (180 / PI))%R.
Definition M_2PI : float := (2 * PI)%R.

Section ModeGuided.

Variable e : Env.

(** *** Helpers of the Mode base class and of Copter *)

(** Modelled from the spec: [Mode::is_disarmed_or_landed] is declared outside
    this file.  The spec's interlock is "motors are disarmed, or the vehicle
    is landed"; the test on [auto_armed] is the one angle_control_run spells
    out inline for the same check. *)
Definition is_disarmed_or_landed : M bool :=
  s <- gets (fun s => s) ;;
  ret (negb (motors_armed e) || negb (ap_auto_armed s) || ap_land_complete s).

(** Modelled from the spec: the setters of the "landed / auto-armed state
    source and setter" (Copter, outside this file) write the flag. *)
Definition set_land_complete (b : bool) : M unit := modify (with_ap_land_complete b).
Definition set_auto_armed (b : bool) : M unit := modify (with_ap_auto_armed b).

Definition auto_yaw_set_mode (m : autopilot_yaw_mode) : M unit :=
  modify (fun s => with_auto_yaw (AutoYaw.set_mode m (auto_yaw s)) s).
Definition auto_yaw_set_mode_to_default (rtl : bool) : M unit :=
  auto_yaw_set_mode (auto_yaw_default_mode e rtl).
Definition auto_yaw_set_fixed_yaw (angle_deg : float) (relative_angle : bool) : M unit :=
  modify (fun s => with_auto_yaw (AutoYaw.set_fixed_yaw angle_deg relative_angle (auto_yaw s)) s).
Definition auto_yaw_set_rate (turn_rate_cds : float) : M unit :=
  modify (fun s => with_auto_yaw (AutoYaw.set_rate turn_rate_cds (auto_yaw s)) s).

(** *** Mode initialisers *)

Definition pos_control_start : M unit :=
  modify (with_guided_mode Guided_WP) ;;
  call WPNav_wp_and_spline_init ;;
  let stopping_point := wp_nav_get_wp_stopping_point e in
  call (WPNav_set_wp_destination stopping_point false) ;;
  auto_yaw_set_mode_to_default false.

Definition init (ignore_checks : bool) : M bool :=
  pos_control_start ;;
  ret true.

Definition vel_control_start : M unit :=
  modify (with_guided_mode Guided_Velocity) ;;
  call (PosControl_set_max_speed_xy (wp_nav_get_default_speed_xy e)) ;;
  call (PosControl_set_max_accel_xy (wp_nav_get_wp_acceleration e)) ;;
  call (PosControl_set_max_speed_z (- get_pilot_speed_dn e)%R (g_pilot_speed_up e)) ;;
  call (PosControl_set_max_accel_z (g_pilot_accel_z e)) ;;
  call PosControl_init_vel_controller_xyz.

Definition posvel_control_start : M unit :=
  modify (with_guided_mode Guided_PosVel) ;;
  call PosControl_init_xy_controller ;;
  call (PosControl_set_max_speed_xy (wp_nav_get_default_speed_xy e)) ;;
  call (PosControl_set_max_accel_xy (wp_nav_get_wp_acceleration e)) ;;
  let curr_pos := inertial_nav_get_position e in
  let curr_vel := inertial_nav_get_velocity e in
  call (PosControl_set_xy_target (Vector3f.x curr_pos) (Vector3f.y curr_pos)) ;;
  call (PosControl_set_desired_velocity_xy (Vector3f.x curr_vel) (Vector3f.y curr_vel)) ;;
  call (PosControl_set_max_speed_z (wp_nav_get_default_speed_down e) (wp_nav_get_default_speed_up e)) ;;
  call (PosControl_set_max_accel_z (wp_nav_get_accel_z e)) ;;
  auto_yaw_set_mode AUTO_YAW_HOLD.

Definition is_taking_off : M bool :=
  m <- gets guided_mode ;;
  ret (GuidedMode_eqb m Guided_TakeOff).

Definition angle_control_start : M unit :=
  modify (with_guided_mode Guided_Angle) ;;
  call (PosControl_set_max_speed_z (wp_nav_get_default_speed_down e) (wp_nav_get_default_speed_up e)) ;;
  call (PosControl_set_max_accel_z (wp_nav_get_accel_z e)) ;;
  when (negb (pos_control_is_active_z e))
    (call PosControl_set_alt_target_to_current_alt ;;
     call (PosControl_set_desired_velocity_z (Vector3f.z (inertial_nav_get_velocity e)))) ;;
  modify (fun s =>
    let a := guided_angle_state s in
    with_guided_angle_state
      (mkAngleState (millis e) (IZR (ahrs_roll_sensor e)) (IZR (ahrs_pitch_sensor e))
         (IZR (ahrs_yaw_sensor e)) 0%R 0%R (thrust a) false (use_thrust a)) s) ;;
  auto_yaw_set_mode AUTO_YAW_HOLD.

(** *** Target ingestion *)

Definition set_yaw_state (use_yaw : bool) (yaw_cd : float) (use_yaw_rate : bool)
    (yaw_rate_cds : float) (relative_angle : bool) : M unit :=
  if use_yaw then auto_yaw_set_fixed_yaw (yaw_cd * 0.01)%R relative_angle
  else if use_yaw_rate then auto_yaw_set_rate yaw_rate_cds
  else ret tt.

(** The [#if AC_FENCE == ENABLED] block that opens the three destination
    setters: true when the destination is refused. *)
Definition fence_rejects (dest_loc : Location) : bool :=
  AC_FENCE e && negb (check_destination_within_fence e dest_loc).

(** [set_destination(const Vector3f&, ...)] *)
Definition set_destination (destination : Vector3f) (use_yaw : bool) (yaw_cd : float)
    (use_yaw_rate : bool) (yaw_rate_cds : float) (relative_yaw : bool)
    (terrain_alt : bool) : M bool :=
  if fence_rejects (Location_from_vector e destination) then
    call (Logger_Write_Error DEST_OUTSIDE_FENCE) ;;
    ret false
  else
    m <- gets guided_mode ;;
    when (negb (GuidedMode_eqb m Guided_WP)) pos_control_start ;;
    set_yaw_state use_yaw yaw_cd use_yaw_rate yaw_rate_cds relative_yaw ;;
    call (WPNav_set_wp_destination destination terrain_alt) ;;
    m <- gets guided_mode ;;
    call (Log_Write_GuidedTarget m destination Vector3f.zero) ;;
    ret true.

(** [set_destination(const Location&, ...)] *)
Definition set_destination_loc (dest_loc : Location) (use_yaw : bool) (yaw_cd : float)
    (use_yaw_rate : bool) (yaw_rate_cds : float) (relative_yaw : bool) : M bool :=
  if fence_rejects dest_loc then
    call (Logger_Write_Error DEST_OUTSIDE_FENCE) ;;
    ret false
  else
    m <- gets guided_mode ;;
    when (negb (GuidedMode_eqb m Guided_WP)) pos_control_start ;;
    call (WPNav_set_wp_destination_loc dest_loc) ;;
    if negb (wp_nav_set_wp_destination_loc e dest_loc) then
      call (Logger_Write_Error FAILED_TO_SET_DESTINATION) ;;
      ret false
    else
      set_yaw_state use_yaw yaw_cd use_yaw_rate yaw_rate_cds relative_yaw ;;
      m <- gets guided_mode ;;
      call (Log_Write_GuidedTarget m
              (Vector3f.mk (IZR (Location.lat dest_loc)) (IZR (Location.lng dest_loc))
                 (IZR (Location.alt dest_loc)))
              Vector3f.zero) ;;
      ret true.

Definition set_velocity (velocity : Vector3f) (use_yaw : bool) (yaw_cd : float)
    (use_yaw_rate : bool) (yaw_rate_cds : float) (relative_yaw : bool)
    (log_request : bool) : M unit :=
  m <- gets guided_mode ;;
  when (negb (GuidedMode_eqb m Guided_Velocity)) vel_control_start ;;
  set_yaw_state use_yaw yaw_cd use_yaw_rate yaw_rate_cds relative_yaw ;;
  modify (with_guided_vel_target_cms velocity) ;;
  modify (with_vel_update_time_ms (millis e)) ;;
  m <- gets guided_mode ;;
  when log_request (call (Log_Write_GuidedTarget m Vector3f.zero velocity)).

Definition set_destination_posvel (destination velocity : Vector3f) (use_yaw : bool)
    (yaw_cd : float) (use_yaw_rate : bool) (yaw_rate_cds : float)
    (relative_yaw : bool) : M bool :=
  if fence_rejects (Location_from_vector e destination) then
    call (Logger_Write_Error DEST_OUTSIDE_FENCE) ;;
    ret false
  else
    m <- gets guided_mode ;;
    when (negb (GuidedMode_eqb m Guided_PosVel)) posvel_control_start ;;
    set_yaw_state use_yaw yaw_cd use_yaw_rate yaw_rate_cds relative_yaw ;;
    modify (with_posvel_update_time_ms (millis e)) ;;
    modify (with_guided_pos_target_cm destination) ;;
    modify (with_guided_vel_target_cms velocity) ;;
    p <- gets guided_pos_target_cm ;;
    call (PosControl_set_pos_target p) ;;
    m <- gets guided_mode ;;
    call (Log_Write_GuidedTarget m destination velocity) ;;
    ret true.

Definition set_angle (q : Quaternion) (climb_rate_cms_or_thrust : float)
    (use_yaw_rate : bool) (yaw_rate_rads : float) (use_thrust : bool) : M unit :=
  m <- gets guided_mode ;;
  when (negb (GuidedMode_eqb m Guided_Angle)) angle_control_start ;;
  let '(roll, pitch, yaw) := to_euler e q in
  let roll_cd := (ToDeg roll * 100)%R in
  let pitch_cd := (ToDeg pitch * 100)%R in
  let yaw_cd := wrap_180_cd e (ToDeg yaw * 100)%R in
  modify (fun s =>
    with_guided_angle_state
      (mkAngleState (millis e) roll_cd pitch_cd yaw_cd
         (ToDeg yaw_rate_rads * 100)%R
         (if use_thrust then 0%R else climb_rate_cms_or_thrust)
         (if use_thrust then climb_rate_cms_or_thrust else 0%R)
         use_yaw_rate use_thrust) s) ;;
  m <- gets guided_mode ;;
  call (Log_Write_GuidedTarget m (Vector3f.mk roll_cd pitch_cd yaw_cd)
          (Vector3f.mk 0%R 0%R climb_rate_cms_or_thrust)).

(** *** Sub-controller drivers *)

Definition use_pilot_yaw : bool :=
  Z.land (g2_guided_options e) (Options_IgnorePilotYaw e) =? 0.

(** The block "process pilot's yaw input" that opens pos_control_run,
    vel_control_run and posvel_control_run; returns [target_yaw_rate]. *)
Definition process_pilot_yaw_input : M float :=
  if negb (failsafe_radio e) && use_pilot_yaw then
    let target_yaw_rate := get_pilot_desired_yaw_rate e in
    when (negb (is_zero target_yaw_rate)) (auto_yaw_set_mode AUTO_YAW_HOLD) ;;
    ret target_yaw_rate
  else ret 0%R.

(** The block "call attitude controller" that closes the same three
    drivers. *)
Definition call_attitude_controller (roll pitch target_yaw_rate : float) : M unit :=
  ay <- gets auto_yaw ;;
  if yaw_mode_eqb (AutoYaw.mode ay) AUTO_YAW_HOLD then
    call (Attitude_input_euler_angle_roll_pitch_euler_rate_yaw roll pitch target_yaw_rate)
  else if yaw_mode_eqb (AutoYaw.mode ay) AUTO_YAW_RATE then
    call (Attitude_input_euler_angle_roll_pitch_euler_rate_yaw roll pitch (AutoYaw.rate_cds ay))
  else
    call (Attitude_input_euler_angle_roll_pitch_yaw roll pitch (auto_yaw_yaw e ay) true).

(** The take-off block of vel_control_run and angle_control_run. *)
Definition initiate_takeoff : M unit :=
  call Mode_zero_throttle_and_relax_ac ;;
  call (Motors_set_desired_spool_state DSS_THROTTLE_UNLIMITED) ;;
  when (spool_is_unlimited (motors_get_spool_state e))
    (set_land_complete false ;;
     call Mode_set_throttle_takeoff).

Definition takeoff_run : M unit :=
  call Mode_auto_takeoff_run ;;
  if wp_nav_reached_wp_destination e then
    call LandingGear_retract_after_takeoff ;;
    let target := wp_nav_get_wp_destination e in
    _ <- set_destination target false 0%R false 0%R false
           (wp_nav_origin_and_destination_are_terrain_alt e) ;;
    ret tt
  else ret tt.

Definition pos_control_run : M unit :=
  target_yaw_rate <- process_pilot_yaw_input ;;
  dl <- is_disarmed_or_landed ;;
  if dl then
    call Mode_make_safe_spool_down
  else
    call (Motors_set_desired_spool_state DSS_THROTTLE_UNLIMITED) ;;
    call WPNav_update_wpnav ;;
    call (Copter_failsafe_terrain_set_status (wp_nav_update_wpnav e)) ;;
    call PosControl_update_z_controller ;;
    call_attitude_controller (wp_nav_get_roll e) (wp_nav_get_pitch e) target_yaw_rate.

(** Lines 667-685 of set_desired_velocity_with_accel_and_fence_limits: the
    current desired velocity moved towards [vel_des], the change limited in
    the horizontal plane and along z. *)
Definition accel_limited_velocity (curr_vel_des vel_des : Vector3f) : Vector3f :=
  let vel_delta := Vector3f.sub vel_des curr_vel_des in
  let vel_delta_xy := safe_sqrt (sq (Vector3f.x vel_delta) + sq (Vector3f.y vel_delta))%R in
  let vel_delta_xy_max := (G_Dt e * pos_control_get_max_accel_xy e)%R in
  let ratio_xy :=
    if negb (is_zero vel_delta_xy) && f_gt vel_delta_xy vel_delta_xy_max
    then (vel_delta_xy_max / vel_delta_xy)%R else 1%R in
  let vel_delta_z_max := (G_Dt e * pos_control_get_max_accel_z e)%R in
  Vector3f.mk
    (Vector3f.x curr_vel_des + Vector3f.x vel_delta * ratio_xy)%R
    (Vector3f.y curr_vel_des + Vector3f.y vel_delta * ratio_xy)%R
    (Vector3f.z curr_vel_des
       + constrain_float (Vector3f.z vel_delta) (- vel_delta_z_max) vel_delta_z_max)%R.

(** The [#if AC_AVOID_ENABLED] block of the same function. *)
Definition fence_limited_velocity (curr_vel_des : Vector3f) : Vector3f :=
  if AC_AVOID_ENABLED e then
    let v := avoid_adjust_velocity e (pos_control_get_pos_xy_p_kP e)
               (pos_control_get_max_accel_xy e) curr_vel_des (G_Dt e) in
    Vector3f.mk (Vector3f.x v) (Vector3f.y v)
      (get_avoidance_adjusted_climbrate e (Vector3f.z v))
  else curr_vel_des.

Definition set_desired_velocity_with_accel_and_fence_limits (vel_des : Vector3f) : M unit :=
  let curr_vel_des := pos_control_get_desired_velocity e in
  call (PosControl_set_desired_velocity
          (fence_limited_velocity (accel_limited_velocity curr_vel_des vel_des))).

Definition vel_control_run : M unit :=
  target_yaw_rate <- process_pilot_yaw_input ;;
  s <- gets (fun s => s) ;;
  if motors_armed e && ap_auto_armed s && ap_land_complete s
     && is_positive (Vector3f.z (guided_vel_target_cms s)) then
    initiate_takeoff
  else
    dl <- is_disarmed_or_landed ;;
    if dl then
      call Mode_make_safe_spool_down
    else
      call (Motors_set_desired_spool_state DSS_THROTTLE_UNLIMITED) ;;
      let tnow := millis e in
      (if u32_sub tnow (vel_update_time_ms s) >? GUIDED_POSVEL_TIMEOUT_MS then
         when (negb (Vector3f.is_zero (pos_control_get_desired_velocity e)))
           (set_desired_velocity_with_accel_and_fence_limits Vector3f.zero) ;;
         ay <- gets auto_yaw ;;
         when (yaw_mode_eqb (AutoYaw.mode ay) AUTO_YAW_RATE) (auto_yaw_set_rate 0%R)
       else
         set_desired_velocity_with_accel_and_fence_limits (guided_vel_target_cms s)) ;;
      call PosControl_update_vel_controller_xyz ;;
      call_attitude_controller (pos_control_get_roll e) (pos_control_get_pitch e)
        target_yaw_rate.

Definition posvel_control_run : M unit :=
  target_yaw_rate <- process_pilot_yaw_input ;;
  dl <- is_disarmed_or_landed ;;
  if dl then
    call Mode_make_safe_spool_down
  else
    call (Motors_set_desired_spool_state DSS_THROTTLE_UNLIMITED) ;;
    let tnow := millis e in
    t <- gets posvel_update_time_ms ;;
    when (u32_sub tnow t >? GUIDED_POSVEL_TIMEOUT_MS)
      (modify (with_guided_vel_target_cms Vector3f.zero) ;;
       ay <- gets auto_yaw ;;
       when (yaw_mode_eqb (AutoYaw.mode ay) AUTO_YAW_RATE) (auto_yaw_set_rate 0%R)) ;;
    let dt := pos_control_time_since_last_xy_update e in
    let dt := if f_ge dt 0.2%R then 0%R else dt in
    modify (fun s =>
      with_guided_pos_target_cm
        (Vector3f.add (guided_pos_target_cm s) (Vector3f.scale (guided_vel_target_cms s) dt)) s) ;;
    p <- gets guided_pos_target_cm ;;
    v <- gets guided_vel_target_cms ;;
    call (PosControl_set_pos_target p) ;;
    call (PosControl_set_desired_velocity_xy (Vector3f.x v) (Vector3f.y v)) ;;
    call PosControl_update_xy_controller ;;
    call PosControl_update_z_controller ;;
    call_attitude_controller (pos_control_get_roll e) (pos_control_get_pitch e)
      target_yaw_rate.

(** The local [climb_rate_cms] of the source is [climb_rate] here (the
    field of [guided_angle_state] keeps the name). *)
Definition angle_control_run : M unit :=
  a <- gets guided_angle_state ;;
  let roll_in := roll_cd a in
  let pitch_in := pitch_cd a in
  let total_in := norm roll_in pitch_in in
  let angle_max := MIN (attitude_control_get_althold_lean_angle_max e) (aparm_angle_max e) in
  let ratio := (angle_max / total_in)%R in
  let roll_in := if f_gt total_in angle_max then (roll_in * ratio)%R else roll_in in
  let pitch_in := if f_gt total_in angle_max then (pitch_in * ratio)%R else pitch_in in
  let yaw_in := wrap_180_cd e (yaw_cd a) in
  let yaw_rate_in := wrap_180_cd e (yaw_rate_cds a) in
  let climb_rate :=
    if negb (use_thrust a) then
      get_avoidance_adjusted_climbrate e
        (constrain_float (climb_rate_cms a)
           (- Rabs (wp_nav_get_default_speed_down e))%R (wp_nav_get_default_speed_up e))
    else 0%R in
  let tnow := millis e in
  let timeout := u32_sub tnow (update_time_ms a) >? GUIDED_ATTITUDE_TIMEOUT_MS in
  let roll_in := if timeout then 0%R else roll_in in
  let pitch_in := if timeout then 0%R else pitch_in in
  let climb_rate := if timeout then 0%R else climb_rate in
  let yaw_rate_in := if timeout then 0%R else yaw_rate_in in
  when timeout
    (modify (fun s =>
       let a := guided_angle_state s in
       with_guided_angle_state
         (mkAngleState (update_time_ms a) (roll_cd a) (pitch_cd a) (yaw_cd a)
            (yaw_rate_cds a) (climb_rate_cms a) (thrust a) (use_yaw_rate a) false) s)) ;;
  a <- gets guided_angle_state ;;
  let positive_thrust_or_climbrate :=
    is_positive (if use_thrust a then thrust a else climb_rate) in
  when (motors_armed e && positive_thrust_or_climbrate) (set_auto_armed true) ;;
  s <- gets (fun s => s) ;;
  if negb (motors_armed e) || negb (ap_auto_armed s)
     || (ap_land_complete s && negb positive_thrust_or_climbrate) then
    call Mode_make_safe_spool_down
  else if ap_land_complete s && f_gt (climb_rate_cms a) 0%R then
    initiate_takeoff
  else
    call (Motors_set_desired_spool_state DSS_THROTTLE_UNLIMITED) ;;
    (if use_yaw_rate a then
       call (Attitude_input_euler_angle_roll_pitch_euler_rate_yaw roll_in pitch_in yaw_rate_in)
     else
       call (Attitude_input_euler_angle_roll_pitch_yaw roll_in pitch_in yaw_in true)) ;;
    if use_thrust a then
      call (Attitude_set_throttle_out (thrust a) true (g_throttle_filt e))
    else
      call (PosControl_set_alt_target_from_climb_rate_ff climb_rate (G_Dt e) false) ;;
      call PosControl_update_z_controller.

(** *** Guided limits *)

Definition limit_clear : M unit :=
  modify (fun s =>
    let l := guided_limit s in
    with_guided_limit (mkLimit 0 0%R 0%R 0%R (start_time l) (start_pos l)) s).

Definition limit_set (timeout_ms : uint32) (alt_min_cm alt_max_cm horiz_max_cm : float) : M unit :=
  modify (fun s =>
    let l := guided_limit s in
    with_guided_limit
      (mkLimit timeout_ms alt_min_cm alt_max_cm horiz_max_cm (start_time l) (start_pos l)) s).

Definition limit_init_time_and_pos : M unit :=
  modify (fun s =>
    let l := guided_limit s in
    with_guided_limit
      (mkLimit (timeout_ms l) (alt_min_cm l) (alt_max_cm l) (horiz_max_cm l)
         (millis e) (inertial_nav_get_position e)) s).

Definition limit_check : M bool :=
  l <- gets guided_limit ;;
  if (timeout_ms l >? 0) && (u32_sub (millis e) (start_time l) >=? timeout_ms l) then
    ret true
  else
    let curr_pos := inertial_nav_get_position e in
    if negb (is_zero (alt_min_cm l)) && f_lt (Vector3f.z curr_pos) (alt_min_cm l) then
      ret true
    else if negb (is_zero (alt_max_cm l)) && f_gt (Vector3f.z curr_pos) (alt_max_cm l) then
      ret true
    else if f_gt (horiz_max_cm l) 0%R then
      let horiz_move := get_horizontal_distance_cm (start_pos l) curr_pos in
      if f_gt horiz_move (horiz_max_cm l) then ret true else ret false
    else ret false.

(** *** Circle *)

Definition circle_run : M unit :=
  call CircleNav_update ;;
  call PosControl_update_z_controller ;;
  ay <- gets auto_yaw ;;
  if yaw_mode_eqb (AutoYaw.mode ay) AUTO_YAW_HOLD then
    call (Attitude_input_euler_angle_roll_pitch_yaw (circle_nav_get_roll e)
            (circle_nav_get_pitch e) (circle_nav_get_yaw e) true)
  else
    call (Attitude_input_euler_angle_roll_pitch_yaw (circle_nav_get_roll e)
            (circle_nav_get_pitch e) (auto_yaw_yaw e ay) true).

Definition loc_from_cmd (cmd : Mission_Command) : Location :=
  let ret0 := Mission_Command.content_location cmd in
  let ret1 :=
    if (Location.lat ret0 =? 0) && (Location.lng ret0 =? 0)
    then Location.mk (Location.lat (current_loc e)) (Location.lng (current_loc e))
           (Location.alt ret0) (Location.alt_frame ret0)
    else ret0 in
  if Location.alt ret1 =? 0 then
    match current_loc_get_alt_cm e (Location.get_alt_frame ret1) with
    | Some curr_alt => Location.set_alt_cm ret1 curr_alt (Location.get_alt_frame ret1)
    | None =>
        Location.set_alt_cm ret1 (Location.alt (current_loc e))
          (Location.get_alt_frame (current_loc e))
    end
  else ret1.

Definition circle_start : M unit :=
  modify (with_guided_mode Guided_Circle) ;;
  call CircleNav_init_get_center ;;
  ay <- gets auto_yaw ;;
  when (negb (yaw_mode_eqb (AutoYaw.mode ay) AUTO_YAW_ROI)) (auto_yaw_set_mode AUTO_YAW_HOLD).

Definition circle_movetoedge_start (circle_center : Location) (radius_m : float) : M unit :=
  let converted := get_vector_from_origin_NEU e circle_center in
  let circle_center_neu :=
    match converted with
    | Some v => v
    | None => inertial_nav_get_position e
    end in
  when (match converted with Some _ => false | None => true end)
    (call (Logger_Write_Error FAILED_CIRCLE_INIT)) ;;
  call (CircleNav_set_center circle_center_neu) ;;
  when (negb (is_zero radius_m)) (call (CircleNav_set_radius (radius_m * 100)%R)) ;;
  let radius :=
    if is_zero radius_m then circle_nav_get_radius e else (radius_m * 100)%R in
  let circle_edge_neu := circle_nav_get_closest_point_on_circle e circle_center_neu radius in
  let dist_to_edge :=
    Vector3f.length (Vector3f.sub (inertial_nav_get_position e) circle_edge_neu) in
  if f_gt dist_to_edge 300%R then
    modify (with_guided_mode Guided_CircleMoveToEdge) ;;
    let circle_edge :=
      Location.set_alt_cm (Location_from_vector e circle_edge_neu)
        (Location.alt circle_center) (Location.get_alt_frame circle_center) in
    call (WPNav_set_wp_destination_loc circle_edge) ;;
    when (negb (wp_nav_set_wp_destination_loc e circle_edge))
      (call Copter_failsafe_terrain_on_event) ;;
    let curr_pos := inertial_nav_get_position e in
    let dist_to_center :=
      norm (Vector3f.x circle_center_neu - Vector3f.x curr_pos)%R
           (Vector3f.y circle_center_neu - Vector3f.y curr_pos)%R in
    ay <- gets auto_yaw ;;
    when (negb (yaw_mode_eqb (AutoYaw.mode ay) AUTO_YAW_ROI))
      (if f_gt dist_to_center radius && f_gt dist_to_center 500%R
       then auto_yaw_set_mode_to_default false
       else auto_yaw_set_mode AUTO_YAW_HOLD)
  else
    circle_start.

Definition do_circle (cmd : Mission_Command) : M unit :=
  let circle_center := loc_from_cmd cmd in
  let circle_radius_m := HIGHBYTE (Mission_Command.p1 cmd) in
  circle_movetoedge_start circle_center (IZR circle_radius_m).

(** *** Mission callbacks *)

(** The body of start_command is inside a comment in the source; what is
    compiled is [return true]. *)
Definition start_command (cmd : Mission_Command) : M bool :=
  ret true.

(** The locals [circle_center] and [curr_pos] of the reached branch are
    computed and not used by the source; they have no counterpart here. *)
Definition verify_circle (cmd : Mission_Command) : M bool :=
  m <- gets guided_mode ;;
  if GuidedMode_eqb m Guided_CircleMoveToEdge then
    if wp_nav_reached_wp_destination e then
      match get_vector_from_origin_NEU e (Mission_Command.content_location cmd) with
      | None => ret true
      | Some circle_center =>
          circle_start ;;
          ret false
      end
    else ret false
  else
    ret (f_ge (Rabs (circle_nav_get_angle_total e / M_2PI))
           (IZR (LOWBYTE (Mission_Command.p1 cmd)))).

Definition verify_command (cmd : Mission_Command) : M bool :=
  if negb (flightmode_is_mode_guided e) then ret false
  else
    cmd_complete <-
      (if Mission_Command.id cmd =? MAV_CMD_NAV_LOITER_TURNS then verify_circle cmd
       else
         call (GCS_send_text_skipping_invalid_cmd (Mission_Command.id cmd)) ;;
         ret true) ;;
    when cmd_complete
      (call (GCS_send_mission_item_reached_message (Mission_Command.index cmd))) ;;
    ret cmd_complete.

(** *** The per-tick dispatcher *)

Definition run : M unit :=
  m <- gets guided_mode ;;
  match m with
  | Guided_TakeOff => takeoff_run
  | Guided_WP | Guided_CircleMoveToEdge => pos_control_run
  | Guided_Velocity => vel_control_run
  | Guided_PosVel => posvel_control_run
  | Guided_Angle => angle_control_run
  | Guided_Circle => circle_run
  end.

End ModeGuided.

(** * Observations on a run *)

(** The part of the state the ingestion calls own: the active sub-mode, the
    stored targets with their timestamps, the angle state and the yaw
    state (and, besides, the limits and the flags). *)
Definition same_target_store (s s' : State) : Prop :=
  guided_mode s' = guided_mode s /\
  guided_pos_target_cm s' = guided_pos_target_cm s /\
  guided_vel_target_cms s' = guided_vel_target_cms s /\
  posvel_update_time_ms s' = posvel_update_time_ms s /\
  vel_update_time_ms s' = vel_update_time_ms s /\
  guided_angle_state s' = guided_angle_state s /\
  auto_yaw s' = auto_yaw s /\
  guided_limit s' = guided_limit s /\
  ap_auto_armed s' = ap_auto_armed s /\
  ap_land_complete s' = ap_land_complete s.

(** The velocities handed to [pos_control->set_desired_velocity] and the
    positions handed to [pos_control->set_pos_target] in a list of calls. *)
Definition desired_velocity_commands (cs : list Call) : list Vector3f :=
  flat_map (fun c => match c with PosControl_set_desired_velocity v => [v] | _ => [] end) cs.

Definition position_commands (cs : list Call) : list Vector3f :=
  flat_map (fun c => match c with PosControl_set_pos_target p => [p] | _ => [] end) cs.

(** The calls that only the mode initialisers ([pos_control_start],
    [vel_control_start], [posvel_control_start], [angle_control_start])
    make; each initialiser makes at least one of them. *)
Definition initializer_call (c : Call) : bool :=
  match c with
  | WPNav_wp_and_spline_init
  | PosControl_set_max_speed_xy _
  | PosControl_set_max_accel_xy _
  | PosControl_set_max_speed_z _ _
  | PosControl_set_max_accel_z _
  | PosControl_init_vel_controller_xyz
  | PosControl_init_xy_controller
  | PosControl_set_xy_target _ _
  | PosControl_set_alt_target_to_current_alt
  | PosControl_set_desired_velocity_z _ => true
  | _ => false
  end.

(** A list of calls in which no mode initialiser shows. *)
Definition no_initializer_call (cs : list Call) : Prop :=
  forallb (fun c => negb (initializer_call c)) cs = true.

(** Whether the pilot's yaw stick takes the yaw over in this tick (the
    condition under which "process pilot's yaw input" sets AUTO_YAW_HOLD). *)
Definition pilot_yaw_override (e : Env) : bool :=
  negb (failsafe_radio e) && use_pilot_yaw e && negb (is_zero (get_pilot_desired_yaw_rate e)).

(** [positive_thrust_or_climbrate] of angle_control_run, as the driver
    computes it from the stored angle target (lines 602-622). *)
Definition positive_thrust_or_climbrate (e : Env) (s : State) : bool :=
  let a := guided_angle_state s in
  let climb_rate :=
    if negb (use_thrust a) then
      get_avoidance_adjusted_climbrate e
        (constrain_float (climb_rate_cms a)
           (- Rabs (wp_nav_get_default_speed_down e))%R (wp_nav_get_default_speed_up e))
    else 0%R in
  let timeout := u32_sub (millis e) (update_time_ms a) >? GUIDED_ATTITUDE_TIMEOUT_MS in
  let climb_rate := if timeout then 0%R else climb_rate in
  let use_thrust_now := if timeout then false else use_thrust a in
  is_positive (if use_thrust_now then thrust a else climb_rate).



(** A tick of vel_control_run gets past its two early returns (the take-off
    block and the interlock) exactly when this holds. *)
Definition past_interlock (e : Env) (s : State) : bool :=
  motors_armed e && ap_auto_armed s && negb (ap_land_complete s).

(** The distance of two velocities in the horizontal plane. *)
Definition xy_distance (a b : Vector3f) : float :=
  sqrt (sq (Vector3f.x a - Vector3f.x b) + sq (Vector3f.y a - Vector3f.y b))%R.

(** One tick of a rate limiter from [cur] towards [tgt], stated on the
    result [v] alone.  The change is bounded: [v] is within
    [G_Dt * max_accel_xy] of [cur] in the horizontal plane and within
    [G_Dt * max_accel_z] along z.  The velocity moves: what is left to the
    target is what was left before less that allowance, or nothing; and no
    component is further from the target than it was. *)
Definition limited_step (e : Env) (cur tgt v : Vector3f) : Prop :=
  let max_xy := (G_Dt e * pos_control_get_max_accel_xy e)%R in
  let max_z := (G_Dt e * pos_control_get_max_accel_z e)%R in
  (xy_distance v cur <= max_xy)%R /\
  (Rabs (Vector3f.z v - Vector3f.z cur) <= max_z)%R /\
  xy_distance v tgt = Rmax 0 (xy_distance cur tgt - max_xy)%R /\
  Rabs (Vector3f.z v - Vector3f.z tgt)%R
  = Rmax 0 (Rabs (Vector3f.z cur - Vector3f.z tgt) - max_z)%R /\
  (Rabs (Vector3f.x v - Vector3f.x tgt) <= Rabs (Vector3f.x cur - Vector3f.x tgt))%R /\
  (Rabs (Vector3f.y v - Vector3f.y tgt) <= Rabs (Vector3f.y cur - Vector3f.y tgt))%R /\
  (Rabs (Vector3f.z v - Vector3f.z tgt) <= Rabs (Vector3f.z cur - Vector3f.z tgt))%R.

(** [dist_to_edge] of circle_movetoedge_start. *)
Definition circle_dist_to_edge (e : Env) (circle_center : Location) (radius_m : float) : float :=
  let circle_center_neu :=
    match get_vector_from_origin_NEU e circle_center with
    | Some v => v
    | None => inertial_nav_get_position e
    end in
  let radius :=
    if is_zero radius_m then circle_nav_get_radius e else (radius_m * 100)%R in
  Vector3f.length
    (Vector3f.sub (inertial_nav_get_position e)
       (circle_nav_get_closest_point_on_circle e circle_center_neu radius)).

(** Ticks of a circle command: the driver tick [run], and the mission's
    [verify_circle] callback, each with the environment it reads. *)
Inductive Tick : Type :=
  | Tick_run (e : Env)
  | Tick_verify_circle (e : Env) (cmd : Mission_Command).

Definition tick (t : Tick) (s : State) : State :=
  match t with
  | Tick_run e => snd (run e s)
  | Tick_verify_circle e cmd => snd (verify_circle e cmd s)
  end.

(** The sub-mode after each tick of a sequence. *)
Fixpoint mode_trace (ts : list Tick) (s : State) : list GuidedMode :=
  match ts with
  | [] => []
  | t :: ts' => guided_mode (tick t s) :: mode_trace ts' (tick t s)
  end.

Definition run_ticks (ts : list Tick) (s : State) : State :=
  fold_left (fun s t => tick t s) ts s.

(** A tick at which wp_nav is asked and reports the destination reached. *)
Definition reports_reached (t : Tick) : bool :=
  match t with
  | Tick_run _ => false
  | Tick_verify_circle e _ => wp_nav_reached_wp_destination e
  end.

(** The command's location resolves to a vector from the EKF origin. *)
Definition resolves_center (t : Tick) : bool :=
  match t with
  | Tick_run _ => false
  | Tick_verify_circle e cmd =>
      match get_vector_from_origin_NEU e (Mission_Command.content_location cmd) with
      | Some _ => true
      | None => false
      end
  end.

(** ** Sample inputs *)

Definition v3 (a b c : Z) : Vector3f := Vector3f.mk (IZR a) (IZR b) (IZR c).

Definition sample_location : Location := Location.mk 0 0 1000 ABOVE_HOME.

(** An environment with every reading fixed but the ones the statements
    below vary: the clock, the arming state, the answers of the fence and
    of wp_nav, the position, the current desired velocity, the controller's dt and the
    resolution of locations. *)
Definition sample_env (now : uint32) (armed fence_ok terrain_ok reached : bool)
    (pos vel_des : Vector3f) (dt : float) (neu : option Vector3f) : Env :=
  {| AC_FENCE := true;
     AC_AVOID_ENABLED := false;
     millis := now;
     G_Dt := (1 / 400)%R;
     wrap_180_cd := fun a => a;
     to_euler := fun q => (q1 q, q2 q, q3 q);
     Location_from_vector := fun _ => sample_location;
     get_vector_from_origin_NEU := fun _ => neu;
     check_destination_within_fence := fun _ => fence_ok;
     avoid_adjust_velocity := fun _ _ v _ => v;
     get_avoidance_adjusted_climbrate := fun c => c;
     inertial_nav_get_position := pos;
     inertial_nav_get_velocity := v3 0 0 0;
     ahrs_roll_sensor := 0;
     ahrs_pitch_sensor := 0;
     ahrs_yaw_sensor := 0;
     wp_nav_set_wp_destination_loc := fun _ => terrain_ok;
     wp_nav_get_wp_stopping_point := v3 0 0 0;
     wp_nav_reached_wp_destination := reached;
     wp_nav_get_wp_destination := v3 0 0 0;
     wp_nav_origin_and_destination_are_terrain_alt := false;
     wp_nav_update_wpnav := true;
     wp_nav_get_roll := 0%R;
     wp_nav_get_pitch := 0%R;
     wp_nav_get_default_speed_xy := 500%R;
     wp_nav_get_default_speed_down := 150%R;
     wp_nav_get_default_speed_up := 250%R;
     wp_nav_get_wp_acceleration := 100%R;
     wp_nav_get_accel_z := 100%R;
     pos_control_is_active_z := true;
     pos_control_get_desired_velocity := vel_des;
     pos_control_time_since_last_xy_update := dt;
     pos_control_get_max_accel_xy := 100%R;
     pos_control_get_max_accel_z := 100%R;
     pos_control_get_pos_xy_p_kP := 1%R;
     pos_control_get_roll := 0%R;
     pos_control_get_pitch := 0%R;
     attitude_control_get_althold_lean_angle_max := 4500%R;
     aparm_angle_max := 4500%R;
     get_pilot_speed_dn := 150%R;
     g_pilot_speed_up := 250%R;
     g_pilot_accel_z := 250%R;
     g_throttle_filt := 0%R;
     g2_guided_options := 0;
     Options_IgnorePilotYaw := 4;
     failsafe_radio := true;
     get_pilot_desired_yaw_rate := 0%R;
     motors_armed := armed;
     motors_get_spool_state := SS_THROTTLE_UNLIMITED;
     auto_yaw_default_mode := fun _ => AUTO_YAW_LOOK_AT_NEXT_WP;
     auto_yaw_yaw := fun _ => 0%R;
     circle_nav_get_radius := 1000%R;
     circle_nav_get_closest_point_on_circle :=
       fun c r => Vector3f.add c (Vector3f.mk r 0%R 0%R);
     circle_nav_get_angle_total := 0%R;
     circle_nav_get_roll := 0%R;
     circle_nav_get_pitch := 0%R;
     circle_nav_get_yaw := 0%R;
     current_loc := sample_location;
     current_loc_get_alt_cm := fun _ => Some 1000;
     flightmode_is_mode_guided := true |}.

(** A state in sub-mode [m] with velocity target [vel], every timestamp 0,
    yaw state [ay], armed for autonomous flight, [landed] or not. *)
Definition sample_state (m : GuidedMode) (vel : Vector3f) (ay : AutoYaw) (landed : bool) : State :=
  {| guided_mode := m;
     guided_pos_target_cm := v3 0 0 0;
     guided_vel_target_cms := vel;
     posvel_update_time_ms := 0;
     vel_update_time_ms := 0;
     guided_angle_state := mkAngleState 0 0%R 0%R 0%R 0%R 0%R (1 / 2)%R true true;
     guided_limit := mkLimit 0 0%R 0%R 0%R 0 (v3 0 0 0);
     auto_yaw := ay;
     ap_auto_armed := true;
     ap_land_complete := landed;
     calls := [] |}.

Definition yaw_rate_30 : AutoYaw := AutoYaw.mk AUTO_YAW_RATE 0%R false 3000%R.
Definition yaw_hold : AutoYaw := AutoYaw.mk AUTO_YAW_HOLD 0%R false 0%R.

Definition loiter_turns_cmd : Mission_Command :=
  Mission_Command.mk MAV_CMD_NAV_LOITER_TURNS 1 (10 * 256 + 2) sample_location.


(** [e] in a build with AC_AVOID_ENABLED, the avoidance library answering
    [adjust]. *)
Definition with_avoidance (adjust : float -> float -> Vector3f -> float -> Vector3f)
    (e : Env) : Env :=
  mkEnv (AC_FENCE e) true (millis e) (G_Dt e) (wrap_180_cd e)
    (to_euler e) (Location_from_vector e) (get_vector_from_origin_NEU e)
    (check_destination_within_fence e) adjust
    (get_avoidance_adjusted_climbrate e) (inertial_nav_get_position e)
    (inertial_nav_get_velocity e) (ahrs_roll_sensor e) (ahrs_pitch_sensor e)
    (ahrs_yaw_sensor e) (wp_nav_set_wp_destination_loc e)
    (wp_nav_get_wp_stopping_point e) (wp_nav_reached_wp_destination e)
    (wp_nav_get_wp_destination e) (wp_nav_origin_and_destination_are_terrain_alt e)
    (wp_nav_update_wpnav e) (wp_nav_get_roll e) (wp_nav_get_pitch e)
    (wp_nav_get_default_speed_xy e) (wp_nav_get_default_speed_down e)
    (wp_nav_get_default_speed_up e) (wp_nav_get_wp_acceleration e)
    (wp_nav_get_accel_z e) (pos_control_is_active_z e)
    (pos_control_get_desired_velocity e) (pos_control_time_since_last_xy_update e)
    (pos_control_get_max_accel_xy e) (pos_control_get_max_accel_z e)
    (pos_control_get_pos_xy_p_kP e) (pos_control_get_roll e) (pos_control_get_pitch e)
    (attitude_control_get_althold_lean_angle_max e) (aparm_angle_max e)
    (get_pilot_speed_dn e) (g_pilot_speed_up e) (g_pilot_accel_z e) (g_throttle_filt e)
    (g2_guided_options e) (Options_IgnorePilotYaw e) (failsafe_radio e)
    (get_pilot_desired_yaw_rate e)
    (motors_armed e) (motors_get_spool_state e) (auto_yaw_default_mode e)
    (auto_yaw_yaw e) (circle_nav_get_radius e)
    (circle_nav_get_closest_point_on_circle e) (circle_nav_get_angle_total e)
    (circle_nav_get_roll e) (circle_nav_get_pitch e) (circle_nav_get_yaw e)
    (current_loc e) (current_loc_get_alt_cm e) (flightmode_is_mode_guided e).

(** * The take-off request *)

(** What do_user_takeoff_start reads besides [Env]: wp_nav's use of the
    rangefinder as terrain source, the rangefinder's range and reading, and
    the conversion of the float altitude to the [int32_t] of
    [Location::set_alt_cm]. *)
Record TakeoffEnv : Type := mkTakeoffEnv {
  wp_nav_rangefinder_used_and_healthy : bool;
  wp_nav_terrain_source_is_rangefinder : bool;
  rangefinder_max_distance_cm_orient : Z;
  rangefinder_state_alt_cm : Z;
  int32_of_float : float -> Z
}.

Section TakeOff.

Variable e : Env.
Variable t : TakeoffEnv.

(** [Mode::auto_takeoff_set_start_alt] is defined outside this file and
    writes members of the Mode base class; it is taken as a parameter. *)
Variable auto_takeoff_set_start_alt : M unit.

(** The test that selects the terrain frame in do_user_takeoff_start. *)
Definition takeoff_uses_rangefinder (takeoff_alt_cm : float) : bool :=
  wp_nav_rangefinder_used_and_healthy t
  && wp_nav_terrain_source_is_rangefinder t
  && f_lt takeoff_alt_cm (IZR (rangefinder_max_distance_cm_orient t)).

Definition do_user_takeoff_start (takeoff_alt_cm : float) : M bool :=
  modify (with_guided_mode Guided_TakeOff) ;;
  let target_loc := current_loc e in
  if takeoff_uses_rangefinder takeoff_alt_cm
     && f_le takeoff_alt_cm (IZR (rangefinder_state_alt_cm t)) then
    ret false
  else
    let frame := if takeoff_uses_rangefinder takeoff_alt_cm
                 then ABOVE_TERRAIN else ABOVE_HOME in
    let target_loc := Location.set_alt_cm target_loc (int32_of_float t takeoff_alt_cm) frame in
    call (WPNav_set_wp_destination_loc target_loc) ;;
    if negb (wp_nav_set_wp_destination_loc e target_loc) then
      call (Logger_Write_Error FAILED_TO_SET_DESTINATION) ;;
      ret false
    else
      auto_yaw_set_mode AUTO_YAW_HOLD ;;
      call Mode_set_throttle_takeoff ;;
      auto_takeoff_set_start_alt ;;
      ret true.

End TakeOff.

(** * Further observations on a run *)

Definition is_throttle_out (c : Call) : bool :=
  match c with Attitude_set_throttle_out _ _ _ => true | _ => false end.

Definition is_climb_rate_command (c : Call) : bool :=
  match c with PosControl_set_alt_target_from_climb_rate_ff _ _ _ => true | _ => false end.

Definition is_spool_down (c : Call) : bool :=
  match c with Mode_make_safe_spool_down => true | _ => false end.

(** The thrust values handed to [attitude_control->set_throttle_out]. *)
Definition throttle_out_commands (cs : list Call) : list float :=
  flat_map (fun c => match c with Attitude_set_throttle_out thr _ _ => [thr] | _ => [] end) cs.

(** Roll and pitch of the attitude commands. *)
Definition attitude_roll_pitch (cs : list Call) : list (float * float) :=
  flat_map (fun c =>
    match c with
    | Attitude_input_euler_angle_roll_pitch_euler_rate_yaw r p _ => [(r, p)]
    | Attitude_input_euler_angle_roll_pitch_yaw r p _ _ => [(r, p)]
    | _ => []
    end) cs.

(** The yaw rates of the rate-yaw attitude commands. *)
Definition attitude_yaw_rates (cs : list Call) : list float :=
  flat_map (fun c =>
    match c with
    | Attitude_input_euler_angle_roll_pitch_euler_rate_yaw _ _ yr => [yr]
    | _ => []
    end) cs.

(** The destinations handed to [wp_nav->set_wp_destination] (vector form). *)
Definition wp_destinations (cs : list Call) : list (Vector3f * bool) :=
  flat_map (fun c => match c with WPNav_set_wp_destination d t => [(d, t)] | _ => [] end) cs.

(** The sub-modes written to the target log. *)
Definition logged_modes (cs : list Call) : list GuidedMode :=
  flat_map (fun c => match c with Log_Write_GuidedTarget m _ _ => [m] | _ => [] end) cs.

Definition mission_item_reached_messages (cs : list Call) : list Z :=
  flat_map (fun c =>
    match c with GCS_send_mission_item_reached_message i => [i] | _ => [] end) cs.

Definition circle_radius_commands (cs : list Call) : list float :=
  flat_map (fun c => match c with CircleNav_set_radius r => [r] | _ => [] end) cs.

Definition circle_center_commands (cs : list Call) : list Vector3f :=
  flat_map (fun c => match c with CircleNav_set_center c0 => [c0] | _ => [] end) cs.

(** A sequence of position-velocity driver ticks, one environment each. *)
Definition posvel_ticks (es : list Env) (s : State) : State :=
  fold_left (fun s e => snd (posvel_control_run e s)) es s.

(** The three timestamps of the target store. *)
Definition target_timestamps (s : State) : uint32 * uint32 * uint32 :=
  (vel_update_time_ms s, posvel_update_time_ms s, update_time_ms (guided_angle_state s)).

Definition sample_takeoff_env (rangefinder : bool) (rf_alt : Z) : TakeoffEnv :=
  {| wp_nav_rangefinder_used_and_healthy := rangefinder;
     wp_nav_terrain_source_is_rangefinder := rangefinder;
     rangefinder_max_distance_cm_orient := 700;
     rangefinder_state_alt_cm := rf_alt;
     int32_of_float := fun _ => 500 |}.

(** The sub-mode, the timestamps and the limits are those of [s]. *)
Definition same_mode_and_clocks (s s' : State) : Prop :=
  guided_mode s' = guided_mode s /\
  target_timestamps s' = target_timestamps s /\
  guided_limit s' = guided_limit s.

(** Environments that differ from another in one reading. *)
Definition with_failsafe_radio (v : bool) (e : Env) : Env :=
  mkEnv (AC_FENCE e) (AC_AVOID_ENABLED e) (millis e) (G_Dt e) (wrap_180_cd e)
    (to_euler e) (Location_from_vector e) (get_vector_from_origin_NEU e)
    (check_destination_within_fence e) (avoid_adjust_velocity e)
    (get_avoidance_adjusted_climbrate e) (inertial_nav_get_position e)
    (inertial_nav_get_velocity e) (ahrs_roll_sensor e) (ahrs_pitch_sensor e)
    (ahrs_yaw_sensor e) (wp_nav_set_wp_destination_loc e)
    (wp_nav_get_wp_stopping_point e) (wp_nav_reached_wp_destination e)
    (wp_nav_get_wp_destination e) (wp_nav_origin_and_destination_are_terrain_alt e)
    (wp_nav_update_wpnav e) (wp_nav_get_roll e) (wp_nav_get_pitch e)
    (wp_nav_get_default_speed_xy e) (wp_nav_get_default_speed_down e)
    (wp_nav_get_default_speed_up e) (wp_nav_get_wp_acceleration e)
    (wp_nav_get_accel_z e) (pos_control_is_active_z e)
    (pos_control_get_desired_velocity e) (pos_control_time_since_last_xy_update e)
    (pos_control_get_max_accel_xy e) (pos_control_get_max_accel_z e)
    (pos_control_get_pos_xy_p_kP e) (pos_control_get_roll e) (pos_control_get_pitch e)
    (attitude_control_get_althold_lean_angle_max e) (aparm_angle_max e)
    (get_pilot_speed_dn e) (g_pilot_speed_up e) (g_pilot_accel_z e) (g_throttle_filt e)
    (g2_guided_options e) (Options_IgnorePilotYaw e) v (get_pilot_desired_yaw_rate e)
    (motors_armed e) (motors_get_spool_state e) (auto_yaw_default_mode e)
    (auto_yaw_yaw e) (circle_nav_get_radius e)
    (circle_nav_get_closest_point_on_circle e) (circle_nav_get_angle_total e)
    (circle_nav_get_roll e) (circle_nav_get_pitch e) (circle_nav_get_yaw e)
    (current_loc e) (current_loc_get_alt_cm e) (flightmode_is_mode_guided e).

Definition with_get_pilot_desired_yaw_rate (v : float) (e : Env) : Env :=
  mkEnv (AC_FENCE e) (AC_AVOID_ENABLED e) (millis e) (G_Dt e) (wrap_180_cd e)
    (to_euler e) (Location_from_vector e) (get_vector_from_origin_NEU e)
    (check_destination_within_fence e) (avoid_adjust_velocity e)
    (get_avoidance_adjusted_climbrate e) (inertial_nav_get_position e)
    (inertial_nav_get_velocity e) (ahrs_roll_sensor e) (ahrs_pitch_sensor e)
    (ahrs_yaw_sensor e) (wp_nav_set_wp_destination_loc e)
    (wp_nav_get_wp_stopping_point e) (wp_nav_reached_wp_destination e)
    (wp_nav_get_wp_destination e) (wp_nav_origin_and_destination_are_terrain_alt e)
    (wp_nav_update_wpnav e) (wp_nav_get_roll e) (wp_nav_get_pitch e)
    (wp_nav_get_default_speed_xy e) (wp_nav_get_default_speed_down e)
    (wp_nav_get_default_speed_up e) (wp_nav_get_wp_acceleration e)
    (wp_nav_get_accel_z e) (pos_control_is_active_z e)
    (pos_control_get_desired_velocity e) (pos_control_time_since_last_xy_update e)
    (pos_control_get_max_accel_xy e) (pos_control_get_max_accel_z e)
    (pos_control_get_pos_xy_p_kP e) (pos_control_get_roll e) (pos_control_get_pitch e)
    (attitude_control_get_althold_lean_angle_max e) (aparm_angle_max e)
    (get_pilot_speed_dn e) (g_pilot_speed_up e) (g_pilot_accel_z e) (g_throttle_filt e)
    (g2_guided_options e) (Options_IgnorePilotYaw e) (failsafe_radio e) v
    (motors_armed e) (motors_get_spool_state e) (auto_yaw_default_mode e)
    (auto_yaw_yaw e) (circle_nav_get_radius e)
    (circle_nav_get_closest_point_on_circle e) (circle_nav_get_angle_total e)
    (circle_nav_get_roll e) (circle_nav_get_pitch e) (circle_nav_get_yaw e)
    (current_loc e) (current_loc_get_alt_cm e) (flightmode_is_mode_guided e).

Definition with_motors_get_spool_state (v : SpoolState) (e : Env) : Env :=
  mkEnv (AC_FENCE e) (AC_AVOID_ENABLED e) (millis e) (G_Dt e) (wrap_180_cd e)
    (to_euler e) (Location_from_vector e) (get_vector_from_origin_NEU e)
    (check_destination_within_fence e) (avoid_adjust_velocity e)
    (get_avoidance_adjusted_climbrate e) (inertial_nav_get_position e)
    (inertial_nav_get_velocity e) (ahrs_roll_sensor e) (ahrs_pitch_sensor e)
    (ahrs_yaw_sensor e) (wp_nav_set_wp_destination_loc e)
    (wp_nav_get_wp_stopping_point e) (wp_nav_reached_wp_destination e)
    (wp_nav_get_wp_destination e) (wp_nav_origin_and_destination_are_terrain_alt e)
    (wp_nav_update_wpnav e) (wp_nav_get_roll e) (wp_nav_get_pitch e)
    (wp_nav_get_default_speed_xy e) (wp_nav_get_default_speed_down e)
    (wp_nav_get_default_speed_up e) (wp_nav_get_wp_acceleration e)
    (wp_nav_get_accel_z e) (pos_control_is_active_z e)
    (pos_control_get_desired_velocity e) (pos_control_time_since_last_xy_update e)
    (pos_control_get_max_accel_xy e) (pos_control_get_max_accel_z e)
    (pos_control_get_pos_xy_p_kP e) (pos_control_get_roll e) (pos_control_get_pitch e)
    (attitude_control_get_althold_lean_angle_max e) (aparm_angle_max e)
    (get_pilot_speed_dn e) (g_pilot_speed_up e) (g_pilot_accel_z e) (g_throttle_filt e)
    (g2_guided_options e) (Options_IgnorePilotYaw e) (failsafe_radio e)
    (get_pilot_desired_yaw_rate e) (motors_armed e) v (auto_yaw_default_mode e)
    (auto_yaw_yaw e) (circle_nav_get_radius e)
    (circle_nav_get_closest_point_on_circle e) (circle_nav_get_angle_total e)
    (circle_nav_get_roll e) (circle_nav_get_pitch e) (circle_nav_get_yaw e)
    (current_loc e) (current_loc_get_alt_cm e) (flightmode_is_mode_guided e).

Definition with_current_loc (v : Location) (e : Env) : Env :=
  mkEnv (AC_FENCE e) (AC_AVOID_ENABLED e) (millis e) (G_Dt e) (wrap_180_cd e)
    (to_euler e) (Location_from_vector e) (get_vector_from_origin_NEU e)
    (check_destination_within_fence e) (avoid_adjust_velocity e)
    (get_avoidance_adjusted_climbrate e) (inertial_nav_get_position e)
    (inertial_nav_get_velocity e) (ahrs_roll_sensor e) (ahrs_pitch_sensor e)
    (ahrs_yaw_sensor e) (wp_nav_set_wp_destination_loc e)
    (wp_nav_get_wp_stopping_point e) (wp_nav_reached_wp_destination e)
    (wp_nav_get_wp_destination e) (wp_nav_origin_and_destination_are_terrain_alt e)
    (wp_nav_update_wpnav e) (wp_nav_get_roll e) (wp_nav_get_pitch e)
    (wp_nav_get_default_speed_xy e) (wp_nav_get_default_speed_down e)
    (wp_nav_get_default_speed_up e) (wp_nav_get_wp_acceleration e)
    (wp_nav_get_accel_z e) (pos_control_is_active_z e)
    (pos_control_get_desired_velocity e) (pos_control_time_since_last_xy_update e)
    (pos_control_get_max_accel_xy e) (pos_control_get_max_accel_z e)
    (pos_control_get_pos_xy_p_kP e) (pos_control_get_roll e) (pos_control_get_pitch e)
    (attitude_control_get_althold_lean_angle_max e) (aparm_angle_max e)
    (get_pilot_speed_dn e) (g_pilot_speed_up e) (g_pilot_accel_z e) (g_throttle_filt e)
    (g2_guided_options e) (Options_IgnorePilotYaw e) (failsafe_radio e)
    (get_pilot_desired_yaw_rate e) (motors_armed e) (motors_get_spool_state e)
    (auto_yaw_default_mode e) (auto_yaw_yaw e) (circle_nav_get_radius e)
    (circle_nav_get_closest_point_on_circle e) (circle_nav_get_angle_total e)
    (circle_nav_get_roll e) (circle_nav_get_pitch e) (circle_nav_get_yaw e) v
    (current_loc_get_alt_cm e) (flightmode_is_mode_guided e).

Definition with_AC_FENCE (v : bool) (e : Env) : Env :=
  mkEnv v (AC_AVOID_ENABLED e) (millis e) (G_Dt e) (wrap_180_cd e) (to_euler e)
    (Location_from_vector e) (get_vector_from_origin_NEU e)
    (check_destination_within_fence e) (avoid_adjust_velocity e)
    (get_avoidance_adjusted_climbrate e) (inertial_nav_get_position e)
    (inertial_nav_get_velocity e) (ahrs_roll_sensor e) (ahrs_pitch_sensor e)
    (ahrs_yaw_sensor e) (wp_nav_set_wp_destination_loc e)
    (wp_nav_get_wp_stopping_point e) (wp_nav_reached_wp_destination e)
    (wp_nav_get_wp_destination e) (wp_nav_origin_and_destination_are_terrain_alt e)
    (wp_nav_update_wpnav e) (wp_nav_get_roll e) (wp_nav_get_pitch e)
    (wp_nav_get_default_speed_xy e) (wp_nav_get_default_speed_down e)
    (wp_nav_get_default_speed_up e) (wp_nav_get_wp_acceleration e)
    (wp_nav_get_accel_z e) (pos_control_is_active_z e)
    (pos_control_get_desired_velocity e) (pos_control_time_since_last_xy_update e)
    (pos_control_get_max_accel_xy e) (pos_control_get_max_accel_z e)
    (pos_control_get_pos_xy_p_kP e) (pos_control_get_roll e) (pos_control_get_pitch e)
    (attitude_control_get_althold_lean_angle_max e) (aparm_angle_max e)
    (get_pilot_speed_dn e) (g_pilot_speed_up e) (g_pilot_accel_z e) (g_throttle_filt e)
    (g2_guided_options e) (Options_IgnorePilotYaw e) (failsafe_radio e)
    (get_pilot_desired_yaw_rate e) (motors_armed e) (motors_get_spool_state e)
    (auto_yaw_default_mode e) (auto_yaw_yaw e) (circle_nav_get_radius e)
    (circle_nav_get_closest_point_on_circle e) (circle_nav_get_angle_total e)
    (circle_nav_get_roll e) (circle_nav_get_pitch e) (circle_nav_get_yaw e)
    (current_loc e) (current_loc_get_alt_cm e) (flightmode_is_mode_guided e).

(** The take-off completes in this environment: wp_nav reports the
    destination reached and the fence accepts it. *)
Definition takeoff_completes (e : Env) : bool :=
  wp_nav_reached_wp_destination e
  && negb (fence_rejects e (Location_from_vector e (wp_nav_get_wp_destination e))).

(** The yaw state [ay] is what the yaw options of an ingestion call ask
    for: a fixed yaw (given in centidegrees, kept in degrees) when
    [use_yaw], else a yaw rate when [use_yaw_rate]. *)
Definition yaw_as_requested (use_yaw : bool) (yaw_cd : float) (use_yaw_rate : bool)
    (yaw_rate_cds : float) (relative_yaw : bool) (ay : AutoYaw) : Prop :=
  (use_yaw = true ->
     AutoYaw.mode ay = AUTO_YAW_FIXED /\
     AutoYaw._fixed_yaw ay = (yaw_cd * 0.01)%R /\
     AutoYaw._fixed_yaw_relative ay = relative_yaw) /\
  (use_yaw = false -> use_yaw_rate = true ->
     AutoYaw.mode ay = AUTO_YAW_RATE /\ AutoYaw.rate_cds ay = yaw_rate_cds).

(** The climb rates handed to
    [pos_control->set_alt_target_from_climb_rate_ff]. *)
Definition climb_rate_commands (cs : list Call) : list float :=
  flat_map (fun c =>
    match c with PosControl_set_alt_target_from_climb_rate_ff c0 _ _ => [c0] | _ => [] end) cs.
(** * Properties *)

(** ** Tools *)

Lemma f_lt_true (a b : float) : f_lt a b = true <-> (a < b)%R.
Proof. unfold f_lt; destruct (Rlt_dec a b); split; intros; try easy. Qed.

Lemma f_lt_false (a b : float) : f_lt a b = false <-> (b <= a)%R.
Proof.
  unfold f_lt; destruct (Rlt_dec a b); split; intros; try easy; lra.
Qed.

Lemma f_le_true (a b : float) : f_le a b = true <-> (a <= b)%R.
Proof. unfold f_le; destruct (Rle_dec a b); split; intros; try easy. Qed.

Lemma f_le_false (a b : float) : f_le a b = false <-> (b < a)%R.
Proof.
  unfold f_le; destruct (Rle_dec a b); split; intros; try easy; lra.
Qed.

Lemma is_zero_true (a : float) : is_zero a = true <-> a = 0%R.
Proof. unfold is_zero; destruct (Req_dec_T a 0); split; intros; easy. Qed.

Lemma is_zero_false (a : float) : is_zero a = false <-> a <> 0%R.
Proof. unfold is_zero; destruct (Req_dec_T a 0); split; intros; easy. Qed.

Lemma is_positive_true (a : float) : is_positive a = true <-> (0 < a)%R.
Proof. apply f_lt_true. Qed.

Lemma is_positive_0 : is_positive 0%R = false.
Proof. apply f_lt_false; lra. Qed.

Lemma GuidedMode_eqb_eq (a b : GuidedMode) : GuidedMode_eqb a b = true <-> a = b.
Proof. destruct a, b; simpl; split; intros; congruence. Qed.

Lemma yaw_mode_eqb_eq (a b : autopilot_yaw_mode) : yaw_mode_eqb a b = true <-> a = b.
Proof. destruct a, b; simpl; split; intros; congruence. Qed.

(** Unfolding of the monad and of the member functions. *)
Ltac unfold_monad :=
  cbv beta iota zeta delta
    [bind ret gets modify call when fst snd
     set_land_complete set_auto_armed auto_yaw_set_mode
     auto_yaw_set_mode_to_default auto_yaw_set_fixed_yaw auto_yaw_set_rate
     is_disarmed_or_landed] in *.

Lemma same_target_store_with_calls (s : State) (c : list Call) :
  same_target_store s (with_calls c s).
Proof. unfold same_target_store; simpl; tauto. Qed.

Lemma yaw_mode_eqb_false (a b : autopilot_yaw_mode) : yaw_mode_eqb a b = false <-> a <> b.
Proof.
  split.
  - intros H Heq; apply yaw_mode_eqb_eq in Heq; congruence.
  - intros H; destruct (yaw_mode_eqb a b) eqn:Hab; [|reflexivity].
    apply yaw_mode_eqb_eq in Hab; contradiction.
Qed.

(** Projections of updated states. *)
Ltac norm_state :=
  cbn [negb andb orb guided_mode guided_pos_target_cm guided_vel_target_cms
       posvel_update_time_ms vel_update_time_ms guided_angle_state guided_limit
       auto_yaw ap_auto_armed ap_land_complete calls
       with_guided_mode with_guided_pos_target_cm with_guided_vel_target_cms
       with_posvel_update_time_ms with_vel_update_time_ms with_guided_angle_state
       with_guided_limit with_auto_yaw with_ap_auto_armed with_ap_land_complete
       with_calls
       AutoYaw.mode AutoYaw._mode AutoYaw.set_mode AutoYaw.set_rate AutoYaw.set_fixed_yaw
       AutoYaw.rate_cds AutoYaw._rate_cds yaw_mode_eqb GuidedMode_eqb] in *.

(** Case analysis on the outermost test of the goal. *)
Ltac case_if :=
  match goal with
  | |- context [if ?b then _ else _] => destruct b eqn:?
  end.

(** ** C1: a destination the fence refuses changes nothing *)

(** C1.  For the three destination setters (set_destination on a vector,
    set_destination on a Location, set_destination_posvel): when the fence
    is compiled in and check_destination_within_fence refuses the
    destination, the call returns false and the sub-mode, the stored
    targets, their timestamps, the angle state and the yaw state are what
    they were before the call.  The only effect is the error written to the
    logger. *)
Theorem C1_fence_rejection_mutates_nothing :
  forall (e : Env) (s : State) (use_yaw : bool) (yaw_cd : float) (use_yaw_rate : bool)
         (yaw_rate_cds : float) (relative_yaw : bool),
    AC_FENCE e = true ->
    (forall destination terrain_alt,
        check_destination_within_fence e (Location_from_vector e destination) = false ->
        let r := set_destination e destination use_yaw yaw_cd use_yaw_rate yaw_rate_cds
                   relative_yaw terrain_alt s in
        fst r = false /\ same_target_store s (snd r) /\
        calls (snd r) = calls s ++ [Logger_Write_Error DEST_OUTSIDE_FENCE]) /\
    (forall dest_loc,
        check_destination_within_fence e dest_loc = false ->
        let r := set_destination_loc e dest_loc use_yaw yaw_cd use_yaw_rate yaw_rate_cds
                   relative_yaw s in
        fst r = false /\ same_target_store s (snd r) /\
        calls (snd r) = calls s ++ [Logger_Write_Error DEST_OUTSIDE_FENCE]) /\
    (forall destination velocity,
        check_destination_within_fence e (Location_from_vector e destination) = false ->
        let r := set_destination_posvel e destination velocity use_yaw yaw_cd use_yaw_rate
                   yaw_rate_cds relative_yaw s in
        fst r = false /\ same_target_store s (snd r) /\
        calls (snd r) = calls s ++ [Logger_Write_Error DEST_OUTSIDE_FENCE]).
Proof.
  intros e s use_yaw yaw_cd use_yaw_rate yaw_rate_cds relative_yaw Hfence.
  repeat split; intros;
    match goal with
    | |- context [set_destination] => unfold set_destination
    | |- context [set_destination_loc] => unfold set_destination_loc
    | |- context [set_destination_posvel] => unfold set_destination_posvel
    end;
    unfold fence_rejects; rewrite Hfence;
    match goal with H : check_destination_within_fence _ _ = false |- _ => rewrite H end;
    simpl; try reflexivity; try apply same_target_store_with_calls.
Qed.

Lemma C1_fence_rejection_witness :
  let e := sample_env 0 true false true false (v3 0 0 0) (v3 0 0 0) 0%R None in
  let s := sample_state Guided_Velocity (v3 100 0 50) yaw_rate_30 false in
  let r := set_destination_posvel e (v3 5000 0 1000) (v3 0 0 0) true 9000%R false 0%R false s in
  fst r = false /\ same_target_store s (snd r).
Proof.
  intros e s r.
  destruct (C1_fence_rejection_mutates_nothing e s true 9000%R false 0%R false eq_refl)
    as (_ & _ & H).
  destruct (H (v3 5000 0 1000) (v3 0 0 0) eq_refl) as (H1 & H2 & _).
  split; assumption.
Defined.

(** ** C2: set_destination on a Location when wp_nav refuses the destination *)

(** The state the waypoint initialiser leaves when it has to run: what
    set_destination does before it hands the destination to wp_nav. *)
Lemma ensure_pos_control_mode (e : Env) (s : State) :
  guided_mode s <> Guided_WP ->
  let s1 := snd (pos_control_start e s) in
  guided_mode s1 = Guided_WP /\
  AutoYaw.mode (auto_yaw s1) = auto_yaw_default_mode e false /\
  calls s1 = calls s ++ [WPNav_wp_and_spline_init;
                         WPNav_set_wp_destination (wp_nav_get_wp_stopping_point e) false].
Proof.
  intros _; unfold pos_control_start; unfold_monad; simpl.
  rewrite <- app_assoc; auto.
Qed.

(** C2, as stated, fails: in Velocity mode with a fixed yaw rate, a
    destination that passes the fence and that wp_nav refuses leaves the
    sub-mode at Guided_WP and the yaw state at the default mode, because
    pos_control_start has run before wp_nav is asked. *)
Lemma C2_counterexample :
  let e := sample_env 0 true true false false (v3 0 0 0) (v3 0 0 0) 0%R None in
  let s := sample_state Guided_Velocity (v3 100 0 0) yaw_rate_30 false in
  let r := set_destination_loc e sample_location false 0%R false 0%R false s in
  check_destination_within_fence e sample_location = true /\
  wp_nav_set_wp_destination_loc e sample_location = false /\
  fst r = false /\
  guided_mode (snd r) <> guided_mode s /\
  auto_yaw (snd r) <> auto_yaw s.
Proof.
  cbn; repeat split; discriminate.
Qed.

(** C2, amended.  When the destination passes the fence and wp_nav's
    set_wp_destination fails, set_destination on a Location returns false
    and changes nothing after the step that ensures position control mode:
    the yaw options of the call are not applied and no target is logged;
    the calls made are wp_nav's set_wp_destination and the logger's error.
    If the sub-mode was Guided_WP already, the sub-mode, the targets and the
    yaw state are those of before the call; if it was not,
    pos_control_start has run: the sub-mode is Guided_WP and the yaw mode
    is the default one. *)
Theorem C2_unreachable_destination :
  forall (e : Env) (s : State) (dest_loc : Location) (use_yaw : bool) (yaw_cd : float)
         (use_yaw_rate : bool) (yaw_rate_cds : float) (relative_yaw : bool),
    fence_rejects e dest_loc = false ->
    wp_nav_set_wp_destination_loc e dest_loc = false ->
    let r := set_destination_loc e dest_loc use_yaw yaw_cd use_yaw_rate yaw_rate_cds
               relative_yaw s in
    let s1 := if GuidedMode_eqb (guided_mode s) Guided_WP then s
              else snd (pos_control_start e s) in
    fst r = false /\
    same_target_store s1 (snd r) /\
    calls (snd r) = calls s1 ++ [WPNav_set_wp_destination_loc dest_loc;
                                 Logger_Write_Error FAILED_TO_SET_DESTINATION] /\
    (guided_mode s = Guided_WP -> same_target_store s (snd r)) /\
    (guided_mode s <> Guided_WP ->
       guided_mode (snd r) = Guided_WP /\
       AutoYaw.mode (auto_yaw (snd r)) = auto_yaw_default_mode e false).
Proof.
  intros e s dest_loc use_yaw yaw_cd use_yaw_rate yaw_rate_cds relative_yaw Hf Hw.
  unfold set_destination_loc. rewrite Hf.
  unfold_monad. rewrite Hw.
  destruct (GuidedMode_eqb (guided_mode s) Guided_WP) eqn:Hm; simpl.
  - apply GuidedMode_eqb_eq in Hm.
    split; [reflexivity|].
    split; [unfold same_target_store; simpl; tauto|].
    split; [rewrite <- app_assoc; reflexivity|].
    split; [intros _; unfold same_target_store; simpl; tauto|].
    intros Hn; contradiction.
  - assert (Hn : guided_mode s <> Guided_WP).
    { intros Heq; apply GuidedMode_eqb_eq in Heq; congruence. }
    unfold pos_control_start; unfold_monad; simpl.
    split; [reflexivity|].
    split; [unfold same_target_store; simpl; tauto|].
    split; [repeat rewrite <- app_assoc; reflexivity|].
    split; [intros Heq; contradiction|].
    intros _; split; reflexivity.
Qed.

Lemma C2_unreachable_destination_witness :
  let e := sample_env 0 true true false false (v3 0 0 0) (v3 0 0 0) 0%R None in
  let s := sample_state Guided_Velocity (v3 100 0 0) yaw_rate_30 false in
  let r := set_destination_loc e sample_location true 9000%R false 0%R false s in
  fst r = false /\ guided_mode (snd r) = Guided_WP /\
  AutoYaw.mode (auto_yaw (snd r)) = AUTO_YAW_LOOK_AT_NEXT_WP.
Proof.
  intros e s r.
  destruct (C2_unreachable_destination e s sample_location true 9000%R false 0%R false
              eq_refl eq_refl) as (H1 & _ & _ & _ & H5).
  split; [exact H1 | apply H5; discriminate].
Defined.

(** ** C3: the velocity driver when the velocity target is stale *)

Section AccelLimit.

Variable e : Env.
Variables cur tgt : Vector3f.

(** The horizontal change of the desired velocity in one tick is at most
    [G_Dt * max_accel_xy]. *)
Lemma accel_limited_velocity_xy_bound :
  let max_xy := (G_Dt e * pos_control_get_max_accel_xy e)%R in
  let v := accel_limited_velocity e cur tgt in
  (0 <= max_xy)%R ->
  (sqrt (sq (Vector3f.x v - Vector3f.x cur) + sq (Vector3f.y v - Vector3f.y cur))
   <= max_xy)%R.
Proof.
  intros max_xy v Hm. subst v max_xy.
  unfold accel_limited_velocity, safe_sqrt, sq, f_gt; simpl.
  set (dx := (Vector3f.x tgt - Vector3f.x cur)%R).
  set (dy := (Vector3f.y tgt - Vector3f.y cur)%R).
  set (m := (G_Dt e * pos_control_get_max_accel_xy e)%R) in *.
  assert (HD : (0 <= dx * dx + dy * dy)%R) by nra.
  pose proof (sqrt_sqrt _ HD) as Hsq.
  pose proof (sqrt_pos (dx * dx + dy * dy)) as Hpos.
  set (d := sqrt (dx * dx + dy * dy)) in *.
  destruct (is_zero d) eqn:Hz; simpl.
  - apply is_zero_true in Hz.
    replace ((Vector3f.x cur + dx * 1 - Vector3f.x cur) * (Vector3f.x cur + dx * 1 - Vector3f.x cur)
             + (Vector3f.y cur + dy * 1 - Vector3f.y cur) * (Vector3f.y cur + dy * 1 - Vector3f.y cur))%R
      with (dx * dx + dy * dy)%R by ring.
    fold d; lra.
  - apply is_zero_false in Hz.
    destruct (f_lt m d) eqn:Hgt.
    + apply f_lt_true in Hgt.
      replace ((Vector3f.x cur + dx * (m / d) - Vector3f.x cur)
               * (Vector3f.x cur + dx * (m / d) - Vector3f.x cur)
               + (Vector3f.y cur + dy * (m / d) - Vector3f.y cur)
                 * (Vector3f.y cur + dy * (m / d) - Vector3f.y cur))%R
        with (m * m)%R.
      * rewrite sqrt_square by exact Hm; lra.
      * transitivity ((dx * dx + dy * dy) * (m * m) / (d * d))%R;
          [rewrite <- Hsq; field; exact Hz | field; exact Hz].
    + apply f_lt_false in Hgt.
      replace ((Vector3f.x cur + dx * 1 - Vector3f.x cur) * (Vector3f.x cur + dx * 1 - Vector3f.x cur)
               + (Vector3f.y cur + dy * 1 - Vector3f.y cur) * (Vector3f.y cur + dy * 1 - Vector3f.y cur))%R
        with (dx * dx + dy * dy)%R by ring.
      fold d; lra.
Qed.

(** The vertical change is at most [G_Dt * max_accel_z]. *)
Lemma accel_limited_velocity_z_bound :
  let max_z := (G_Dt e * pos_control_get_max_accel_z e)%R in
  let v := accel_limited_velocity e cur tgt in
  (0 <= max_z)%R -> (Rabs (Vector3f.z v - Vector3f.z cur) <= max_z)%R.
Proof.
  intros max_z v Hm. subst v max_z.
  unfold accel_limited_velocity, constrain_float, f_gt; simpl.
  set (m := (G_Dt e * pos_control_get_max_accel_z e)%R) in *.
  set (dz := (Vector3f.z tgt - Vector3f.z cur)%R).
  destruct (f_lt dz (- m)%R) eqn:Hlo;
    [apply f_lt_true in Hlo | apply f_lt_false in Hlo;
     destruct (f_lt m dz) eqn:Hhi;
       [apply f_lt_true in Hhi | apply f_lt_false in Hhi]];
    unfold Rabs; destruct (Rcase_abs _); lra.
Qed.

(** No component of the new desired velocity is further from the target
    than the current one was, and none overshoots it. *)
Lemma accel_limited_velocity_towards_target :
  let max_xy := (G_Dt e * pos_control_get_max_accel_xy e)%R in
  let max_z := (G_Dt e * pos_control_get_max_accel_z e)%R in
  let v := accel_limited_velocity e cur tgt in
  (0 <= max_xy)%R -> (0 <= max_z)%R ->
  (Rabs (Vector3f.x v - Vector3f.x tgt) <= Rabs (Vector3f.x cur - Vector3f.x tgt))%R /\
  (Rabs (Vector3f.y v - Vector3f.y tgt) <= Rabs (Vector3f.y cur - Vector3f.y tgt))%R /\
  (Rabs (Vector3f.z v - Vector3f.z tgt) <= Rabs (Vector3f.z cur - Vector3f.z tgt))%R.
Proof.
  intros max_xy max_z v Hxy Hz. subst v max_xy max_z.
  unfold accel_limited_velocity, safe_sqrt, sq, constrain_float, f_gt; simpl.
  set (dx := (Vector3f.x tgt - Vector3f.x cur)%R).
  set (dy := (Vector3f.y tgt - Vector3f.y cur)%R).
  set (dz := (Vector3f.z tgt - Vector3f.z cur)%R).
  set (m := (G_Dt e * pos_control_get_max_accel_xy e)%R) in *.
  set (mz := (G_Dt e * pos_control_get_max_accel_z e)%R) in *.
  pose proof (sqrt_pos (dx * dx + dy * dy)) as Hpos.
  set (d := sqrt (dx * dx + dy * dy)) in *.
  assert (Hr : exists r, (0 <= r <= 1)%R /\
            (if negb (is_zero d) && f_lt m d then (m / d)%R else 1%R) = r).
  { destruct (is_zero d) eqn:Hzd; simpl; [exists 1%R; split; [lra | reflexivity]|].
    apply is_zero_false in Hzd.
    destruct (f_lt m d) eqn:Hgt; [|exists 1%R; split; [lra | reflexivity]].
    apply f_lt_true in Hgt. exists (m / d)%R; split; [|reflexivity].
    assert (Hd : (0 < d)%R) by lra.
    split.
    - apply Rmult_le_pos; [exact Hxy | left; apply Rinv_0_lt_compat; exact Hd].
    - apply (Rmult_le_reg_r d); [exact Hd|].
      unfold Rdiv; rewrite Rmult_assoc, Rinv_l by lra; lra. }
  destruct Hr as (r & Hr01 & ->).
  assert (Hmove : forall c t : R,
             (Rabs (c + (t - c) * r - t) <= Rabs (c - t))%R).
  { intros c t.
    replace (c + (t - c) * r - t)%R with ((1 - r) * (c - t))%R by ring.
    rewrite Rabs_mult, (Rabs_pos_eq (1 - r)) by lra.
    pose proof (Rabs_pos (c - t)); nra. }
  split; [apply Hmove | split; [apply Hmove|]].
  destruct (f_lt dz (- mz)%R) eqn:Hlo;
    [apply f_lt_true in Hlo | apply f_lt_false in Hlo;
     destruct (f_lt mz dz) eqn:Hhi;
       [apply f_lt_true in Hhi | apply f_lt_false in Hhi]];
    subst dz; unfold Rabs;
    repeat match goal with |- context [Rcase_abs ?a] => destruct (Rcase_abs a) end; lra.
Qed.

(** What is left to the target in the horizontal plane after the tick is
    what was left before less [G_Dt * max_accel_xy], or nothing. *)
Lemma accel_limited_velocity_xy_left :
  let max_xy := (G_Dt e * pos_control_get_max_accel_xy e)%R in
  let v := accel_limited_velocity e cur tgt in
  (0 <= max_xy)%R ->
  xy_distance v tgt = Rmax 0 (xy_distance cur tgt - max_xy)%R.
Proof.
  intros max_xy v Hm. subst v max_xy.
  unfold xy_distance, accel_limited_velocity, safe_sqrt, sq, f_gt; simpl.
  set (m := (G_Dt e * pos_control_get_max_accel_xy e)%R) in *.
  set (cx := Vector3f.x cur). set (cy := Vector3f.y cur).
  set (tx := Vector3f.x tgt). set (ty := Vector3f.y tgt).
  unfold float in cx, cy, tx, ty. clearbody cx cy tx ty.
  replace ((cx - tx) * (cx - tx) + (cy - ty) * (cy - ty))%R
    with ((tx - cx) * (tx - cx) + (ty - cy) * (ty - cy))%R by ring.
  assert (HD : (0 <= (tx - cx) * (tx - cx) + (ty - cy) * (ty - cy))%R).
  { pose proof (Rle_0_sqr (tx - cx)); pose proof (Rle_0_sqr (ty - cy)).
    unfold Rsqr in *; lra. }
  pose proof (sqrt_sqrt _ HD) as Hsq.
  pose proof (sqrt_pos ((tx - cx) * (tx - cx) + (ty - cy) * (ty - cy))%R) as Hpos.
  set (d := sqrt ((tx - cx) * (tx - cx) + (ty - cy) * (ty - cy))%R) in *.
  assert (Hreach : (d <= m)%R ->
            sqrt ((cx + (tx - cx) * 1 - tx) * (cx + (tx - cx) * 1 - tx)
                  + (cy + (ty - cy) * 1 - ty) * (cy + (ty - cy) * 1 - ty))%R
            = Rmax 0 (d - m)%R).
  { intros Hle.
    replace ((cx + (tx - cx) * 1 - tx) * (cx + (tx - cx) * 1 - tx)
             + (cy + (ty - cy) * 1 - ty) * (cy + (ty - cy) * 1 - ty))%R
      with 0%R by ring.
    rewrite sqrt_0. unfold Rmax; destruct (Rle_dec 0 (d - m)%R); lra. }
  destruct (is_zero d) eqn:Hz; simpl.
  - apply is_zero_true in Hz. apply Hreach; lra.
  - apply is_zero_false in Hz.
    destruct (f_lt m d) eqn:Hgt.
    + apply f_lt_true in Hgt.
      replace ((cx + (tx - cx) * (m / d) - tx) * (cx + (tx - cx) * (m / d) - tx)
               + (cy + (ty - cy) * (m / d) - ty) * (cy + (ty - cy) * (m / d) - ty))%R
        with ((d - m) * (d - m))%R.
      * rewrite sqrt_square by lra.
        unfold Rmax; destruct (Rle_dec 0 (d - m)%R); lra.
      * transitivity
          (((tx - cx) * (tx - cx) + (ty - cy) * (ty - cy)) * ((d - m) * (d - m)) / (d * d))%R;
          [rewrite <- Hsq; field; exact Hz | field; exact Hz].
    + apply f_lt_false in Hgt. apply Hreach; exact Hgt.
Qed.

(** Along z what is left is what was left before less
    [G_Dt * max_accel_z], or nothing. *)
Lemma accel_limited_velocity_z_left :
  let max_z := (G_Dt e * pos_control_get_max_accel_z e)%R in
  let v := accel_limited_velocity e cur tgt in
  (0 <= max_z)%R ->
  Rabs (Vector3f.z v - Vector3f.z tgt)%R
  = Rmax 0 (Rabs (Vector3f.z cur - Vector3f.z tgt) - max_z)%R.
Proof.
  intros max_z v Hm. subst v max_z.
  unfold accel_limited_velocity, constrain_float, f_gt; simpl.
  set (m := (G_Dt e * pos_control_get_max_accel_z e)%R) in *.
  set (cz := Vector3f.z cur). set (tz := Vector3f.z tgt).
  unfold float in cz, tz. clearbody cz tz.
  destruct (f_lt (tz - cz)%R (- m)%R) eqn:Hlo;
    [apply f_lt_true in Hlo | apply f_lt_false in Hlo;
     destruct (f_lt m (tz - cz)%R) eqn:Hhi;
       [apply f_lt_true in Hhi | apply f_lt_false in Hhi]];
    unfold Rmax, Rabs;
    repeat match goal with
           | |- context [Rcase_abs ?a] => destruct (Rcase_abs a)
           | |- context [Rle_dec ?a ?b] => destruct (Rle_dec a b)
           end; lra.
Qed.

(** The limiter makes a [limited_step]. *)
Lemma accel_limited_velocity_limited_step :
  (0 <= G_Dt e * pos_control_get_max_accel_xy e)%R ->
  (0 <= G_Dt e * pos_control_get_max_accel_z e)%R ->
  limited_step e cur tgt (accel_limited_velocity e cur tgt).
Proof.
  intros Hxy Hz. unfold limited_step.
  split; [apply accel_limited_velocity_xy_bound; exact Hxy|].
  split; [apply accel_limited_velocity_z_bound; exact Hz|].
  split; [apply accel_limited_velocity_xy_left; exact Hxy|].
  split; [apply accel_limited_velocity_z_left; exact Hz|].
  apply accel_limited_velocity_towards_target; assumption.
Qed.

(** A target within one tick's allowance is reached in that tick. *)
Lemma accel_limited_velocity_reaches :
  (xy_distance cur tgt <= G_Dt e * pos_control_get_max_accel_xy e)%R ->
  (Rabs (Vector3f.z cur - Vector3f.z tgt) <= G_Dt e * pos_control_get_max_accel_z e)%R ->
  accel_limited_velocity e cur tgt = tgt.
Proof.
  unfold xy_distance, accel_limited_velocity, safe_sqrt, sq, constrain_float, f_gt.
  destruct cur as [cx cy cz], tgt as [tx ty tz]; simpl.
  unfold float in cx, cy, cz, tx, ty, tz.
  intros Hxy Hz.
  replace ((cx - tx) * (cx - tx) + (cy - ty) * (cy - ty))%R
    with ((tx - cx) * (tx - cx) + (ty - cy) * (ty - cy))%R in Hxy by ring.
  assert (Hr : f_lt (G_Dt e * pos_control_get_max_accel_xy e)%R
                 (sqrt ((tx - cx) * (tx - cx) + (ty - cy) * (ty - cy))%R) = false)
    by (apply f_lt_false; exact Hxy).
  rewrite Hr, andb_false_r.
  assert (Hlo : f_lt (tz - cz)%R (- (G_Dt e * pos_control_get_max_accel_z e))%R = false).
  { apply f_lt_false. unfold Rabs in Hz; destruct (Rcase_abs (cz - tz)%R); lra. }
  assert (Hhi : f_lt (G_Dt e * pos_control_get_max_accel_z e)%R (tz - cz)%R = false).
  { apply f_lt_false. unfold Rabs in Hz; destruct (Rcase_abs (cz - tz)%R); lra. }
  rewrite Hlo, Hhi. f_equal; ring.
Qed.

End AccelLimit.

(** The velocity driver in a tick that does not get past the take-off
    block and the interlock: no velocity is handed to pos_control and the
    yaw rate is the one of before. *)
Lemma vel_control_run_not_past_interlock (e : Env) (s : State) :
  past_interlock e s = false ->
  exists new : list Call,
    calls (snd (vel_control_run e s)) = calls s ++ new /\
    desired_velocity_commands new = [] /\
    AutoYaw.rate_cds (auto_yaw (snd (vel_control_run e s))) = AutoYaw.rate_cds (auto_yaw s).
Proof.
  intros Hpast.
  destruct s as [gm gp gv tpv tv ga gl ay aa lc cs].
  unfold past_interlock in Hpast; cbn in Hpast.
  unfold vel_control_run, process_pilot_yaw_input, initiate_takeoff.
  unfold_monad. norm_state.
  destruct (negb (failsafe_radio e) && use_pilot_yaw e);
    [destruct (is_zero (get_pilot_desired_yaw_rate e))|];
    norm_state;
    destruct (motors_armed e), aa, lc; try discriminate Hpast; norm_state;
    repeat (case_if; norm_state);
    (eexists; split; [repeat rewrite <- app_assoc; cbn [app]; reflexivity
                     | split; reflexivity]).
Qed.

(** The velocity driver past the interlock with a stale target. *)
Lemma vel_control_run_stale (e : Env) (s : State) :
  past_interlock e s = true ->
  GUIDED_POSVEL_TIMEOUT_MS < u32_sub (millis e) (vel_update_time_ms s) ->
  let cur := pos_control_get_desired_velocity e in
  let s' := snd (vel_control_run e s) in
  exists new : list Call,
    calls s' = calls s ++ new /\
    desired_velocity_commands new =
      (if Vector3f.is_zero cur then []
       else [fence_limited_velocity e (accel_limited_velocity e cur Vector3f.zero)]) /\
    (AutoYaw.mode (auto_yaw s') = AUTO_YAW_RATE -> AutoYaw.rate_cds (auto_yaw s') = 0%R) /\
    (AutoYaw.mode (auto_yaw s) = AUTO_YAW_RATE -> pilot_yaw_override e = false ->
     auto_yaw s' = AutoYaw.set_rate 0%R (auto_yaw s)).
Proof.
  intros Hpast Hstale cur s'. subst s'.
  destruct s as [gm gp gv tpv tv ga gl ay aa lc cs].
  unfold past_interlock in Hpast; cbn in Hpast, Hstale.
  destruct (motors_armed e) eqn:Harmed, aa, lc; try discriminate Hpast.
  assert (Hgt : (u32_sub (millis e) tv >? GUIDED_POSVEL_TIMEOUT_MS) = true)
    by (apply Z.gtb_lt; exact Hstale).
  unfold vel_control_run, process_pilot_yaw_input,
    set_desired_velocity_with_accel_and_fence_limits, call_attitude_controller,
    pilot_yaw_override.
  unfold_monad. fold cur. norm_state.
  destruct (negb (failsafe_radio e) && use_pilot_yaw e) eqn:Hpilot;
    [destruct (is_zero (get_pilot_desired_yaw_rate e)) eqn:Hstick|];
    norm_state; rewrite Harmed; norm_state; rewrite Hgt; norm_state;
    destruct (Vector3f.is_zero cur) eqn:Hzero; norm_state;
    destruct ay as [m fy fr rc]; destruct m; norm_state;
    (eexists; split; [repeat rewrite <- app_assoc; cbn [app]; reflexivity|]);
    (split; [reflexivity|]);
    (split; [intros Hm; try reflexivity; try discriminate Hm
            | intros Hm Hp; try reflexivity; try discriminate Hm; try discriminate Hp]).
Qed.

(** The velocity driver past the interlock with a fresh target. *)
Lemma vel_control_run_fresh (e : Env) (s : State) :
  motors_armed e = true -> ap_auto_armed s = true -> ap_land_complete s = false ->
  u32_sub (millis e) (vel_update_time_ms s) <= GUIDED_POSVEL_TIMEOUT_MS ->
  exists new : list Call,
    calls (snd (vel_control_run e s)) = calls s ++ new /\
    desired_velocity_commands new
    = [fence_limited_velocity e
         (accel_limited_velocity e (pos_control_get_desired_velocity e)
            (guided_vel_target_cms s))].
Proof.
  intros Harmed Hauto Hland Hfresh.
  destruct s as [gm gp gv tpv tv ga gl ay aa lc cs]; cbn in Hauto, Hland; subst aa lc.
  norm_state.
  assert (Hgt : (u32_sub (millis e) tv >? GUIDED_POSVEL_TIMEOUT_MS) = false)
    by (rewrite Z.gtb_ltb; apply Z.ltb_ge; exact Hfresh).
  unfold vel_control_run, process_pilot_yaw_input,
    set_desired_velocity_with_accel_and_fence_limits, call_attitude_controller.
  unfold_monad. norm_state.
  destruct (negb (failsafe_radio e) && use_pilot_yaw e);
    [destruct (is_zero (get_pilot_desired_yaw_rate e))|];
    norm_state; rewrite Harmed; norm_state; rewrite Hgt; norm_state;
    repeat (case_if; norm_state);
    (eexists; split; [repeat rewrite <- app_assoc; cbn [app]; reflexivity | reflexivity]).
Qed.

Lemma past_interlock_true (e : Env) (s : State) :
  past_interlock e s = true ->
  motors_armed e = true /\ ap_auto_armed s = true /\ ap_land_complete s = false.
Proof.
  unfold past_interlock.
  destruct (motors_armed e), (ap_auto_armed s), (ap_land_complete s);
    try discriminate; auto.
Qed.

(** C3, as stated, fails in two ways.  (1) A tick that does not get past the
    interlock: disarmed, in Velocity mode with a target 5000 ms old and a
    fixed yaw rate of 3000 cd/s, the tick returns at the interlock (lines
    481-484) before the staleness test (line 491); nothing is handed to
    pos_control, the only call is make_safe_spool_down, and the yaw rate is
    still 3000.  (2) A build with AC_AVOID_ENABLED in which the avoidance
    library answers zero: flying, with the same stale target and a current
    desired velocity of (300,400,0), the velocity handed to pos_control is
    (0,0,0) in one tick, 500 cm/s away, with an allowance
    G_Dt * max_accel_xy of 0.25 cm/s. *)
Lemma C3_counterexample :
  let cur := v3 300 400 0 in
  let s := sample_state Guided_Velocity (v3 100 0 50) yaw_rate_30 false in
  let e1 := sample_env 5000 false true true false (v3 0 0 0) cur 0%R None in
  let e2 := with_avoidance (fun _ _ _ _ => Vector3f.zero)
              (sample_env 5000 true true true false (v3 0 0 0) cur 0%R None) in
  GUIDED_POSVEL_TIMEOUT_MS < u32_sub (millis e1) (vel_update_time_ms s) /\
  GUIDED_POSVEL_TIMEOUT_MS < u32_sub (millis e2) (vel_update_time_ms s) /\
  (calls (snd (vel_control_run e1 s)) = [Mode_make_safe_spool_down] /\
   auto_yaw (snd (vel_control_run e1 s)) = yaw_rate_30 /\
   AutoYaw.rate_cds yaw_rate_30 <> 0%R) /\
  (desired_velocity_commands (calls (snd (vel_control_run e2 s))) = [Vector3f.zero] /\
   xy_distance Vector3f.zero cur = 500%R /\
   (G_Dt e2 * pos_control_get_max_accel_xy e2 < 500)%R).
Proof.
  intros cur s e1 e2.
  split; [reflexivity|]. split; [reflexivity|]. split; [|split; [|split]].
  - split; [reflexivity|]. split; [reflexivity|].
    unfold yaw_rate_30, AutoYaw.rate_cds; simpl; lra.
  - assert (Hnz : Vector3f.is_zero (pos_control_get_desired_velocity e2) = false).
    { unfold Vector3f.is_zero.
      assert (Hx : is_zero (Vector3f.x (pos_control_get_desired_velocity e2)) = false)
        by (apply is_zero_false; simpl; lra).
      rewrite Hx; reflexivity. }
    destruct (vel_control_run_stale e2 s eq_refl eq_refl) as (new & Hcalls & Hv & _).
    rewrite Hcalls. change (calls s ++ new) with new.
    rewrite Hv, Hnz. reflexivity.
  - unfold xy_distance, cur, v3, sq; simpl.
    replace ((0 - 300) * (0 - 300) + (0 - 400) * (0 - 400))%R with (500 * 500)%R by ring.
    apply sqrt_square; lra.
  - simpl; lra.
Qed.

(** C3, amended.  For non-negative per-tick allowances G_Dt * max_accel_xy
    and G_Dt * max_accel_z, in a tick of the velocity driver:
    - when the tick does not get past the take-off block and the interlock
      (not armed, not auto-armed, or landed), nothing is handed to
      pos_control and the yaw rate is the one of before;
    - past the interlock, if more than 3000 ms have passed since the last
      velocity target, the velocity handed over comes from the current
      desired velocity moved towards (0,0,0) by
      set_desired_velocity_with_accel_and_fence_limits (nothing is handed
      over when the desired velocity is zero already), and a yaw state that
      is AUTO_YAW_RATE after the tick has rate 0;
    - past the interlock, otherwise, it comes from the current desired
      velocity moved towards the stored target by the same function;
    - the acceleration limiter of that function makes a limited step
      towards its target: the change is at most G_Dt * max_accel_xy in the
      horizontal plane and G_Dt * max_accel_z along z, and what is left to
      the target is what was left less that allowance, or nothing;
    - without AC_AVOID_ENABLED every velocity handed to pos_control in the
      tick is such a limited step from the current desired velocity towards
      (0,0,0) when the target is stale and towards the stored target when
      it is not; with AC_AVOID_ENABLED the avoidance library adjusts the
      limiter's result before it is handed over. *)
Theorem C3_stale_velocity_decays_through_limiter :
  forall (e : Env) (s : State),
    (0 <= G_Dt e * pos_control_get_max_accel_xy e)%R ->
    (0 <= G_Dt e * pos_control_get_max_accel_z e)%R ->
    let cur := pos_control_get_desired_velocity e in
    let elapsed := u32_sub (millis e) (vel_update_time_ms s) in
    let s' := snd (vel_control_run e s) in
    exists new : list Call,
      calls s' = calls s ++ new /\
      (past_interlock e s = false ->
         desired_velocity_commands new = [] /\
         AutoYaw.rate_cds (auto_yaw s') = AutoYaw.rate_cds (auto_yaw s)) /\
      (past_interlock e s = true -> GUIDED_POSVEL_TIMEOUT_MS < elapsed ->
         desired_velocity_commands new =
           (if Vector3f.is_zero cur then []
            else [fence_limited_velocity e (accel_limited_velocity e cur Vector3f.zero)]) /\
         (AutoYaw.mode (auto_yaw s') = AUTO_YAW_RATE ->
          AutoYaw.rate_cds (auto_yaw s') = 0%R) /\
         (AutoYaw.mode (auto_yaw s) = AUTO_YAW_RATE -> pilot_yaw_override e = false ->
          auto_yaw s' = AutoYaw.set_rate 0%R (auto_yaw s))) /\
      (past_interlock e s = true -> elapsed <= GUIDED_POSVEL_TIMEOUT_MS ->
         desired_velocity_commands new =
           [fence_limited_velocity e (accel_limited_velocity e cur (guided_vel_target_cms s))]) /\
      (forall tgt : Vector3f, limited_step e cur tgt (accel_limited_velocity e cur tgt)) /\
      (AC_AVOID_ENABLED e = false ->
       (forall v : Vector3f, fence_limited_velocity e v = v) /\
       (forall v : Vector3f,
          In v (desired_velocity_commands new) ->
          limited_step e cur
            (if elapsed >? GUIDED_POSVEL_TIMEOUT_MS then Vector3f.zero
             else guided_vel_target_cms s) v)) /\
      (AC_AVOID_ENABLED e = true ->
       forall v : Vector3f,
         let a := avoid_adjust_velocity e (pos_control_get_pos_xy_p_kP e)
                    (pos_control_get_max_accel_xy e) v (G_Dt e) in
         fence_limited_velocity e v
         = Vector3f.mk (Vector3f.x a) (Vector3f.y a)
             (get_avoidance_adjusted_climbrate e (Vector3f.z a))).
Proof.
  intros e s Hxy Hz cur elapsed s'.
  assert (Hadjust : AC_AVOID_ENABLED e = true ->
            forall v : Vector3f,
              let a := avoid_adjust_velocity e (pos_control_get_pos_xy_p_kP e)
                         (pos_control_get_max_accel_xy e) v (G_Dt e) in
              fence_limited_velocity e v
              = Vector3f.mk (Vector3f.x a) (Vector3f.y a)
                  (get_avoidance_adjusted_climbrate e (Vector3f.z a))).
  { intros H v; unfold fence_limited_velocity; rewrite H; reflexivity. }
  assert (Hlimit : forall tgt : Vector3f,
             limited_step e cur tgt (accel_limited_velocity e cur tgt))
    by (intros tgt; apply accel_limited_velocity_limited_step; assumption).
  assert (Havoid : AC_AVOID_ENABLED e = false ->
                   forall v : Vector3f, fence_limited_velocity e v = v).
  { intros H v; unfold fence_limited_velocity; rewrite H; reflexivity. }
  destruct (past_interlock e s) eqn:Hpast.
  - destruct (past_interlock_true e s Hpast) as (Harmed & Hauto & Hland).
    destruct (elapsed >? GUIDED_POSVEL_TIMEOUT_MS) eqn:Hstale.
    + apply Z.gtb_lt in Hstale.
      destruct (vel_control_run_stale e s Hpast Hstale) as (new & Hcalls & Hv & Hrate).
      fold cur in Hv. exists new.
      split; [exact Hcalls|]. split; [discriminate|].
      split; [intros _ _; split; [exact Hv | exact Hrate]|].
      split; [intros _ Hle; exfalso; lia|].
      split; [exact Hlimit|]. split; [|exact Hadjust].
      intros Hoff. split; [exact (Havoid Hoff)|].
      intros v Hin. rewrite Hv in Hin.
      destruct (Vector3f.is_zero cur); [destruct Hin|].
      rewrite (Havoid Hoff) in Hin. destruct Hin as [<- | []]. apply Hlimit.
    + rewrite Z.gtb_ltb in Hstale; apply Z.ltb_ge in Hstale.
      destruct (vel_control_run_fresh e s Harmed Hauto Hland Hstale) as (new & Hcalls & Hv).
      fold cur in Hv. exists new.
      split; [exact Hcalls|]. split; [discriminate|].
      split; [intros _ Hgt; exfalso; unfold elapsed in Hgt; lia|].
      split; [intros _ _; exact Hv|].
      split; [exact Hlimit|]. split; [|exact Hadjust].
      intros Hoff. split; [exact (Havoid Hoff)|].
      intros v Hin. rewrite Hv, (Havoid Hoff) in Hin.
      destruct Hin as [<- | []]. apply Hlimit.
  - destruct (vel_control_run_not_past_interlock e s Hpast) as (new & Hcalls & Hv & Hrate).
    exists new.
    split; [exact Hcalls|]. split; [intros _; split; [exact Hv | exact Hrate]|].
    split; [discriminate|]. split; [discriminate|].
    split; [exact Hlimit|]. split; [|exact Hadjust].
    intros Hoff. split; [exact (Havoid Hoff)|].
    intros v Hin. rewrite Hv in Hin. destruct Hin.
Qed.

Lemma C3_stale_velocity_witness :
  let e := sample_env 5000 true true true false (v3 0 0 0) (v3 300 400 0) 0%R None in
  let s := sample_state Guided_Velocity (v3 100 0 50) yaw_rate_30 false in
  let s' := snd (vel_control_run e s) in
  exists new : list Call,
    calls s' = calls s ++ new /\
    desired_velocity_commands new
      = [accel_limited_velocity e (v3 300 400 0) Vector3f.zero] /\
    auto_yaw s' = AutoYaw.set_rate 0%R yaw_rate_30 /\
    (forall v : Vector3f,
       In v (desired_velocity_commands new) ->
       limited_step e (v3 300 400 0) Vector3f.zero v).
Proof.
  intros e s s'.
  assert (Hxy : (0 <= G_Dt e * pos_control_get_max_accel_xy e)%R) by (simpl; lra).
  assert (Hz : (0 <= G_Dt e * pos_control_get_max_accel_z e)%R) by (simpl; lra).
  destruct (C3_stale_velocity_decays_through_limiter e s Hxy Hz)
    as (new & Hcalls & _ & Hstale & _ & _ & Hoff & _).
  destruct (Hoff eq_refl) as (_ & Hstep).
  destruct (Hstale eq_refl eq_refl) as (Hv & _ & Hrate).
  exists new; split; [exact Hcalls|]; split; [|split].
  - rewrite Hv.
    assert (Hnz : Vector3f.is_zero (pos_control_get_desired_velocity e) = false).
    { unfold Vector3f.is_zero.
      assert (Hx : is_zero (Vector3f.x (pos_control_get_desired_velocity e)) = false)
        by (apply is_zero_false; simpl; lra).
      rewrite Hx; reflexivity. }
    rewrite Hnz; reflexivity.
  - apply Hrate; reflexivity.
  - exact Hstep.
Defined.

(** ** C4: the angle driver when the angle target is stale *)

(** C4.  In a tick of the angle driver more than 1000 ms after the last
    angle target: [use_thrust] is false after the tick, there is no positive
    climb or thrust intent, and the tick either spools down (interlock) or
    commands roll 0 and pitch 0 (with yaw rate 0 when the target asked for a
    yaw rate) and takes the climb-rate path with climb rate 0; thrust is
    never passed through, whatever [use_thrust] and [thrust] were. *)
Theorem C4_stale_angle_target_zeroed :
  forall (e : Env) (s : State),
    GUIDED_ATTITUDE_TIMEOUT_MS < u32_sub (millis e) (update_time_ms (guided_angle_state s)) ->
    let a := guided_angle_state s in
    let s' := snd (angle_control_run e s) in
    use_thrust (guided_angle_state s') = false /\
    positive_thrust_or_climbrate e s = false /\
    calls s' = calls s ++
      (if negb (motors_armed e) || negb (ap_auto_armed s) || ap_land_complete s
       then [Mode_make_safe_spool_down]
       else [Motors_set_desired_spool_state DSS_THROTTLE_UNLIMITED;
             (if use_yaw_rate a
              then Attitude_input_euler_angle_roll_pitch_euler_rate_yaw 0%R 0%R 0%R
              else Attitude_input_euler_angle_roll_pitch_yaw 0%R 0%R
                     (wrap_180_cd e (yaw_cd a)) true);
             PosControl_set_alt_target_from_climb_rate_ff 0%R (G_Dt e) false;
             PosControl_update_z_controller]).
Proof.
  intros e s Hstale a s'. subst s' a.
  apply Z.gtb_lt in Hstale.
  destruct s as [gm gp gv tpv tv ga gl ay aa lc cs].
  destruct ga as [t r p y yr cr th uyr uth].
  unfold positive_thrust_or_climbrate, angle_control_run, initiate_takeoff.
  unfold_monad. norm_state.
  cbn [update_time_ms use_thrust thrust use_yaw_rate yaw_cd roll_cd pitch_cd
       climb_rate_cms yaw_rate_cds] in *.
  rewrite Hstale. norm_state.
  cbn [update_time_ms use_thrust thrust use_yaw_rate yaw_cd roll_cd pitch_cd
       climb_rate_cms yaw_rate_cds] in *.
  rewrite is_positive_0. norm_state.
  rewrite andb_false_r. norm_state. rewrite andb_true_r.
  destruct (motors_armed e), aa, lc, uyr; norm_state;
    repeat rewrite <- app_assoc; cbn [app]; auto.
Qed.

Lemma C4_stale_angle_witness :
  let e := sample_env 2000 true true true false (v3 0 0 0) (v3 0 0 0) 0%R None in
  let s := sample_state Guided_Angle (v3 0 0 0) yaw_hold false in
  let s' := snd (angle_control_run e s) in
  use_thrust (guided_angle_state s) = true /\
  use_thrust (guided_angle_state s') = false /\
  calls s' = [Motors_set_desired_spool_state DSS_THROTTLE_UNLIMITED;
              Attitude_input_euler_angle_roll_pitch_euler_rate_yaw 0%R 0%R 0%R;
              PosControl_set_alt_target_from_climb_rate_ff 0%R (1 / 400)%R false;
              PosControl_update_z_controller].
Proof.
  intros e s s'.
  destruct (C4_stale_angle_target_zeroed e s eq_refl) as (H1 & _ & H3).
  split; [reflexivity | split; [exact H1 | exact H3]].
Defined.

(** ** C5: dead reckoning in the position-velocity driver *)

Lemma position_commands_app (a b : list Call) :
  position_commands (a ++ b) = position_commands a ++ position_commands b.
Proof. apply flat_map_app. Qed.

Lemma Vector3f_add_scale_0 (p v : Vector3f) :
  Vector3f.add p (Vector3f.scale v 0%R) = p.
Proof.
  destruct p, v; unfold Vector3f.add, Vector3f.scale; simpl; f_equal; ring.
Qed.

Lemma Vector3f_add_zero_scale (p : Vector3f) (k : float) :
  Vector3f.add p (Vector3f.scale Vector3f.zero k) = p.
Proof.
  destruct p; unfold Vector3f.add, Vector3f.scale; simpl; f_equal; ring.
Qed.

(** What a tick of the position-velocity driver that gets past the
    interlock does to the position target: the velocity target is zeroed
    first when the target is stale, dt is zeroed when it is 0.2 s or more,
    and the position target advanced by their product is stored and handed
    to pos_control. *)
Lemma posvel_control_run_advances (e : Env) (s : State) :
  motors_armed e = true -> ap_auto_armed s = true -> ap_land_complete s = false ->
  let stale := u32_sub (millis e) (posvel_update_time_ms s) >? GUIDED_POSVEL_TIMEOUT_MS in
  let vel := if stale then Vector3f.zero else guided_vel_target_cms s in
  let dt := if f_ge (pos_control_time_since_last_xy_update e) 0.2%R then 0%R
            else pos_control_time_since_last_xy_update e in
  let pos := Vector3f.add (guided_pos_target_cm s) (Vector3f.scale vel dt) in
  let s' := snd (posvel_control_run e s) in
  guided_pos_target_cm s' = pos /\
  guided_vel_target_cms s' = vel /\
  exists new : list Call, calls s' = calls s ++ new /\ position_commands new = [pos].
Proof.
  intros Harmed Hauto Hland stale vel dt pos s'. subst s' pos vel stale.
  destruct s as [gm gp gv tpv tv ga gl ay aa lc cs]; cbn in Hauto, Hland; subst aa lc.
  unfold posvel_control_run, process_pilot_yaw_input, call_attitude_controller.
  unfold_monad. norm_state. fold dt.
  destruct (negb (failsafe_radio e) && use_pilot_yaw e) eqn:Hpilot;
    [destruct (is_zero (get_pilot_desired_yaw_rate e)) eqn:Hstick|];
    norm_state; rewrite Harmed; norm_state;
    destruct (u32_sub (millis e) tpv >? GUIDED_POSVEL_TIMEOUT_MS) eqn:Hstale;
    norm_state;
    repeat (case_if; norm_state);
    (split; [reflexivity | split; [reflexivity|]]);
    (eexists; split; [repeat rewrite <- app_assoc; cbn [app]; reflexivity | reflexivity]).
Qed.

(** C5, as stated, fails on a stale target: with position target (0,0,0),
    velocity target (100,0,0) last updated 5000 ms ago and dt = 0.1 s, the
    position handed to pos_control is (0,0,0), not (10,0,0): the driver has
    zeroed the velocity target before it advances the position. *)
Lemma C5_counterexample :
  let e := sample_env 5000 true true true false (v3 0 0 0) (v3 0 0 0) (1 / 10)%R None in
  let s := sample_state Guided_PosVel (v3 100 0 0) yaw_hold false in
  let P0 := guided_pos_target_cm s in
  let V := guided_vel_target_cms s in
  let dt := pos_control_time_since_last_xy_update e in
  (dt < 0.2)%R /\
  exists new : list Call,
    calls (snd (posvel_control_run e s)) = calls s ++ new /\
    position_commands new = [P0] /\
    P0 <> Vector3f.add P0 (Vector3f.scale V dt).
Proof.
  intros e s P0 V dt.
  split; [subst dt; simpl; lra|].
  destruct (posvel_control_run_advances e s eq_refl eq_refl eq_refl)
    as (_ & _ & new & Hcalls & Hpos).
  exists new; split; [exact Hcalls | split].
  - rewrite Hpos.
    replace (u32_sub (millis e) (posvel_update_time_ms s) >? GUIDED_POSVEL_TIMEOUT_MS)
      with true by reflexivity.
    rewrite Vector3f_add_zero_scale; reflexivity.
  - subst P0 V dt; unfold Vector3f.add, Vector3f.scale; simpl.
    intros Heq; inversion Heq as [Hx]; lra.
Qed.

(** C5, amended.  In a tick of the position-velocity driver that gets past
    the interlock, with stored position target P0, velocity target V and
    pos_control's time since the last xy update dt:
    - if the target is fresh (at most 3000 ms old) and dt < 0.2 s, the
      position handed to pos_control is P0 + V * dt, and it is stored;
    - if dt >= 0.2 s, the position handed over and stored is P0;
    - if the target is stale, the velocity target is zeroed first and the
      position handed over and stored is P0. *)
Theorem C5_posvel_dead_reckoning :
  forall (e : Env) (s : State),
    motors_armed e = true -> ap_auto_armed s = true -> ap_land_complete s = false ->
    let P0 := guided_pos_target_cm s in
    let V := guided_vel_target_cms s in
    let dt := pos_control_time_since_last_xy_update e in
    let elapsed := u32_sub (millis e) (posvel_update_time_ms s) in
    let s' := snd (posvel_control_run e s) in
    exists new : list Call,
      calls s' = calls s ++ new /\
      (elapsed <= GUIDED_POSVEL_TIMEOUT_MS -> (dt < 0.2)%R ->
         position_commands new = [Vector3f.add P0 (Vector3f.scale V dt)] /\
         guided_pos_target_cm s' = Vector3f.add P0 (Vector3f.scale V dt)) /\
      ((0.2 <= dt)%R ->
         position_commands new = [P0] /\ guided_pos_target_cm s' = P0) /\
      (GUIDED_POSVEL_TIMEOUT_MS < elapsed ->
         position_commands new = [P0] /\ guided_pos_target_cm s' = P0 /\
         guided_vel_target_cms s' = Vector3f.zero).
Proof.
  intros e s Harmed Hauto Hland P0 V dt elapsed s'.
  destruct (posvel_control_run_advances e s Harmed Hauto Hland)
    as (Hstored & Hvel & new & Hcalls & Hpos).
  fold P0 V dt elapsed s' in Hstored, Hvel, Hcalls, Hpos.
  exists new; split; [exact Hcalls|].
  rewrite Hpos, Hstored, Hvel.
  split; [|split].
  - intros Hfresh Hdt.
    replace (elapsed >? GUIDED_POSVEL_TIMEOUT_MS) with false
      by (symmetry; rewrite Z.gtb_ltb; apply Z.ltb_ge; exact Hfresh).
    replace (f_ge dt 0.2%R) with false
      by (symmetry; apply f_le_false; exact Hdt).
    split; reflexivity.
  - intros Hdt.
    replace (f_ge dt 0.2%R) with true
      by (symmetry; apply f_le_true; exact Hdt).
    rewrite Vector3f_add_scale_0; split; reflexivity.
  - intros Hstale.
    replace (elapsed >? GUIDED_POSVEL_TIMEOUT_MS) with true
      by (symmetry; apply Z.gtb_lt; exact Hstale).
    rewrite Vector3f_add_zero_scale; repeat split; reflexivity.
Qed.

Lemma C5_posvel_dead_reckoning_witness :
  let e := sample_env 1000 true true true false (v3 0 0 0) (v3 0 0 0) (1 / 10)%R None in
  let s := sample_state Guided_PosVel (v3 100 0 0) yaw_hold false in
  guided_pos_target_cm (snd (posvel_control_run e s))
  = Vector3f.add (v3 0 0 0) (Vector3f.scale (v3 100 0 0) (1 / 10)%R).
Proof.
  intros e s.
  destruct (C5_posvel_dead_reckoning e s eq_refl eq_refl eq_refl)
    as (new & _ & Hfresh & _).
  apply Hfresh; [discriminate | simpl; lra].
Defined.

(** ** C6: limit_check *)

(** C6.  limit_check returns true exactly when one of the four limits is
    breached: the timeout is positive and the time elapsed since
    [start_time] has reached it; [alt_min_cm] is nonzero and the altitude is
    below it; [alt_max_cm] is nonzero and the altitude is above it;
    [horiz_max_cm] is positive and the horizontal distance from [start_pos]
    exceeds it.  The state after the call is the state before it, and with
    the four thresholds at 0 the answer is false whatever the time and the
    position. *)
Theorem C6_limit_check :
  forall (e : Env) (s : State),
    let l := guided_limit s in
    let elapsed := u32_sub (millis e) (start_time l) in
    let curr_pos := inertial_nav_get_position e in
    (fst (limit_check e s) = true <->
       (0 < timeout_ms l /\ timeout_ms l <= elapsed) \/
       (alt_min_cm l <> 0%R /\ (Vector3f.z curr_pos < alt_min_cm l)%R) \/
       (alt_max_cm l <> 0%R /\ (alt_max_cm l < Vector3f.z curr_pos)%R) \/
       ((0 < horiz_max_cm l)%R /\
        (horiz_max_cm l < get_horizontal_distance_cm (start_pos l) curr_pos)%R)) /\
    snd (limit_check e s) = s /\
    (timeout_ms l = 0 /\ alt_min_cm l = 0%R /\ alt_max_cm l = 0%R /\ horiz_max_cm l = 0%R ->
     fst (limit_check e s) = false).
Proof.
  intros e s l elapsed curr_pos.
  unfold limit_check; unfold_monad.
  fold l; fold elapsed; fold curr_pos.
  unfold f_gt.
  destruct (timeout_ms l >? 0) eqn:Ht;
    [apply Z.gtb_lt in Ht | rewrite Z.gtb_ltb in Ht; apply Z.ltb_ge in Ht];
  (destruct (elapsed >=? timeout_ms l) eqn:He;
    [apply Z.geb_le in He | rewrite Z.geb_leb in He; apply Z.leb_gt in He]);
  (destruct (is_zero (alt_min_cm l)) eqn:Hmin;
    [apply is_zero_true in Hmin | apply is_zero_false in Hmin]);
  (destruct (f_lt (Vector3f.z curr_pos) (alt_min_cm l)) eqn:Hlo;
    [apply f_lt_true in Hlo | apply f_lt_false in Hlo]);
  (destruct (is_zero (alt_max_cm l)) eqn:Hmax;
    [apply is_zero_true in Hmax | apply is_zero_false in Hmax]);
  (destruct (f_lt (alt_max_cm l) (Vector3f.z curr_pos)) eqn:Hhi;
    [apply f_lt_true in Hhi | apply f_lt_false in Hhi]);
  (destruct (f_lt 0%R (horiz_max_cm l)) eqn:Hh;
    [apply f_lt_true in Hh | apply f_lt_false in Hh]);
  (destruct (f_lt (horiz_max_cm l) (get_horizontal_distance_cm (start_pos l) curr_pos)) eqn:Hd;
    [apply f_lt_true in Hd | apply f_lt_false in Hd]);
  simpl;
  (split; [split; [intros Hr; try discriminate Hr; tauto
                  | intros [[? ?]|[[? ?]|[[? ?]|[? ?]]]];
                    try reflexivity; try (exfalso; lia); exfalso; lra]
          | split; [reflexivity
                   | intros (H1 & H2 & H3 & H4); try reflexivity;
                     try (exfalso; lia); exfalso; lra]]).
Qed.

(** The examples of the spec: a timeout of 5000 ms is breached 5001 ms
    after the start; a floor of 100 cm is breached at 99 cm. *)
Example limit_check_timeout_5001 :
  let e := sample_env 6001 true true true false (v3 0 0 0) (v3 0 0 0) 0%R None in
  let s := with_guided_limit (mkLimit 5000 0%R 0%R 0%R 1000 (v3 0 0 0))
             (sample_state Guided_WP (v3 0 0 0) yaw_hold false) in
  fst (limit_check e s) = true.
Proof. reflexivity. Qed.

Lemma C6_limit_check_witness :
  let e := sample_env 0 true true true false (v3 0 0 99) (v3 0 0 0) 0%R None in
  let s := with_guided_limit (mkLimit 0 100%R 0%R 0%R 0 (v3 0 0 0))
             (sample_state Guided_WP (v3 0 0 0) yaw_hold false) in
  fst (limit_check e s) = true.
Proof.
  apply C6_limit_check; right; left; simpl; split; lra.
Defined.

(** ** C7: from the edge of the circle to the circle *)

Lemma pos_control_run_keeps_mode (e : Env) (s : State) :
  guided_mode (snd (pos_control_run e s)) = guided_mode s.
Proof.
  destruct s as [gm gp gv tpv tv ga gl ay aa lc cs].
  unfold pos_control_run, process_pilot_yaw_input, call_attitude_controller.
  unfold_monad. norm_state.
  repeat (case_if; norm_state); reflexivity.
Qed.

Lemma circle_run_keeps_mode (e : Env) (s : State) :
  guided_mode (snd (circle_run e s)) = guided_mode s.
Proof.
  unfold circle_run; unfold_monad; norm_state.
  case_if; reflexivity.
Qed.

Lemma run_dispatch (e : Env) (s : State) :
  run e s = match guided_mode s with
            | Guided_TakeOff => takeoff_run e s
            | Guided_WP | Guided_CircleMoveToEdge => pos_control_run e s
            | Guided_Velocity => vel_control_run e s
            | Guided_PosVel => posvel_control_run e s
            | Guided_Angle => angle_control_run e s
            | Guided_Circle => circle_run e s
            end.
Proof. unfold run, bind, gets; destruct (guided_mode s); reflexivity. Qed.

Lemma tick_in_circle (t : Tick) (s : State) :
  guided_mode s = Guided_Circle -> guided_mode (tick t s) = Guided_Circle.
Proof.
  intros Hm; destruct t as [e | e cmd]; unfold tick.
  - rewrite run_dispatch, Hm, circle_run_keeps_mode; exact Hm.
  - unfold verify_circle; unfold_monad; rewrite Hm; exact Hm.
Qed.

Lemma tick_before_edge (t : Tick) (s : State) :
  guided_mode s = Guided_CircleMoveToEdge ->
  reports_reached t && resolves_center t = false ->
  guided_mode (tick t s) = Guided_CircleMoveToEdge.
Proof.
  intros Hm Hno; destruct t as [e | e cmd]; unfold tick.
  - rewrite run_dispatch, Hm, pos_control_run_keeps_mode; exact Hm.
  - unfold reports_reached, resolves_center in Hno.
    unfold verify_circle; unfold_monad; rewrite Hm; cbn [GuidedMode_eqb].
    destruct (wp_nav_reached_wp_destination e); [|exact Hm].
    destruct (get_vector_from_origin_NEU e (Mission_Command.content_location cmd));
      [discriminate Hno | exact Hm].
Qed.

Lemma tick_at_edge (t : Tick) (s : State) :
  guided_mode s = Guided_CircleMoveToEdge ->
  reports_reached t = true -> resolves_center t = true ->
  guided_mode (tick t s) = Guided_Circle.
Proof.
  intros Hm Hr Hc; destruct t as [e | e cmd]; [discriminate Hr|].
  unfold reports_reached in Hr; unfold resolves_center in Hc.
  unfold tick, verify_circle, circle_start; unfold_monad.
  rewrite Hm, Hr; cbn [GuidedMode_eqb].
  destruct (get_vector_from_origin_NEU e (Mission_Command.content_location cmd));
    [|discriminate Hc].
  norm_state; case_if; reflexivity.
Qed.

Lemma mode_trace_in_circle (ts : list Tick) :
  forall s : State,
    guided_mode s = Guided_Circle ->
    mode_trace ts s = repeat Guided_Circle (length ts).
Proof.
  induction ts as [|t ts IH]; intros s Hm; [reflexivity|].
  cbn [mode_trace length repeat].
  rewrite (tick_in_circle t s Hm), (IH (tick t s) (tick_in_circle t s Hm)); reflexivity.
Qed.

Lemma mode_trace_before_edge (ts : list Tick) :
  forall s : State,
    guided_mode s = Guided_CircleMoveToEdge ->
    forallb (fun t => negb (reports_reached t && resolves_center t)) ts = true ->
    mode_trace ts s = repeat Guided_CircleMoveToEdge (length ts) /\
    guided_mode (run_ticks ts s) = Guided_CircleMoveToEdge.
Proof.
  induction ts as [|t ts IH]; intros s Hm Hall; [split; [reflexivity | exact Hm]|].
  cbn [forallb] in Hall; apply andb_true_iff in Hall; destruct Hall as [Ht Hts].
  apply negb_true_iff in Ht.
  pose proof (tick_before_edge t s Hm Ht) as Hm'.
  destruct (IH (tick t s) Hm' Hts) as [IH1 IH2].
  cbn [mode_trace length repeat run_ticks fold_left].
  rewrite Hm', IH1; split; [reflexivity | exact IH2].
Qed.

Lemma mode_trace_app (a b : list Tick) :
  forall s : State,
    mode_trace (a ++ b) s = mode_trace a s ++ mode_trace b (run_ticks a s).
Proof.
  induction a as [|t a IH]; intros s; [reflexivity|].
  cbn [app mode_trace run_ticks fold_left]; rewrite IH; reflexivity.
Qed.

Lemma circle_movetoedge_start_mode (e : Env) (s : State) (circle_center : Location)
    (radius_m : float) :
  guided_mode (snd (circle_movetoedge_start e circle_center radius_m s))
  = if f_gt (circle_dist_to_edge e circle_center radius_m) 300%R
    then Guided_CircleMoveToEdge else Guided_Circle.
Proof.
  unfold circle_movetoedge_start, circle_dist_to_edge, circle_start.
  unfold_monad. norm_state.
  destruct (get_vector_from_origin_NEU e circle_center); norm_state;
    destruct (is_zero radius_m); norm_state;
    repeat (case_if; norm_state); reflexivity.
Qed.

Lemma Vector3f_length_gt (v : Vector3f) (k : float) :
  (0 <= k)%R ->
  (k * k < sq (Vector3f.x v) + sq (Vector3f.y v) + sq (Vector3f.z v))%R ->
  (k < Vector3f.length v)%R.
Proof.
  intros Hk Hlt. unfold Vector3f.length.
  rewrite <- (sqrt_square k Hk).
  apply sqrt_lt_1_alt; split; [nra | exact Hlt].
Qed.

(** C7, as stated, fails.  A loiter-turns command whose location does not
    resolve to a vector from the origin: circle_movetoedge_start falls back
    to the current position as the centre and, 1000 cm from the edge, enters
    Guided_CircleMoveToEdge.  At the verify_circle tick at which wp_nav
    reports the destination reached, verify_circle returns true ("should
    never happen" in the source) without calling circle_start, and the
    sub-mode stays Guided_CircleMoveToEdge. *)
Lemma C7_counterexample :
  let e0 := sample_env 0 true true true false (v3 0 0 0) (v3 0 0 0) 0%R None in
  let e1 := sample_env 100 true true true true (v3 1000 0 0) (v3 0 0 0) 0%R None in
  let s0 := sample_state Guided_WP (v3 0 0 0) yaw_hold false in
  let s := snd (do_circle e0 loiter_turns_cmd s0) in
  let t := Tick_verify_circle e1 loiter_turns_cmd in
  guided_mode s = Guided_CircleMoveToEdge /\
  reports_reached t = true /\
  fst (verify_circle e1 loiter_turns_cmd s) = true /\
  mode_trace [t] s = [Guided_CircleMoveToEdge].
Proof.
  intros e0 e1 s0 s t.
  assert (Hm : guided_mode s = Guided_CircleMoveToEdge).
  { assert (Hr : IZR (HIGHBYTE (Mission_Command.p1 loiter_turns_cmd)) = 10%R)
      by reflexivity.
    assert (Hz : is_zero 10%R = false) by (apply is_zero_false; lra).
    subst s; unfold do_circle; rewrite circle_movetoedge_start_mode, Hr.
    replace (f_gt _ 300%R) with true; [reflexivity|].
    symmetry; apply f_lt_true.
    unfold circle_dist_to_edge; rewrite Hz.
    apply Vector3f_length_gt; [lra|].
    unfold sq; simpl; lra. }
  split; [exact Hm|]. split; [reflexivity|]. split.
  - unfold verify_circle, bind, gets; rewrite Hm; reflexivity.
  - cbn [mode_trace]; f_equal.
    apply tick_before_edge; [exact Hm | reflexivity].
Qed.

(** verify_circle in Guided_CircleMoveToEdge: its answer, and what it
    leaves of the state. *)
Lemma verify_circle_on_the_way (e : Env) (cmd : Mission_Command) (s : State) :
  guided_mode s = Guided_CircleMoveToEdge ->
  let t := Tick_verify_circle e cmd in
  fst (verify_circle e cmd s) = reports_reached t && negb (resolves_center t) /\
  (reports_reached t && resolves_center t = false -> snd (verify_circle e cmd s) = s).
Proof.
  intros Hm t. unfold t, reports_reached, resolves_center.
  unfold verify_circle, circle_start; unfold_monad. rewrite Hm; cbn [GuidedMode_eqb].
  destruct (wp_nav_reached_wp_destination e); [|split; reflexivity].
  destruct (get_vector_from_origin_NEU e (Mission_Command.content_location cmd));
    [|split; reflexivity].
  split; [|discriminate].
  norm_state; case_if; reflexivity.
Qed.

(** C7, amended.  circle_movetoedge_start leaves the sub-mode at
    Guided_CircleMoveToEdge when the distance to the closest point of the
    circle is more than 300 cm, and at Guided_Circle (through circle_start)
    otherwise.  From Guided_CircleMoveToEdge, over any sequence of driver and
    verify_circle ticks, the sub-mode stays Guided_CircleMoveToEdge up to the
    first verify_circle tick at which wp_nav reports the destination reached
    and the command's location resolves to a vector from the origin; at that
    tick it becomes Guided_Circle, and it stays Guided_Circle afterwards:
    one transition, and none before.  In Guided_CircleMoveToEdge
    verify_circle reports the command complete exactly when the destination
    is reached and the location does not resolve, and at every
    verify_circle tick other than the transition the state is left as it
    is, so at such a tick the sub-mode stays Guided_CircleMoveToEdge. *)
Theorem C7_circle_edge_then_circle :
  forall (e0 : Env) (s0 : State) (circle_center : Location) (radius_m : float),
    let s := snd (circle_movetoedge_start e0 circle_center radius_m s0) in
    let dist_to_edge := circle_dist_to_edge e0 circle_center radius_m in
    ((dist_to_edge <= 300)%R -> guided_mode s = Guided_Circle) /\
    ((300 < dist_to_edge)%R ->
       guided_mode s = Guided_CircleMoveToEdge /\
       (forall (before : list Tick) (t : Tick) (after : list Tick),
          forallb (fun t => negb (reports_reached t && resolves_center t)) before = true ->
          reports_reached t = true -> resolves_center t = true ->
          mode_trace (before ++ t :: after) s
          = repeat Guided_CircleMoveToEdge (length before)
            ++ repeat Guided_Circle (S (length after))) /\
       (forall (before : list Tick) (e : Env) (cmd : Mission_Command),
          forallb (fun t => negb (reports_reached t && resolves_center t)) before = true ->
          let s1 := run_ticks before s in
          let t := Tick_verify_circle e cmd in
          guided_mode s1 = Guided_CircleMoveToEdge /\
          fst (verify_circle e cmd s1) = reports_reached t && negb (resolves_center t) /\
          (reports_reached t && resolves_center t = false -> tick t s1 = s1))).
Proof.
  intros e0 s0 circle_center radius_m s dist_to_edge.
  pose proof (circle_movetoedge_start_mode e0 s0 circle_center radius_m) as Hstart.
  fold s dist_to_edge in Hstart.
  split.
  - intros Hle. rewrite Hstart.
    replace (f_gt dist_to_edge 300%R) with false; [reflexivity|].
    symmetry; apply f_lt_false; exact Hle.
  - intros Hgt.
    assert (Hm : guided_mode s = Guided_CircleMoveToEdge).
    { rewrite Hstart.
      replace (f_gt dist_to_edge 300%R) with true; [reflexivity|].
      symmetry; apply f_lt_true; exact Hgt. }
    split; [exact Hm|]. split.
    + intros before t after Hbefore Hr Hc.
      destruct (mode_trace_before_edge before s Hm Hbefore) as [Htrace Hedge].
      rewrite mode_trace_app, Htrace; f_equal.
      pose proof (tick_at_edge t (run_ticks before s) Hedge Hr Hc) as Hcircle.
      cbn [mode_trace repeat]; rewrite Hcircle; f_equal.
      apply mode_trace_in_circle; exact Hcircle.
    + intros before e cmd Hbefore s1 t.
      destruct (mode_trace_before_edge before s Hm Hbefore) as [_ Hedge].
      fold s1 in Hedge.
      split; [exact Hedge|].
      exact (verify_circle_on_the_way e cmd s1 Hedge).
Qed.

Lemma C7_circle_edge_witness :
  let e0 := sample_env 0 true true true false (v3 0 0 0) (v3 0 0 0) 0%R
              (Some (v3 1000 0 0)) in
  let e1 := sample_env 100 true true true true (v3 1000 0 0) (v3 0 0 0) 0%R
              (Some (v3 1000 0 0)) in
  let e2 := sample_env 100 true true true true (v3 1000 0 0) (v3 0 0 0) 0%R None in
  let s0 := sample_state Guided_WP (v3 0 0 0) yaw_hold false in
  let s := snd (circle_movetoedge_start e0 sample_location 10%R s0) in
  mode_trace [Tick_run e0; Tick_verify_circle e0 loiter_turns_cmd;
              Tick_verify_circle e1 loiter_turns_cmd; Tick_run e1;
              Tick_verify_circle e1 loiter_turns_cmd] s
  = [Guided_CircleMoveToEdge; Guided_CircleMoveToEdge;
     Guided_Circle; Guided_Circle; Guided_Circle] /\
  fst (verify_circle e2 loiter_turns_cmd (run_ticks [Tick_run e0] s)) = true.
Proof.
  intros e0 e1 e2 s0 s.
  destruct (C7_circle_edge_then_circle e0 s0 sample_location 10%R) as [_ Hfar].
  destruct Hfar as (_ & Htrace & Hanswer).
  - assert (Hz : is_zero 10%R = false) by (apply is_zero_false; lra).
    unfold circle_dist_to_edge; rewrite Hz.
    apply Vector3f_length_gt; [lra|].
    unfold sq; simpl; lra.
  - split.
    + apply (Htrace [Tick_run e0; Tick_verify_circle e0 loiter_turns_cmd]
               (Tick_verify_circle e1 loiter_turns_cmd)
               [Tick_run e1; Tick_verify_circle e1 loiter_turns_cmd]); reflexivity.
    + destruct (Hanswer [Tick_run e0] e2 loiter_turns_cmd eq_refl) as (_ & Hfst & _).
      exact Hfst.
Defined.

(** ** C8: the arming interlock of the drivers *)

Ltac norm_angle :=
  cbn [update_time_ms use_thrust thrust use_yaw_rate yaw_cd roll_cd pitch_cd
       climb_rate_cms yaw_rate_cds] in *.





(** ** C9: ingestion does not re-initialise the active sub-mode *)

(** Each initialiser makes a call that marks it. *)
Lemma initialisers_make_initializer_calls (e : Env) (s : State) :
  (exists l, calls (snd (pos_control_start e s)) = calls s ++ WPNav_wp_and_spline_init :: l) /\
  (exists l, calls (snd (vel_control_start e s))
             = calls s ++ PosControl_set_max_speed_xy (wp_nav_get_default_speed_xy e) :: l) /\
  (exists l, calls (snd (posvel_control_start e s))
             = calls s ++ PosControl_init_xy_controller :: l) /\
  (exists l, calls (snd (angle_control_start e s))
             = calls s ++ PosControl_set_max_speed_z (wp_nav_get_default_speed_down e)
                            (wp_nav_get_default_speed_up e) :: l).
Proof.
  unfold pos_control_start, vel_control_start, posvel_control_start, angle_control_start.
  unfold_monad. norm_state.
  repeat split.
  - eexists; repeat rewrite <- app_assoc; cbn [app]; reflexivity.
  - eexists; repeat rewrite <- app_assoc; cbn [app]; reflexivity.
  - eexists; repeat rewrite <- app_assoc; cbn [app]; reflexivity.
  - destruct (pos_control_is_active_z e); norm_state;
      eexists; repeat rewrite <- app_assoc; cbn [app]; reflexivity.
Qed.

(** C9.  Each ingestion call made while its own sub-mode is active leaves
    the sub-mode as it is and makes none of the initialisers' calls, whatever
    the fence and wp_nav answer.  In particular set_destination in Guided_WP
    with use_yaw = false and use_yaw_rate = false (either overload) leaves
    the yaw state as it was, and set_angle in Guided_Angle does not touch the
    yaw state. *)
Theorem C9_ingestion_keeps_active_mode :
  forall (e : Env) (s : State) (use_yaw : bool) (yaw_cd : float) (use_yaw_rate : bool)
         (yaw_rate_cds : float) (relative_yaw : bool),
    (guided_mode s = Guided_WP ->
     forall destination terrain_alt,
       let s' := snd (set_destination e destination use_yaw yaw_cd use_yaw_rate
                        yaw_rate_cds relative_yaw terrain_alt s) in
       guided_mode s' = Guided_WP /\
       exists new, calls s' = calls s ++ new /\ no_initializer_call new) /\
    (guided_mode s = Guided_WP ->
     forall dest_loc,
       let s' := snd (set_destination_loc e dest_loc use_yaw yaw_cd use_yaw_rate
                        yaw_rate_cds relative_yaw s) in
       guided_mode s' = Guided_WP /\
       exists new, calls s' = calls s ++ new /\ no_initializer_call new) /\
    (guided_mode s = Guided_Velocity ->
     forall velocity log_request,
       let s' := snd (set_velocity e velocity use_yaw yaw_cd use_yaw_rate
                        yaw_rate_cds relative_yaw log_request s) in
       guided_mode s' = Guided_Velocity /\
       exists new, calls s' = calls s ++ new /\ no_initializer_call new) /\
    (guided_mode s = Guided_PosVel ->
     forall destination velocity,
       let s' := snd (set_destination_posvel e destination velocity use_yaw yaw_cd
                        use_yaw_rate yaw_rate_cds relative_yaw s) in
       guided_mode s' = Guided_PosVel /\
       exists new, calls s' = calls s ++ new /\ no_initializer_call new) /\
    (guided_mode s = Guided_Angle ->
     forall q climb_rate_cms_or_thrust yaw_rate_rads use_thrust,
       let s' := snd (set_angle e q climb_rate_cms_or_thrust use_yaw_rate yaw_rate_rads
                        use_thrust s) in
       guided_mode s' = Guided_Angle /\ auto_yaw s' = auto_yaw s /\
       exists new, calls s' = calls s ++ new /\ no_initializer_call new) /\
    (guided_mode s = Guided_WP ->
     forall destination terrain_alt,
       auto_yaw (snd (set_destination e destination false yaw_cd false yaw_rate_cds
                        relative_yaw terrain_alt s)) = auto_yaw s) /\
    (guided_mode s = Guided_WP ->
     forall dest_loc,
       auto_yaw (snd (set_destination_loc e dest_loc false yaw_cd false yaw_rate_cds
                        relative_yaw s)) = auto_yaw s).
Proof.
  intros e s use_yaw yaw_cd use_yaw_rate yaw_rate_cds relative_yaw.
  destruct s as [gm gp gv tpv tv ga gl ay aa lc cs]; norm_state.
  assert (Hnil : forall l : list Call, l = l ++ []) by (intros; rewrite app_nil_r; reflexivity).
  split; [|split; [|split; [|split; [|split; [|split]]]]]; intros ->.
  - intros destination terrain_alt.
    unfold set_destination, set_yaw_state; unfold_monad; norm_state.
    destruct (fence_rejects e (Location_from_vector e destination)), use_yaw, use_yaw_rate;
      norm_state; (split; [reflexivity|]);
      (eexists; split; [repeat rewrite <- app_assoc; cbn [app]; reflexivity | reflexivity]).
  - intros dest_loc.
    unfold set_destination_loc, set_yaw_state; unfold_monad; norm_state.
    destruct (fence_rejects e dest_loc), (wp_nav_set_wp_destination_loc e dest_loc),
      use_yaw, use_yaw_rate;
      norm_state; (split; [reflexivity|]);
      (eexists; split; [repeat rewrite <- app_assoc; cbn [app]; reflexivity | reflexivity]).
  - intros velocity log_request.
    unfold set_velocity, set_yaw_state; unfold_monad; norm_state.
    destruct use_yaw, use_yaw_rate, log_request;
      norm_state; (split; [reflexivity|]);
      (eexists; split; [first [apply Hnil | reflexivity] | reflexivity]).
  - intros destination velocity.
    unfold set_destination_posvel, set_yaw_state; unfold_monad; norm_state.
    destruct (fence_rejects e (Location_from_vector e destination)), use_yaw, use_yaw_rate;
      norm_state; (split; [reflexivity|]);
      (eexists; split; [repeat rewrite <- app_assoc; cbn [app]; reflexivity | reflexivity]).
  - intros q climb_rate_cms_or_thrust yaw_rate_rads use_thrust0.
    unfold set_angle; unfold_monad; norm_state.
    destruct (to_euler e q) as [[roll pitch] yaw]; norm_state.
    split; [reflexivity | split; [reflexivity|]].
    eexists; split; [reflexivity | reflexivity].
  - intros destination terrain_alt.
    unfold set_destination, set_yaw_state; unfold_monad; norm_state.
    destruct (fence_rejects e (Location_from_vector e destination)); reflexivity.
  - intros dest_loc.
    unfold set_destination_loc, set_yaw_state; unfold_monad; norm_state.
    destruct (fence_rejects e dest_loc), (wp_nav_set_wp_destination_loc e dest_loc);
      reflexivity.
Qed.

Lemma C9_ingestion_witness :
  let e := sample_env 0 true true true false (v3 0 0 0) (v3 0 0 0) 0%R None in
  let s := sample_state Guided_WP (v3 0 0 0) yaw_rate_30 false in
  auto_yaw (snd (set_destination e (v3 1000 0 500) false 0%R false 0%R false false s))
  = yaw_rate_30.
Proof.
  intros e s.
  destruct (C9_ingestion_keeps_active_mode e s false 0%R false 0%R false)
    as (_ & _ & _ & _ & _ & H & _).
  apply H; reflexivity.
Defined.

(** ** C10: start_command *)

(** C10.  start_command returns true for every mission command and changes
    nothing: no sub-mode change and no call, also for a loiter-turns
    command.  do_circle, which the commented-out body would have called, is
    what starts the circle sub-modes. *)
Theorem C10_start_command_never_starts_circle :
  forall (e : Env) (cmd : Mission_Command) (s : State),
    start_command cmd s = (true, s) /\
    (guided_mode (snd (do_circle e cmd s)) = Guided_Circle \/
     guided_mode (snd (do_circle e cmd s)) = Guided_CircleMoveToEdge).
Proof.
  intros e cmd s; split; [reflexivity|].
  unfold do_circle, circle_movetoedge_start, circle_start; unfold_monad.
  repeat match goal with
         | |- context [if ?b then _ else _] => destruct b
         | |- context [match ?o with Some _ => _ | None => _ end] => destruct o
         end; simpl; auto.
Qed.

(** * Further properties of the code *)

(** ** What a driver tick leaves alone *)

Ltac split_frame := unfold same_mode_and_clocks, target_timestamps; norm_state; norm_angle; auto.

Lemma pos_control_run_frame (e : Env) (s : State) :
  same_mode_and_clocks s (snd (pos_control_run e s)).
Proof.
  destruct s as [gm gp gv tpv tv ga gl ay aa lc cs].
  unfold pos_control_run, process_pilot_yaw_input, call_attitude_controller.
  unfold_monad. norm_state.
  repeat (case_if; norm_state); split_frame.
Qed.

Lemma vel_control_run_frame (e : Env) (s : State) :
  same_mode_and_clocks s (snd (vel_control_run e s)).
Proof.
  destruct s as [gm gp gv tpv tv ga gl ay aa lc cs].
  unfold vel_control_run, process_pilot_yaw_input, call_attitude_controller,
    initiate_takeoff, set_desired_velocity_with_accel_and_fence_limits.
  unfold_monad. norm_state.
  repeat (case_if; norm_state); split_frame.
Qed.

Lemma posvel_control_run_frame (e : Env) (s : State) :
  same_mode_and_clocks s (snd (posvel_control_run e s)).
Proof.
  destruct s as [gm gp gv tpv tv ga gl ay aa lc cs].
  unfold posvel_control_run, process_pilot_yaw_input, call_attitude_controller.
  unfold_monad. norm_state.
  repeat (case_if; norm_state); split_frame.
Qed.

Lemma angle_control_run_frame (e : Env) (s : State) :
  same_mode_and_clocks s (snd (angle_control_run e s)).
Proof.
  destruct s as [gm gp gv tpv tv ga gl ay aa lc cs].
  destruct ga as [t r p y yr cr th uyr uth].
  unfold angle_control_run, initiate_takeoff.
  unfold_monad. norm_state. norm_angle.
  repeat (case_if; norm_state; norm_angle); split_frame.
Qed.

Lemma circle_run_frame (e : Env) (s : State) :
  same_mode_and_clocks s (snd (circle_run e s)).
Proof.
  unfold circle_run; unfold_monad; norm_state.
  case_if; split_frame.
Qed.

Lemma takeoff_run_frame (e : Env) (s : State) :
  let s' := snd (takeoff_run e s) in
  guided_mode s'
  = (if wp_nav_reached_wp_destination e
        && negb (fence_rejects e (Location_from_vector e (wp_nav_get_wp_destination e)))
     then Guided_WP else guided_mode s) /\
  target_timestamps s' = target_timestamps s /\
  guided_limit s' = guided_limit s.
Proof.
  destruct s as [gm gp gv tpv tv ga gl ay aa lc cs].
  unfold takeoff_run, set_destination, set_yaw_state, pos_control_start.
  unfold_monad. norm_state.
  destruct (wp_nav_reached_wp_destination e); norm_state; [|split_frame].
  destruct (fence_rejects e (Location_from_vector e (wp_nav_get_wp_destination e)));
    norm_state; [split_frame|].
  destruct gm; norm_state; split_frame.
Qed.

(** X1.  A driver tick changes the sub-mode in one case only: in
    Guided_TakeOff, when wp_nav reports the take-off destination reached and
    the fence accepts it, the sub-mode becomes Guided_WP.  In every other
    case the sub-mode after [run] is the sub-mode before it. *)
Theorem run_changes_mode_only_when_takeoff_completes :
  forall (e : Env) (s : State),
    guided_mode (snd (run e s))
    = if GuidedMode_eqb (guided_mode s) Guided_TakeOff
         && wp_nav_reached_wp_destination e
         && negb (fence_rejects e (Location_from_vector e (wp_nav_get_wp_destination e)))
      then Guided_WP else guided_mode s.
Proof.
  intros e s. rewrite run_dispatch.
  destruct (guided_mode s) eqn:Hm; cbn [GuidedMode_eqb andb].
  - destruct (takeoff_run_frame e s) as (H & _); rewrite H, Hm; reflexivity.
  - destruct (pos_control_run_frame e s) as (H & _); rewrite H; exact Hm.
  - destruct (vel_control_run_frame e s) as (H & _); rewrite H; exact Hm.
  - destruct (posvel_control_run_frame e s) as (H & _); rewrite H; exact Hm.
  - destruct (angle_control_run_frame e s) as (H & _); rewrite H; exact Hm.
  - destruct (circle_run_frame e s) as (H & _); rewrite H; exact Hm.
  - destruct (pos_control_run_frame e s) as (H & _); rewrite H; exact Hm.
Qed.

(** X2.  No driver tick refreshes a timestamp or touches the limits: after
    [run], in any sub-mode, the three update times of the target store and
    the guided limits are those of before. *)
Theorem run_keeps_timestamps_and_limits :
  forall (e : Env) (s : State),
    target_timestamps (snd (run e s)) = target_timestamps s /\
    guided_limit (snd (run e s)) = guided_limit s.
Proof.
  intros e s. rewrite run_dispatch.
  destruct (guided_mode s).
  - destruct (takeoff_run_frame e s) as (_ & H1 & H2); split; assumption.
  - destruct (pos_control_run_frame e s) as (_ & H1 & H2); split; assumption.
  - destruct (vel_control_run_frame e s) as (_ & H1 & H2); split; assumption.
  - destruct (posvel_control_run_frame e s) as (_ & H1 & H2); split; assumption.
  - destruct (angle_control_run_frame e s) as (_ & H1 & H2); split; assumption.
  - destruct (circle_run_frame e s) as (_ & H1 & H2); split; assumption.
  - destruct (pos_control_run_frame e s) as (_ & H1 & H2); split; assumption.
Qed.

(** ** The guided limits as a session *)

Lemma u32_sub_after (t d : Z) :
  0 <= d < 2 ^ 32 -> u32_sub ((t + d) mod 2 ^ 32) t = d.
Proof.
  intros Hd. unfold u32_sub.
  rewrite Zminus_mod_idemp_l.
  replace (t + d - t) with d by ring.
  apply Z.mod_small; exact Hd.
Qed.

(** X3.  After limit_clear no limit is ever breached: limit_check is false
    at every time and position, whatever limits and reference were set
    before. *)
Theorem limit_clear_disables_limit_check :
  forall (e : Env) (s : State),
    fst (limit_check e (snd (limit_clear s))) = false.
Proof.
  intros e s. unfold limit_check, limit_clear. unfold_monad. norm_state.
  cbn [timeout_ms alt_min_cm alt_max_cm horiz_max_cm start_time start_pos].
  assert (Hz : is_zero 0%R = true) by (apply is_zero_true; reflexivity).
  assert (Hp : f_gt 0%R 0%R = false) by (apply f_lt_false; lra).
  cbn [Z.gtb Z.compare andb]. rewrite Hz, Hp. reflexivity.
Qed.

(** X4.  A limited session: after limit_set and limit_init_time_and_pos at
    time t0 and position p0, limit_check [d] ms later (the clock may have
    wrapped around 2^32 in between) and at position p answers true exactly
    when the timeout is positive and d has reached it, or p is below a
    nonzero floor, or above a nonzero ceiling, or further than a positive
    horizontal limit from p0.  limit_init_time_and_pos keeps the
    thresholds, and limit_set keeps nothing of the thresholds set before. *)
Theorem limit_session :
  forall (e0 e1 : Env) (s : State) (timeout : uint32) (alt_min alt_max horiz_max : float)
         (d : Z),
    0 <= d < 2 ^ 32 ->
    millis e1 = (millis e0 + d) mod 2 ^ 32 ->
    let s1 := snd (limit_init_time_and_pos e0
                     (snd (limit_set timeout alt_min alt_max horiz_max s))) in
    let p0 := inertial_nav_get_position e0 in
    let p := inertial_nav_get_position e1 in
    fst (limit_check e1 s1) = true <->
      (0 < timeout /\ timeout <= d) \/
      (alt_min <> 0%R /\ (Vector3f.z p < alt_min)%R) \/
      (alt_max <> 0%R /\ (alt_max < Vector3f.z p)%R) \/
      ((0 < horiz_max)%R /\ (horiz_max < get_horizontal_distance_cm p0 p)%R).
Proof.
  intros e0 e1 s timeout alt_min alt_max horiz_max d Hd Hnow s1 p0 p.
  subst s1. unfold limit_check, limit_init_time_and_pos, limit_set.
  unfold_monad. norm_state.
  cbn [timeout_ms alt_min_cm alt_max_cm horiz_max_cm start_time start_pos].
  rewrite Hnow, (u32_sub_after (millis e0) d Hd). fold p0 p. unfold f_gt.
  destruct (timeout >? 0) eqn:Ht;
    [apply Z.gtb_lt in Ht | rewrite Z.gtb_ltb in Ht; apply Z.ltb_ge in Ht];
  (destruct (d >=? timeout) eqn:He;
    [apply Z.geb_le in He | rewrite Z.geb_leb in He; apply Z.leb_gt in He]);
  (destruct (is_zero alt_min) eqn:Hmin;
    [apply is_zero_true in Hmin | apply is_zero_false in Hmin]);
  (destruct (f_lt (Vector3f.z p) alt_min) eqn:Hlo;
    [apply f_lt_true in Hlo | apply f_lt_false in Hlo]);
  (destruct (is_zero alt_max) eqn:Hmax;
    [apply is_zero_true in Hmax | apply is_zero_false in Hmax]);
  (destruct (f_lt alt_max (Vector3f.z p)) eqn:Hhi;
    [apply f_lt_true in Hhi | apply f_lt_false in Hhi]);
  (destruct (f_lt 0%R horiz_max) eqn:Hh;
    [apply f_lt_true in Hh | apply f_lt_false in Hh]);
  (destruct (f_lt horiz_max (get_horizontal_distance_cm p0 p)) eqn:Hdist;
    [apply f_lt_true in Hdist | apply f_lt_false in Hdist]);
  simpl;
  (split; [intros Hr; try discriminate Hr; tauto
          | intros [[? ?]|[[? ?]|[[? ?]|[? ?]]]];
            try reflexivity; try (exfalso; lia); exfalso; lra]).
Qed.

Lemma limit_session_witness :
  let e0 := sample_env 4294967000 true true true false (v3 0 0 0) (v3 0 0 0) 0%R None in
  let e1 := sample_env 4704 true true true false (v3 0 0 0) (v3 0 0 0) 0%R None in
  let s := sample_state Guided_WP (v3 0 0 0) yaw_hold false in
  fst (limit_check e1
         (snd (limit_init_time_and_pos e0 (snd (limit_set 5000 0%R 0%R 0%R s))))) = true.
Proof.
  intros e0 e1 s.
  apply (limit_session e0 e1 s 5000 0%R 0%R 0%R 5000); [lia | reflexivity |].
  left; lia.
Defined.

(** ** From an ingestion call to the next driver tick *)

Lemma set_velocity_records (e : Env) (s : State) (velocity : Vector3f)
    (use_yaw : bool) (yaw_cd : float) (use_yaw_rate : bool) (yaw_rate_cds : float)
    (relative_yaw log_request : bool) :
  let s1 := snd (set_velocity e velocity use_yaw yaw_cd use_yaw_rate yaw_rate_cds
                   relative_yaw log_request s) in
  guided_mode s1 = Guided_Velocity /\
  guided_vel_target_cms s1 = velocity /\
  vel_update_time_ms s1 = millis e /\
  ap_auto_armed s1 = ap_auto_armed s /\
  ap_land_complete s1 = ap_land_complete s.
Proof.
  destruct s as [gm gp gv tpv tv ga gl ay aa lc cs].
  unfold set_velocity, set_yaw_state, vel_control_start. unfold_monad. norm_state.
  destruct gm, use_yaw, use_yaw_rate, log_request; norm_state; auto.
Qed.

(** X5.  A velocity target is what the next tick uses: after
    set_velocity at time t, a tick of the velocity driver [d] ms later with
    d <= 3000 (the clock may wrap around 2^32 in between) that gets past
    the interlock hands to pos_control the current desired velocity moved
    towards that target by
    set_desired_velocity_with_accel_and_fence_limits, and the sub-mode is
    Guided_Velocity whatever it was before the call.  Without
    AC_AVOID_ENABLED the velocity handed over is a limited step towards the
    target of the call (for non-negative allowances: within the per-tick
    allowance of the current desired velocity, and closer to the target by
    that allowance), and it is the target itself when the target is within
    the allowance. *)
Theorem set_velocity_then_tick :
  forall (e1 e2 : Env) (s : State) (velocity : Vector3f) (use_yaw : bool) (yaw_cd : float)
         (use_yaw_rate : bool) (yaw_rate_cds : float) (relative_yaw log_request : bool)
         (d : Z),
    0 <= d <= GUIDED_POSVEL_TIMEOUT_MS ->
    millis e2 = (millis e1 + d) mod 2 ^ 32 ->
    motors_armed e2 = true -> ap_auto_armed s = true -> ap_land_complete s = false ->
    let s1 := snd (set_velocity e1 velocity use_yaw yaw_cd use_yaw_rate yaw_rate_cds
                     relative_yaw log_request s) in
    let s2 := snd (vel_control_run e2 s1) in
    let cur := pos_control_get_desired_velocity e2 in
    let max_xy := (G_Dt e2 * pos_control_get_max_accel_xy e2)%R in
    let max_z := (G_Dt e2 * pos_control_get_max_accel_z e2)%R in
    guided_mode s2 = Guided_Velocity /\
    exists new : list Call,
      calls s2 = calls s1 ++ new /\
      desired_velocity_commands new
      = [fence_limited_velocity e2 (accel_limited_velocity e2 cur velocity)] /\
      (AC_AVOID_ENABLED e2 = false ->
       exists v : Vector3f,
         desired_velocity_commands new = [v] /\
         ((0 <= max_xy)%R -> (0 <= max_z)%R -> limited_step e2 cur velocity v) /\
         ((xy_distance cur velocity <= max_xy)%R ->
          (Rabs (Vector3f.z cur - Vector3f.z velocity) <= max_z)%R ->
          v = velocity)).
Proof.
  intros e1 e2 s velocity use_yaw yaw_cd use_yaw_rate yaw_rate_cds relative_yaw
    log_request d Hd Hnow Harmed Hauto Hland s1 s2 cur max_xy max_z.
  destruct (set_velocity_records e1 s velocity use_yaw yaw_cd use_yaw_rate yaw_rate_cds
              relative_yaw log_request) as (Hm & Hv & Ht & Haa & Hlc).
  fold s1 in Hm, Hv, Ht, Haa, Hlc.
  split.
  - subst s2. destruct (vel_control_run_frame e2 s1) as (H & _). rewrite H; exact Hm.
  - assert (Hfresh : u32_sub (millis e2) (vel_update_time_ms s1) <= GUIDED_POSVEL_TIMEOUT_MS).
    { rewrite Ht, Hnow, u32_sub_after; [lia|].
      unfold GUIDED_POSVEL_TIMEOUT_MS in Hd; lia. }
    destruct (vel_control_run_fresh e2 s1 Harmed) as (new & Hcalls & Hcmd);
      [congruence | congruence | exact Hfresh |].
    fold s2 cur in Hcalls, Hcmd. rewrite Hv in Hcmd.
    exists new. split; [exact Hcalls|]. split; [exact Hcmd|].
    intros Hoff. exists (accel_limited_velocity e2 cur velocity).
    split; [|split].
    + rewrite Hcmd. unfold fence_limited_velocity. rewrite Hoff. reflexivity.
    + intros Hxy Hz. apply accel_limited_velocity_limited_step; assumption.
    + intros Hxy Hz. apply accel_limited_velocity_reaches; assumption.
Qed.

Lemma set_velocity_then_tick_witness :
  let e1 := sample_env 4294967000 true true true false (v3 0 0 0) (v3 0 0 0) 0%R None in
  let e2 := sample_env 704 true true true false (v3 0 0 0) (v3 0 0 0) 0%R None in
  let s := sample_state Guided_WP (v3 0 0 0) yaw_hold false in
  guided_mode (snd (vel_control_run e2
                      (snd (set_velocity e1 (v3 100 0 0) false 0%R false 0%R false false s))))
  = Guided_Velocity.
Proof.
  intros e1 e2 s.
  apply (set_velocity_then_tick e1 e2 s (v3 100 0 0) false 0%R false 0%R false false 1000);
    [unfold GUIDED_POSVEL_TIMEOUT_MS; lia | reflexivity | reflexivity | reflexivity
     | reflexivity].
Defined.

Lemma set_destination_posvel_records (e : Env) (s : State) (destination velocity : Vector3f)
    (use_yaw : bool) (yaw_cd : float) (use_yaw_rate : bool) (yaw_rate_cds : float)
    (relative_yaw : bool) :
  fence_rejects e (Location_from_vector e destination) = false ->
  let r := set_destination_posvel e destination velocity use_yaw yaw_cd use_yaw_rate
             yaw_rate_cds relative_yaw s in
  fst r = true /\
  guided_mode (snd r) = Guided_PosVel /\
  guided_pos_target_cm (snd r) = destination /\
  guided_vel_target_cms (snd r) = velocity /\
  posvel_update_time_ms (snd r) = millis e /\
  ap_auto_armed (snd r) = ap_auto_armed s /\
  ap_land_complete (snd r) = ap_land_complete s.
Proof.
  intros Hf.
  destruct s as [gm gp gv tpv tv ga gl ay aa lc cs].
  unfold set_destination_posvel, set_yaw_state, posvel_control_start.
  rewrite Hf. unfold_monad. norm_state.
  destruct gm, use_yaw, use_yaw_rate; norm_state; repeat split; reflexivity.
Qed.

(** X6.  An accepted position-velocity target is dead-reckoned from the
    values of the call: after set_destination_posvel (destination,
    velocity) has returned true at time t, a tick of the position-velocity
    driver [d] ms later with d <= 3000 and dt < 0.2 s that gets past the
    interlock hands destination + velocity * dt to pos_control's
    set_pos_target and stores it. *)
Theorem set_destination_posvel_then_tick :
  forall (e1 e2 : Env) (s : State) (destination velocity : Vector3f) (use_yaw : bool)
         (yaw_cd : float) (use_yaw_rate : bool) (yaw_rate_cds : float)
         (relative_yaw : bool) (d : Z),
    fence_rejects e1 (Location_from_vector e1 destination) = false ->
    0 <= d <= GUIDED_POSVEL_TIMEOUT_MS ->
    millis e2 = (millis e1 + d) mod 2 ^ 32 ->
    (pos_control_time_since_last_xy_update e2 < 0.2)%R ->
    motors_armed e2 = true -> ap_auto_armed s = true -> ap_land_complete s = false ->
    let r := set_destination_posvel e1 destination velocity use_yaw yaw_cd use_yaw_rate
               yaw_rate_cds relative_yaw s in
    let s2 := snd (posvel_control_run e2 (snd r)) in
    let advanced := Vector3f.add destination
                      (Vector3f.scale velocity (pos_control_time_since_last_xy_update e2)) in
    fst r = true /\
    guided_pos_target_cm s2 = advanced /\
    exists new : list Call,
      calls s2 = calls (snd r) ++ new /\ position_commands new = [advanced].
Proof.
  intros e1 e2 s destination velocity use_yaw yaw_cd use_yaw_rate yaw_rate_cds
    relative_yaw d Hf Hd Hnow Hdt Harmed Hauto Hland r s2 advanced.
  destruct (set_destination_posvel_records e1 s destination velocity use_yaw yaw_cd
              use_yaw_rate yaw_rate_cds relative_yaw Hf)
    as (Hr & Hm & Hp & Hv & Ht & Haa & Hlc).
  fold r in Hr, Hm, Hp, Hv, Ht, Haa, Hlc.
  split; [exact Hr|].
  assert (Haa' : ap_auto_armed (snd r) = true) by congruence.
  assert (Hlc' : ap_land_complete (snd r) = false) by congruence.
  destruct (posvel_control_run_advances e2 (snd r) Harmed Haa' Hlc')
    as (Hstored & _ & new & Hcalls & Hpos).
  fold s2 in Hstored, Hcalls.
  assert (Hfresh : (u32_sub (millis e2) (posvel_update_time_ms (snd r))
                    >? GUIDED_POSVEL_TIMEOUT_MS) = false).
  { rewrite Ht, Hnow, u32_sub_after;
      [rewrite Z.gtb_ltb; apply Z.ltb_ge; lia
      | unfold GUIDED_POSVEL_TIMEOUT_MS in Hd; lia]. }
  assert (Hsmall : f_ge (pos_control_time_since_last_xy_update e2) 0.2%R = false)
    by (apply f_le_false; exact Hdt).
  rewrite Hfresh, Hsmall, Hp, Hv in Hstored, Hpos.
  split; [exact Hstored|].
  exists new; split; [exact Hcalls | exact Hpos].
Qed.

Lemma set_destination_posvel_then_tick_witness :
  let e1 := sample_env 0 true true true false (v3 0 0 0) (v3 0 0 0) 0%R None in
  let e2 := sample_env 100 true true true false (v3 0 0 0) (v3 0 0 0) (1 / 10)%R None in
  let s := sample_state Guided_WP (v3 0 0 0) yaw_hold false in
  guided_pos_target_cm
    (snd (posvel_control_run e2
            (snd (set_destination_posvel e1 (v3 1000 0 0) (v3 50 0 0) false 0%R false 0%R
                    false s))))
  = Vector3f.add (v3 1000 0 0) (Vector3f.scale (v3 50 0 0) (1 / 10)%R).
Proof.
  intros e1 e2 s.
  apply (set_destination_posvel_then_tick e1 e2 s (v3 1000 0 0) (v3 50 0 0) false 0%R
           false 0%R false 100);
    [reflexivity | unfold GUIDED_POSVEL_TIMEOUT_MS; lia | reflexivity | simpl; lra
     | reflexivity | reflexivity | reflexivity].
Defined.

(** ** The angle driver *)

Lemma norm_limited (r p m : float) :
  (0 <= m)%R ->
  (norm (if f_gt (norm r p) m then r * (m / norm r p) else r)
        (if f_gt (norm r p) m then p * (m / norm r p) else p) <= m)%R.
Proof.
  intros Hm. unfold f_gt.
  destruct (f_lt m (norm r p)) eqn:Hgt;
    [apply f_lt_true in Hgt | apply f_lt_false in Hgt; exact Hgt].
  unfold norm, sq in *.
  assert (HD : (0 <= r * r + p * p)%R) by nra.
  pose proof (sqrt_sqrt _ HD) as Hsq.
  set (d := sqrt (r * r + p * p)) in *.
  assert (Hd : d <> 0%R) by lra.
  replace (r * (m / d) * (r * (m / d)) + p * (m / d) * (p * (m / d)))%R with (m * m)%R.
  - rewrite sqrt_square by exact Hm; lra.
  - transitivity ((r * r + p * p) * (m * m) / (d * d))%R;
      [rewrite <- Hsq; field; exact Hd | field; exact Hd].
Qed.

Lemma norm_0_0 : norm 0%R 0%R = 0%R.
Proof. unfold norm, sq. replace (0 * 0 + 0 * 0)%R with 0%R by ring. apply sqrt_0. Qed.

(** X7.  The lean angle sent by the angle driver is limited: with a
    non-negative limit angle_max = MIN(althold lean angle max, ANGLE_MAX),
    every attitude command of a tick has sqrt(roll^2 + pitch^2) <=
    angle_max, whatever roll and pitch the target asked for. *)
Theorem angle_control_run_limits_lean :
  forall (e : Env) (s : State),
    let angle_max := MIN (attitude_control_get_althold_lean_angle_max e) (aparm_angle_max e) in
    (0 <= angle_max)%R ->
    exists new : list Call,
      calls (snd (angle_control_run e s)) = calls s ++ new /\
      Forall (fun rp => (norm (fst rp) (snd rp) <= angle_max)%R) (attitude_roll_pitch new).
Proof.
  intros e s angle_max Hmax.
  destruct s as [gm gp gv tpv tv ga gl ay aa lc cs].
  destruct ga as [t r p y yr cr th uyr uth].
  pose proof (norm_limited r p angle_max Hmax) as Hlim.
  unfold angle_control_run, initiate_takeoff.
  unfold_monad. norm_state. norm_angle. fold angle_max.
  set (roll_in := if f_gt (norm r p) angle_max then (r * (angle_max / norm r p))%R else r) in *.
  set (pitch_in := if f_gt (norm r p) angle_max then (p * (angle_max / norm r p))%R else p) in *.
  assert (H0 : (norm 0 0 <= angle_max)%R) by (rewrite norm_0_0; exact Hmax).
  repeat (case_if; norm_state; norm_angle);
    (eexists; split; [repeat rewrite <- app_assoc; cbn [app]; reflexivity|]);
    cbn [attitude_roll_pitch flat_map app];
    repeat first [apply Forall_nil | apply Forall_cons];
    first [exact Hlim | exact H0].
Qed.

Lemma angle_control_run_limits_lean_witness :
  let e := sample_env 100 true true true false (v3 0 0 0) (v3 0 0 0) 0%R None in
  let s := with_guided_angle_state
             (mkAngleState 0 6000%R 8000%R 0%R 0%R 0%R 0%R false false)
             (sample_state Guided_Angle (v3 0 0 0) yaw_hold false) in
  exists new : list Call,
    calls (snd (angle_control_run e s)) = calls s ++ new /\
    Forall (fun rp => (norm (fst rp) (snd rp) <= MIN 4500%R 4500%R)%R) (attitude_roll_pitch new).
Proof.
  intros e s.
  apply (angle_control_run_limits_lean e s).
  unfold MIN; simpl; destruct (f_lt 4500%R 4500%R); lra.
Defined.

(** X8.  The angle driver never sends both a thrust and a climb rate in
    one tick.  When it passes a thrust to set_throttle_out, that thrust is
    the stored one, the target asked for thrust and is at most 1000 ms
    old, and no climb-rate command is sent in that tick. *)
Theorem angle_control_run_thrust_or_climb_rate :
  forall (e : Env) (s : State),
    let a := guided_angle_state s in
    exists new : list Call,
      calls (snd (angle_control_run e s)) = calls s ++ new /\
      (throttle_out_commands new = [] \/
       (throttle_out_commands new = [thrust a] /\
        existsb is_climb_rate_command new = false /\
        use_thrust a = true /\
        u32_sub (millis e) (update_time_ms a) <= GUIDED_ATTITUDE_TIMEOUT_MS)).
Proof.
  intros e s a. subst a.
  destruct s as [gm gp gv tpv tv ga gl ay aa lc cs].
  destruct ga as [t r p y yr cr th uyr uth].
  unfold angle_control_run, initiate_takeoff.
  unfold_monad. norm_state. norm_angle.
  destruct (u32_sub (millis e) t >? GUIDED_ATTITUDE_TIMEOUT_MS) eqn:Hstale;
    [|rewrite Z.gtb_ltb in Hstale; apply Z.ltb_ge in Hstale];
    norm_state; norm_angle;
    destruct uth; norm_state; norm_angle;
    repeat (case_if; norm_state; norm_angle);
    (eexists; split; [repeat rewrite <- app_assoc; cbn [app]; reflexivity|]);
    cbn [throttle_out_commands flat_map app existsb is_climb_rate_command orb];
    first [left; reflexivity
          | right; split; [reflexivity | split; [reflexivity | split;
                                                   [reflexivity | exact Hstale]]]].
Qed.

(** X9.  A positive thrust or climb rate while armed auto-arms the
    vehicle: after such a tick of the angle driver the auto_armed flag is
    set and the tick has not spooled down, even if the flag was clear
    before and even if the vehicle is landed. *)
Theorem angle_control_run_auto_arms :
  forall (e : Env) (s : State),
    motors_armed e = true ->
    positive_thrust_or_climbrate e s = true ->
    let s' := snd (angle_control_run e s) in
    ap_auto_armed s' = true /\
    exists new : list Call,
      calls s' = calls s ++ new /\ existsb is_spool_down new = false.
Proof.
  intros e s Harmed Hpos.
  destruct s as [gm gp gv tpv tv ga gl ay aa lc cs].
  destruct ga as [t r p y yr cr th uyr uth].
  unfold positive_thrust_or_climbrate in Hpos.
  unfold angle_control_run, initiate_takeoff.
  unfold_monad. norm_state. norm_angle. rewrite Harmed.
  destruct (u32_sub (millis e) t >? GUIDED_ATTITUDE_TIMEOUT_MS);
    norm_state; norm_angle;
    destruct uth; norm_state; norm_angle;
    try (rewrite is_positive_0 in Hpos; discriminate Hpos);
    rewrite Hpos; norm_state; norm_angle;
    rewrite ?andb_false_r; norm_state;
    repeat (case_if; norm_state; norm_angle);
    (split; [reflexivity|]);
    (eexists; split; [repeat rewrite <- app_assoc; cbn [app]; reflexivity | reflexivity]).
Qed.

Lemma angle_control_run_auto_arms_witness :
  let e := sample_env 100 true true true false (v3 0 0 0) (v3 0 0 0) 0%R None in
  let s := with_ap_auto_armed false (sample_state Guided_Angle (v3 0 0 0) yaw_hold true) in
  ap_auto_armed s = false /\ ap_auto_armed (snd (angle_control_run e s)) = true.
Proof.
  intros e s. split; [reflexivity|].
  apply (angle_control_run_auto_arms e s); [reflexivity|].
  unfold positive_thrust_or_climbrate; simpl.
  apply is_positive_true; lra.
Defined.

(** ** The velocity driver on the ground, the pilot's yaw, the spool state *)

(** X10.  Landed with a positive vertical velocity target, armed and
    auto-armed, the velocity driver starts a take-off instead of
    controlling velocity: it relaxes the attitude controller, asks for
    THROTTLE_UNLIMITED, and hands no velocity to pos_control.  The landed
    flag is cleared (and set_throttle_takeoff called) only once the motors
    report THROTTLE_UNLIMITED. *)
Theorem vel_control_run_takes_off_from_ground :
  forall (e : Env) (s : State),
    motors_armed e = true -> ap_auto_armed s = true -> ap_land_complete s = true ->
    is_positive (Vector3f.z (guided_vel_target_cms s)) = true ->
    let s' := snd (vel_control_run e s) in
    let spooled := spool_is_unlimited (motors_get_spool_state e) in
    ap_land_complete s' = negb spooled /\
    calls s' = calls s ++
      [Mode_zero_throttle_and_relax_ac;
       Motors_set_desired_spool_state DSS_THROTTLE_UNLIMITED]
      ++ (if spooled then [Mode_set_throttle_takeoff] else []).
Proof.
  intros e s Harmed Hauto Hland Hpos.
  destruct s as [gm gp gv tpv tv ga gl ay aa lc cs]; cbn in Hauto, Hland, Hpos;
    subst aa lc.
  unfold vel_control_run, process_pilot_yaw_input, initiate_takeoff.
  unfold_monad. norm_state.
  destruct (negb (failsafe_radio e) && use_pilot_yaw e);
    [destruct (is_zero (get_pilot_desired_yaw_rate e))|];
    norm_state; rewrite Harmed, Hpos; norm_state;
    destruct (spool_is_unlimited (motors_get_spool_state e)); norm_state;
    (split; [reflexivity | repeat rewrite <- app_assoc; reflexivity]).
Qed.

Lemma vel_control_run_takes_off_witness :
  let e := sample_env 0 true true true false (v3 0 0 0) (v3 0 0 0) 0%R None in
  let s := sample_state Guided_Velocity (v3 0 0 50) yaw_hold true in
  ap_land_complete (snd (vel_control_run e s)) = false.
Proof.
  intros e s.
  apply (vel_control_run_takes_off_from_ground e s); [reflexivity | reflexivity | reflexivity |].
  apply is_positive_true; simpl; lra.
Defined.

(** X11.  The pilot's yaw stick wins over the yaw state in the Waypoint,
    Velocity and PositionVelocity drivers: when the radio is healthy, the
    IgnorePilotYaw option is off and the pilot's yaw rate is nonzero, the
    yaw mode after the tick is AUTO_YAW_HOLD whatever it was, and every
    attitude command of the tick is a rate-yaw command carrying the pilot's
    yaw rate. *)
Theorem pilot_yaw_overrides_yaw_state :
  forall (e : Env) (s : State),
    pilot_yaw_override e = true ->
    guided_mode s = Guided_WP \/ guided_mode s = Guided_Velocity \/
    guided_mode s = Guided_PosVel \/ guided_mode s = Guided_CircleMoveToEdge ->
    let s' := snd (run e s) in
    AutoYaw.mode (auto_yaw s') = AUTO_YAW_HOLD /\
    exists new : list Call,
      calls s' = calls s ++ new /\
      attitude_yaw_rates new = map (fun _ => get_pilot_desired_yaw_rate e)
                                   (attitude_roll_pitch new).
Proof.
  intros e s Hover Hmode.
  unfold pilot_yaw_override in Hover.
  apply andb_true_iff in Hover; destruct Hover as [Hpilot Hstick].
  apply negb_true_iff in Hstick.
  destruct s as [gm gp gv tpv tv ga gl ay aa lc cs]; cbn in Hmode.
  rewrite run_dispatch; norm_state.
  destruct Hmode as [-> | [-> | [-> | ->]]].
  - unfold pos_control_run, process_pilot_yaw_input, call_attitude_controller.
    rewrite Hpilot, Hstick. unfold_monad. norm_state.
    repeat (case_if; norm_state);
      (split; [reflexivity|]);
      (eexists; split; [repeat rewrite <- app_assoc; cbn [app]; reflexivity | reflexivity]).
  - unfold vel_control_run, process_pilot_yaw_input, call_attitude_controller,
      initiate_takeoff, set_desired_velocity_with_accel_and_fence_limits.
    rewrite Hpilot, Hstick. unfold_monad. norm_state.
    repeat (case_if; norm_state);
      (split; [reflexivity|]);
      (eexists; split; [repeat rewrite <- app_assoc; cbn [app]; reflexivity | reflexivity]).
  - unfold posvel_control_run, process_pilot_yaw_input, call_attitude_controller.
    rewrite Hpilot, Hstick. unfold_monad. norm_state.
    repeat (case_if; norm_state);
      (split; [reflexivity|]);
      (eexists; split; [repeat rewrite <- app_assoc; cbn [app]; reflexivity | reflexivity]).
  - unfold pos_control_run, process_pilot_yaw_input, call_attitude_controller.
    rewrite Hpilot, Hstick. unfold_monad. norm_state.
    repeat (case_if; norm_state);
      (split; [reflexivity|]);
      (eexists; split; [repeat rewrite <- app_assoc; cbn [app]; reflexivity | reflexivity]).
Qed.

Lemma pilot_yaw_overrides_witness :
  let e := with_get_pilot_desired_yaw_rate 1500%R
             (with_failsafe_radio false
                (sample_env 0 true true true false (v3 0 0 0) (v3 0 0 0) 0%R None)) in
  let s := sample_state Guided_Velocity (v3 100 0 0) yaw_rate_30 false in
  AutoYaw.mode (auto_yaw s) = AUTO_YAW_RATE /\
  AutoYaw.mode (auto_yaw (snd (run e s))) = AUTO_YAW_HOLD.
Proof.
  intros e s. split; [reflexivity|].
  apply (pilot_yaw_overrides_yaw_state e s); [|right; left; reflexivity].
  unfold pilot_yaw_override; simpl.
  replace (is_zero 1500%R) with false; [reflexivity|].
  symmetry; apply is_zero_false; lra.
Defined.

(** X12.  Armed, auto-armed and not landed, the Waypoint, Velocity,
    PositionVelocity and Angle drivers never spool down: the first call of
    the tick asks the motors for THROTTLE_UNLIMITED and
    make_safe_spool_down is not called. *)
Theorem flying_tick_keeps_motors_unlimited :
  forall (e : Env) (s : State),
    motors_armed e = true -> ap_auto_armed s = true -> ap_land_complete s = false ->
    guided_mode s = Guided_WP \/ guided_mode s = Guided_Velocity \/
    guided_mode s = Guided_PosVel \/ guided_mode s = Guided_Angle ->
    exists rest : list Call,
      calls (snd (run e s))
      = calls s ++ Motors_set_desired_spool_state DSS_THROTTLE_UNLIMITED :: rest /\
      existsb is_spool_down rest = false.
Proof.
  intros e s Harmed Hauto Hland Hmode.
  destruct s as [gm gp gv tpv tv ga gl ay aa lc cs]; cbn in Hauto, Hland, Hmode;
    subst aa lc.
  rewrite run_dispatch; norm_state.
  destruct Hmode as [-> | [-> | [-> | ->]]].
  - unfold pos_control_run, process_pilot_yaw_input, call_attitude_controller.
    unfold_monad. norm_state.
    destruct (negb (failsafe_radio e) && use_pilot_yaw e);
      [destruct (is_zero (get_pilot_desired_yaw_rate e))|];
      norm_state; rewrite Harmed; norm_state;
      repeat (case_if; norm_state);
      (eexists; split; [repeat rewrite <- app_assoc; cbn [app]; reflexivity | reflexivity]).
  - unfold vel_control_run, process_pilot_yaw_input, call_attitude_controller,
      set_desired_velocity_with_accel_and_fence_limits.
    unfold_monad. norm_state.
    destruct (negb (failsafe_radio e) && use_pilot_yaw e);
      [destruct (is_zero (get_pilot_desired_yaw_rate e))|];
      norm_state; rewrite Harmed; norm_state;
      repeat (case_if; norm_state);
      (eexists; split; [repeat rewrite <- app_assoc; cbn [app]; reflexivity | reflexivity]).
  - unfold posvel_control_run, process_pilot_yaw_input, call_attitude_controller.
    unfold_monad. norm_state.
    destruct (negb (failsafe_radio e) && use_pilot_yaw e);
      [destruct (is_zero (get_pilot_desired_yaw_rate e))|];
      norm_state; rewrite Harmed; norm_state;
      repeat (case_if; norm_state);
      (eexists; split; [repeat rewrite <- app_assoc; cbn [app]; reflexivity | reflexivity]).
  - destruct ga as [t r p y yr cr th uyr uth].
    unfold angle_control_run, initiate_takeoff.
    unfold_monad. norm_state. norm_angle. rewrite Harmed. norm_state.
    destruct (u32_sub (millis e) t >? GUIDED_ATTITUDE_TIMEOUT_MS); norm_state; norm_angle;
      destruct uth; norm_state; norm_angle;
      repeat (case_if; norm_state; norm_angle);
      (eexists; split; [repeat rewrite <- app_assoc; cbn [app]; reflexivity | reflexivity]).
Qed.

Lemma flying_tick_witness :
  let e := sample_env 0 true true true false (v3 0 0 0) (v3 0 0 0) 0%R None in
  let s := sample_state Guided_WP (v3 0 0 0) yaw_hold false in
  exists rest : list Call,
    calls (snd (run e s))
    = calls s ++ Motors_set_desired_spool_state DSS_THROTTLE_UNLIMITED :: rest /\
    existsb is_spool_down rest = false.
Proof.
  intros e s.
  apply (flying_tick_keeps_motors_unlimited e s);
    [reflexivity | reflexivity | reflexivity | left; reflexivity].
Defined.

(** ** The position target once the velocity target is zero *)

Lemma posvel_control_run_at_rest (e : Env) (s : State) :
  guided_vel_target_cms s = Vector3f.zero ->
  guided_vel_target_cms (snd (posvel_control_run e s)) = Vector3f.zero /\
  guided_pos_target_cm (snd (posvel_control_run e s)) = guided_pos_target_cm s.
Proof.
  intros Hv.
  destruct s as [gm gp gv tpv tv ga gl ay aa lc cs]; cbn in Hv; subst gv.
  unfold posvel_control_run, process_pilot_yaw_input, call_attitude_controller.
  unfold_monad. norm_state.
  set (dt := if f_ge (pos_control_time_since_last_xy_update e) 0.2%R then 0%R
             else pos_control_time_since_last_xy_update e).
  pose proof (Vector3f_add_zero_scale gp dt) as Hfix.
  repeat (case_if; norm_state); split; solve [reflexivity | exact Hfix].
Qed.

(** X13.  Dead reckoning stops with the velocity target: when the stored
    velocity target is (0,0,0) (as a stale tick leaves it), any number of
    further position-velocity ticks, in any environment, leave the stored
    position target where it is and the velocity target at zero. *)
Theorem posvel_target_frozen_at_zero_velocity :
  forall (es : list Env) (s : State),
    guided_vel_target_cms s = Vector3f.zero ->
    guided_pos_target_cm (posvel_ticks es s) = guided_pos_target_cm s /\
    guided_vel_target_cms (posvel_ticks es s) = Vector3f.zero.
Proof.
  induction es as [|e es IH]; intros s Hv; [split; [reflexivity | exact Hv]|].
  destruct (posvel_control_run_at_rest e s Hv) as [Hv' Hp'].
  destruct (IH (snd (posvel_control_run e s)) Hv') as [IHp IHv].
  unfold posvel_ticks in *; cbn [fold_left].
  split; [rewrite IHp; exact Hp' | exact IHv].
Qed.

Lemma posvel_target_frozen_witness :
  let e := sample_env 9000 true true true false (v3 0 0 0) (v3 0 0 0) (1 / 10)%R None in
  let s := sample_state Guided_PosVel (v3 0 0 0) yaw_hold false in
  guided_pos_target_cm (posvel_ticks [e; e; e] s) = v3 0 0 0.
Proof.
  intros e s.
  apply (posvel_target_frozen_at_zero_velocity [e; e; e] s); reflexivity.
Defined.

(** ** Take-off *)

(** X14.  When the take-off destination is reached but the fence refuses
    it, takeoff_run drops the failure of set_destination: the sub-mode
    stays Guided_TakeOff, the yaw state and the targets are untouched, and
    the tick has run the take-off controller, retracted the landing gear
    and logged DEST_OUTSIDE_FENCE.  When the fence accepts it, the
    waypoint controller is initialised and then given the take-off
    destination with its terrain flag, and the sub-mode is Guided_WP. *)
Theorem takeoff_run_at_destination :
  forall (e : Env) (s : State),
    guided_mode s = Guided_TakeOff ->
    wp_nav_reached_wp_destination e = true ->
    let target := wp_nav_get_wp_destination e in
    let s' := snd (takeoff_run e s) in
    (fence_rejects e (Location_from_vector e target) = true ->
       same_target_store s s' /\
       calls s' = calls s ++ [Mode_auto_takeoff_run; LandingGear_retract_after_takeoff;
                              Logger_Write_Error DEST_OUTSIDE_FENCE]) /\
    (fence_rejects e (Location_from_vector e target) = false ->
       guided_mode s' = Guided_WP /\
       AutoYaw.mode (auto_yaw s') = auto_yaw_default_mode e false /\
       calls s' = calls s ++
         [Mode_auto_takeoff_run; LandingGear_retract_after_takeoff;
          WPNav_wp_and_spline_init;
          WPNav_set_wp_destination (wp_nav_get_wp_stopping_point e) false;
          WPNav_set_wp_destination target
            (wp_nav_origin_and_destination_are_terrain_alt e);
          Log_Write_GuidedTarget Guided_WP target Vector3f.zero]).
Proof.
  intros e s Hm Hreached target s'. subst s' target.
  destruct s as [gm gp gv tpv tv ga gl ay aa lc cs]; cbn in Hm; subst gm.
  unfold takeoff_run, set_destination, set_yaw_state, pos_control_start.
  rewrite Hreached. unfold_monad. norm_state.
  split; intros Hf; rewrite Hf; norm_state.
  - split; [unfold same_target_store; norm_state; tauto|].
    repeat rewrite <- app_assoc; reflexivity.
  - split; [reflexivity | split; [reflexivity|]].
    repeat rewrite <- app_assoc; reflexivity.
Qed.

Lemma takeoff_run_at_destination_witness :
  let e := sample_env 0 true false true true (v3 0 0 0) (v3 0 0 0) 0%R None in
  let s := sample_state Guided_TakeOff (v3 0 0 0) yaw_hold false in
  guided_mode (snd (takeoff_run e s)) = Guided_TakeOff.
Proof.
  intros e s.
  destruct (takeoff_run_at_destination e s eq_refl eq_refl) as [Hrej _].
  destruct (Hrej eq_refl) as [Hsame _].
  destruct Hsame as [Hmode _]; exact Hmode.
Defined.

Lemma run_in_takeoff (e : Env) (s : State) :
  guided_mode s = Guided_TakeOff ->
  guided_mode (snd (run e s)) = if takeoff_completes e then Guided_WP else Guided_TakeOff.
Proof.
  intros Hm. rewrite run_dispatch, Hm.
  destruct (takeoff_run_frame e s) as (H & _). rewrite H, Hm. reflexivity.
Qed.

Lemma run_in_wp (e : Env) (s : State) :
  guided_mode s = Guided_WP -> guided_mode (snd (run e s)) = Guided_WP.
Proof.
  intros Hm. rewrite run_dispatch, Hm.
  destruct (pos_control_run_frame e s) as (H & _). rewrite H; exact Hm.
Qed.

Lemma mode_trace_in_wp (es : list Env) :
  forall s : State,
    guided_mode s = Guided_WP ->
    mode_trace (map Tick_run es) s = repeat Guided_WP (length es).
Proof.
  induction es as [|e es IH]; intros s Hm; [reflexivity|].
  cbn [map mode_trace tick length repeat].
  rewrite (run_in_wp e s Hm), (IH _ (run_in_wp e s Hm)); reflexivity.
Qed.

Lemma mode_trace_in_takeoff (es : list Env) :
  forall s : State,
    guided_mode s = Guided_TakeOff ->
    forallb (fun e => negb (takeoff_completes e)) es = true ->
    mode_trace (map Tick_run es) s = repeat Guided_TakeOff (length es) /\
    guided_mode (run_ticks (map Tick_run es) s) = Guided_TakeOff.
Proof.
  induction es as [|e es IH]; intros s Hm Hall; [split; [reflexivity | exact Hm]|].
  cbn [forallb] in Hall; apply andb_true_iff in Hall; destruct Hall as [He Hes].
  apply negb_true_iff in He.
  pose proof (run_in_takeoff e s Hm) as Hm'. rewrite He in Hm'.
  destruct (IH _ Hm' Hes) as [IH1 IH2].
  cbn [map mode_trace tick length repeat run_ticks fold_left].
  rewrite Hm', IH1; split; [reflexivity | exact IH2].
Qed.

(** X15.  The take-off sub-mode over a sequence of driver ticks: from
    Guided_TakeOff the sub-mode stays Guided_TakeOff at every tick before
    the first one at which wp_nav reports the destination reached and the
    fence accepts it, is Guided_WP at that tick, and stays Guided_WP at
    every later tick. *)
Theorem takeoff_then_waypoint :
  forall (s : State) (before : list Env) (e : Env) (after : list Env),
    guided_mode s = Guided_TakeOff ->
    forallb (fun e => negb (takeoff_completes e)) before = true ->
    takeoff_completes e = true ->
    mode_trace (map Tick_run (before ++ e :: after)) s
    = repeat Guided_TakeOff (length before) ++ repeat Guided_WP (S (length after)).
Proof.
  intros s before e after Hm Hbefore He.
  destruct (mode_trace_in_takeoff before s Hm Hbefore) as [Htrace Hlast].
  rewrite map_app, mode_trace_app, Htrace; f_equal.
  pose proof (run_in_takeoff e _ Hlast) as Hwp. rewrite He in Hwp.
  cbn [map mode_trace tick repeat]. rewrite Hwp; f_equal.
  apply mode_trace_in_wp; exact Hwp.
Qed.

Lemma takeoff_then_waypoint_witness :
  let e0 := sample_env 0 true true true false (v3 0 0 0) (v3 0 0 0) 0%R None in
  let e1 := sample_env 100 true true true true (v3 0 0 0) (v3 0 0 0) 0%R None in
  let s := sample_state Guided_TakeOff (v3 0 0 0) yaw_hold false in
  mode_trace (map Tick_run [e0; e0; e1; e0]) s
  = [Guided_TakeOff; Guided_TakeOff; Guided_WP; Guided_WP].
Proof.
  intros e0 e1 s.
  apply (takeoff_then_waypoint s [e0; e0] e1 [e0]); reflexivity.
Defined.

(** ** The take-off request *)

(** X16.  do_user_takeoff_start fails in two cases only: the rangefinder is
    the terrain source and the requested altitude is not above its
    reading ("can't takeoff downwards"), or wp_nav refuses the
    destination.  In both the sub-mode is Guided_TakeOff all the same
    (it is set first), while the yaw state and the stored targets are
    those of before; the first case makes no call at all, the second logs
    FAILED_TO_SET_DESTINATION. *)
Theorem do_user_takeoff_start_failure :
  forall (e : Env) (t : TakeoffEnv) (auto_takeoff_set_start_alt : M unit)
         (takeoff_alt_cm : float) (s : State),
    let r := do_user_takeoff_start e t auto_takeoff_set_start_alt takeoff_alt_cm s in
    let downwards := takeoff_uses_rangefinder t takeoff_alt_cm
                     && f_le takeoff_alt_cm (IZR (rangefinder_state_alt_cm t)) in
    let target_loc :=
      Location.set_alt_cm (current_loc e) (int32_of_float t takeoff_alt_cm)
        (if takeoff_uses_rangefinder t takeoff_alt_cm then ABOVE_TERRAIN else ABOVE_HOME) in
    (fst r = false <->
       downwards = true \/ wp_nav_set_wp_destination_loc e target_loc = false) /\
    (fst r = false ->
       guided_mode (snd r) = Guided_TakeOff /\
       same_target_store (with_guided_mode Guided_TakeOff s) (snd r) /\
       calls (snd r) = calls s ++
         (if downwards then []
          else [WPNav_set_wp_destination_loc target_loc;
                Logger_Write_Error FAILED_TO_SET_DESTINATION])).
Proof.
  intros e t helper takeoff_alt_cm s r downwards target_loc.
  subst r. unfold do_user_takeoff_start. unfold_monad. fold downwards target_loc.
  destruct downwards; norm_state.
  - split; [split; [intros _; left; reflexivity | reflexivity]|].
    intros _. split; [reflexivity|].
    split; [unfold same_target_store; norm_state; tauto|].
    rewrite app_nil_r; reflexivity.
  - destruct (wp_nav_set_wp_destination_loc e target_loc) eqn:Hw; norm_state.
    + split.
      * destruct (helper _) as [u s']; cbn.
        split; [discriminate | intros [H | H]; discriminate H].
      * destruct (helper _) as [u s']; cbn. discriminate.
    + split; [split; [intros _; right; reflexivity | reflexivity]|].
      intros _. split; [reflexivity|].
      split; [unfold same_target_store; norm_state; tauto|].
      rewrite <- app_assoc; reflexivity.
Qed.

Lemma do_user_takeoff_start_failure_witness :
  let e := sample_env 0 true true true false (v3 0 0 0) (v3 0 0 0) 0%R None in
  let t := sample_takeoff_env true 600 in
  let s := sample_state Guided_WP (v3 0 0 0) yaw_hold false in
  let r := do_user_takeoff_start e t (ret tt) 500%R s in
  fst r = false /\ guided_mode (snd r) = Guided_TakeOff.
Proof.
  intros e t s r.
  destruct (do_user_takeoff_start_failure e t (ret tt) 500%R s) as [Hiff Hfail].
  assert (Hr : fst r = false).
  { apply Hiff; left.
    unfold takeoff_uses_rangefinder; simpl.
    replace (f_lt 500%R 700%R) with true by (symmetry; apply f_lt_true; lra).
    replace (f_le 500%R 600%R) with true by (symmetry; apply f_le_true; lra).
    reflexivity. }
  split; [exact Hr | apply Hfail; exact Hr].
Defined.

(** X17.  A take-off request that succeeds (auto_takeoff_set_start_alt
    leaving this file's state alone) has given wp_nav the current latitude
    and longitude at the requested altitude, in the ABOVE_TERRAIN frame
    when the rangefinder is the terrain source and the altitude is within
    its range, in the ABOVE_HOME frame otherwise; the yaw mode is
    AUTO_YAW_HOLD and the stored targets are untouched. *)
Theorem do_user_takeoff_start_success :
  forall (e : Env) (t : TakeoffEnv) (auto_takeoff_set_start_alt : M unit)
         (takeoff_alt_cm : float) (s : State),
    (forall s0 : State, snd (auto_takeoff_set_start_alt s0) = s0) ->
    let r := do_user_takeoff_start e t auto_takeoff_set_start_alt takeoff_alt_cm s in
    fst r = true ->
    guided_mode (snd r) = Guided_TakeOff /\
    AutoYaw.mode (auto_yaw (snd r)) = AUTO_YAW_HOLD /\
    guided_pos_target_cm (snd r) = guided_pos_target_cm s /\
    guided_vel_target_cms (snd r) = guided_vel_target_cms s /\
    calls (snd r) = calls s ++
      [WPNav_set_wp_destination_loc
         (Location.mk (Location.lat (current_loc e)) (Location.lng (current_loc e))
            (int32_of_float t takeoff_alt_cm)
            (if wp_nav_rangefinder_used_and_healthy t
                && wp_nav_terrain_source_is_rangefinder t
                && f_lt takeoff_alt_cm (IZR (rangefinder_max_distance_cm_orient t))
             then ABOVE_TERRAIN else ABOVE_HOME));
       Mode_set_throttle_takeoff].
Proof.
  intros e t helper takeoff_alt_cm s Hhelper r Hr. subst r.
  unfold do_user_takeoff_start, takeoff_uses_rangefinder, Location.set_alt_cm in *.
  unfold_monad.
  repeat (case_if; norm_state); try discriminate Hr;
    match goal with
    | |- context [helper ?x] =>
        pose proof (Hhelper x) as Hx; destruct (helper x) as [u s']; cbn in Hx; subst s'
    end;
    norm_state;
    (repeat split; try reflexivity; repeat rewrite <- app_assoc; reflexivity).
Qed.

Lemma do_user_takeoff_start_success_witness :
  let e := sample_env 0 true true true false (v3 0 0 0) (v3 0 0 0) 0%R None in
  let t := sample_takeoff_env false 0 in
  let s := sample_state Guided_WP (v3 0 0 0) yaw_rate_30 false in
  let r := do_user_takeoff_start e t (ret tt) 500%R s in
  guided_mode (snd r) = Guided_TakeOff /\ AutoYaw.mode (auto_yaw (snd r)) = AUTO_YAW_HOLD.
Proof.
  intros e t s r.
  destruct (do_user_takeoff_start_success e t (ret tt) 500%R s (fun s0 => eq_refl) eq_refl)
    as (H1 & H2 & _).
  split; assumption.
Defined.

(** ** Mission callbacks *)

(** X18.  verify_command: when the vehicle's flight mode is not this one it
    answers false and does nothing; a command other than loiter-turns is
    answered true ("complete") after a warning to the ground station,
    without touching the target store; and in every case the
    mission-item-reached message is sent exactly when the answer is
    true, once, with the command's index. *)
Theorem verify_command_reports_completion :
  forall (e : Env) (cmd : Mission_Command) (s : State),
    let r := verify_command e cmd s in
    (flightmode_is_mode_guided e = false -> r = (false, s)) /\
    (flightmode_is_mode_guided e = true ->
     Mission_Command.id cmd <> MAV_CMD_NAV_LOITER_TURNS ->
       fst r = true /\ same_target_store s (snd r) /\
       calls (snd r) = calls s ++
         [GCS_send_text_skipping_invalid_cmd (Mission_Command.id cmd);
          GCS_send_mission_item_reached_message (Mission_Command.index cmd)]) /\
    exists new : list Call,
      calls (snd r) = calls s ++ new /\
      mission_item_reached_messages new
      = if fst r then [Mission_Command.index cmd] else [].
Proof.
  intros e cmd s r. subst r.
  destruct s as [gm gp gv tpv tv ga gl ay aa lc cs].
  unfold verify_command, verify_circle, circle_start. unfold_monad. norm_state.
  destruct (flightmode_is_mode_guided e); norm_state.
  - destruct (Mission_Command.id cmd =? MAV_CMD_NAV_LOITER_TURNS) eqn:Hid.
    + apply Z.eqb_eq in Hid.
      split; [discriminate|]. split; [intros _ Hne; contradiction|].
      repeat (case_if; norm_state);
        repeat match goal with
               | |- context [match ?o with Some _ => _ | None => _ end] =>
                   destruct o; norm_state
               end;
        repeat (case_if; norm_state);
        (eexists; split;
         [first [repeat rewrite <- app_assoc; cbn [app]; reflexivity
                | symmetry; apply app_nil_r]
         | reflexivity]).
    + split; [discriminate|]. split.
      * intros _ _. norm_state.
        split; [reflexivity|].
        split; [unfold same_target_store; norm_state; tauto|].
        rewrite <- app_assoc; reflexivity.
      * norm_state.
        eexists; split; [rewrite <- app_assoc; cbn [app]; reflexivity | reflexivity].
  - split; [reflexivity|]. split; [discriminate|].
    exists []; split; [symmetry; apply app_nil_r | reflexivity].
Qed.

Lemma verify_command_witness :
  let e := sample_env 0 true true true false (v3 0 0 0) (v3 0 0 0) 0%R None in
  let s := sample_state Guided_WP (v3 0 0 0) yaw_hold false in
  let cmd := Mission_Command.mk 16 7 0 sample_location in
  fst (verify_command e cmd s) = true.
Proof.
  intros e s cmd.
  destruct (verify_command_reports_completion e cmd s) as (_ & H & _).
  apply H; [reflexivity | discriminate].
Defined.

(** X19.  While circling (Guided_Circle), verify_circle only reads: the
    state is unchanged, and the command is complete exactly when the
    angle travelled, in either direction, has reached the number of turns
    held in the low byte of p1 times a full turn.  A command for zero
    turns is complete at once. *)
Theorem verify_circle_counts_turns :
  forall (e : Env) (cmd : Mission_Command) (s : State),
    guided_mode s = Guided_Circle ->
    let turns := IZR (LOWBYTE (Mission_Command.p1 cmd)) in
    snd (verify_circle e cmd s) = s /\
    (fst (verify_circle e cmd s) = true <->
       (turns * (2 * PI) <= Rabs (circle_nav_get_angle_total e))%R) /\
    (LOWBYTE (Mission_Command.p1 cmd) = 0 -> fst (verify_circle e cmd s) = true).
Proof.
  intros e cmd s Hm turns.
  unfold verify_circle. unfold_monad. rewrite Hm. cbn [GuidedMode_eqb].
  assert (Hpi : (0 < 2 * PI)%R) by (pose proof PI_RGT_0; lra).
  assert (Habs : Rabs (circle_nav_get_angle_total e / M_2PI)
                 = (Rabs (circle_nav_get_angle_total e) / (2 * PI))%R).
  { unfold M_2PI, Rdiv. rewrite Rabs_mult, (Rabs_pos_eq (/ (2 * PI))); [reflexivity|].
    left; apply Rinv_0_lt_compat; exact Hpi. }
  assert (Hiff : f_ge (Rabs (circle_nav_get_angle_total e / M_2PI)) turns = true <->
                 (turns * (2 * PI) <= Rabs (circle_nav_get_angle_total e))%R).
  { unfold f_ge. rewrite f_le_true, Habs. split; intros H.
    - apply (Rmult_le_compat_r (2 * PI)) in H; [|lra].
      unfold Rdiv in H. rewrite Rmult_assoc, Rinv_l, Rmult_1_r in H; lra.
    - apply (Rmult_le_reg_r (2 * PI)); [exact Hpi|].
      unfold Rdiv. rewrite Rmult_assoc, Rinv_l, Rmult_1_r; lra. }
  split; [reflexivity|]. split; [exact Hiff|].
  intros H0. apply Hiff. subst turns. rewrite H0.
  pose proof (Rabs_pos (circle_nav_get_angle_total e)). lra.
Qed.

Lemma verify_circle_counts_turns_witness :
  let e := sample_env 0 true true true false (v3 0 0 0) (v3 0 0 0) 0%R None in
  let s := sample_state Guided_Circle (v3 0 0 0) yaw_hold false in
  let cmd := Mission_Command.mk MAV_CMD_NAV_LOITER_TURNS 1 (10 * 256) sample_location in
  fst (verify_circle e cmd s) = true.
Proof.
  intros e s cmd.
  destruct (verify_circle_counts_turns e cmd s eq_refl) as (_ & _ & H).
  apply H; reflexivity.
Defined.

(** X20.  loc_from_cmd fills in what the command leaves at zero and
    nothing else: latitude and longitude are the command's unless both are
    0, in which case they are the vehicle's; the altitude and its frame
    are the command's unless the altitude is 0, in which case the altitude
    is the vehicle's in the command's frame, or, when the vehicle's
    altitude cannot be had in that frame, the vehicle's altitude and
    frame. *)
Theorem loc_from_cmd_fills_zero_fields :
  forall (e : Env) (cmd : Mission_Command),
    let l := Mission_Command.content_location cmd in
    let r := loc_from_cmd e cmd in
    (Location.lat l <> 0 \/ Location.lng l <> 0 ->
       Location.lat r = Location.lat l /\ Location.lng r = Location.lng l) /\
    (Location.lat l = 0 /\ Location.lng l = 0 ->
       Location.lat r = Location.lat (current_loc e) /\
       Location.lng r = Location.lng (current_loc e)) /\
    (Location.alt l <> 0 ->
       Location.alt r = Location.alt l /\ Location.alt_frame r = Location.alt_frame l) /\
    (Location.alt l = 0 ->
       match current_loc_get_alt_cm e (Location.alt_frame l) with
       | Some curr_alt =>
           Location.alt r = curr_alt /\ Location.alt_frame r = Location.alt_frame l
       | None =>
           Location.alt r = Location.alt (current_loc e) /\
           Location.alt_frame r = Location.alt_frame (current_loc e)
       end).
Proof.
  intros e cmd l r. subst r. unfold loc_from_cmd. fold l.
  unfold Location.get_alt_frame, Location.set_alt_cm.
  destruct (Location.lat l =? 0) eqn:Hlat;
    [apply Z.eqb_eq in Hlat | apply Z.eqb_neq in Hlat];
  (destruct (Location.lng l =? 0) eqn:Hlng;
    [apply Z.eqb_eq in Hlng | apply Z.eqb_neq in Hlng]);
  cbn [andb Location.alt Location.alt_frame Location.lat Location.lng];
  (destruct (Location.alt l =? 0) eqn:Halt;
    [apply Z.eqb_eq in Halt | apply Z.eqb_neq in Halt]);
  destruct (current_loc_get_alt_cm e (Location.alt_frame l));
  cbn [Location.alt Location.alt_frame Location.lat Location.lng];
  (split; [intros [H | H]; try contradiction; split; reflexivity|]);
  (split; [intros [H1 H2]; try contradiction; split; reflexivity|]);
  (split; [intros H; try contradiction; split; reflexivity|]);
  intros H; try contradiction; split; reflexivity.
Qed.

Lemma loc_from_cmd_witness :
  let e := sample_env 0 true true true false (v3 0 0 0) (v3 0 0 0) 0%R None in
  let cmd := Mission_Command.mk MAV_CMD_NAV_LOITER_TURNS 1 0
               (Location.mk 350000000 1390000000 0 ABOVE_TERRAIN) in
  Location.lat (loc_from_cmd e cmd) = 350000000 /\
  Location.alt (loc_from_cmd e cmd) = 1000.
Proof.
  intros e cmd.
  destruct (loc_from_cmd_fills_zero_fields e cmd) as (H1 & _ & _ & H4).
  split.
  - apply H1; left; discriminate.
  - apply (H4 eq_refl).
Defined.

(** ** Starting a circle *)

(** X21.  A region-of-interest yaw survives a circle command: when the yaw
    mode is AUTO_YAW_ROI, do_circle (whether it goes to the edge first or
    circles at once) and the later switch to the circle in verify_circle
    leave the yaw state as it is.  With any other yaw mode, a circle
    entered at once holds the yaw. *)
Theorem circle_keeps_roi_yaw :
  forall (e : Env) (cmd : Mission_Command) (s : State),
    (AutoYaw.mode (auto_yaw s) = AUTO_YAW_ROI ->
       auto_yaw (snd (do_circle e cmd s)) = auto_yaw s /\
       auto_yaw (snd (verify_circle e cmd s)) = auto_yaw s) /\
    (AutoYaw.mode (auto_yaw s) <> AUTO_YAW_ROI ->
     guided_mode (snd (do_circle e cmd s)) = Guided_Circle ->
       AutoYaw.mode (auto_yaw (snd (do_circle e cmd s))) = AUTO_YAW_HOLD).
Proof.
  intros e cmd s.
  destruct s as [gm gp gv tpv tv ga gl ay aa lc cs]. norm_state.
  destruct ay as [m fy fr rc]. cbn [AutoYaw.mode AutoYaw._mode].
  split.
  - intros ->.
    split.
    + unfold do_circle, circle_movetoedge_start, circle_start. unfold_monad. norm_state.
      repeat first [case_if; norm_state
                   | match goal with
                     | |- context [match ?o with Some _ => _ | None => _ end] =>
                         destruct o; norm_state
                     end];
        reflexivity.
    + unfold verify_circle, circle_start. unfold_monad. norm_state.
      repeat first [case_if; norm_state
                   | match goal with
                     | |- context [match ?o with Some _ => _ | None => _ end] =>
                         destruct o; norm_state
                     end];
        reflexivity.
  - intros Hnot.
    unfold do_circle, circle_movetoedge_start, circle_start. unfold_monad. norm_state.
    destruct m; try contradiction; norm_state;
      repeat first [case_if; norm_state
                   | match goal with
                     | |- context [match ?o with Some _ => _ | None => _ end] =>
                         destruct o; norm_state
                     end];
      intros Hmode; try discriminate Hmode; reflexivity.
Qed.

Lemma circle_keeps_roi_yaw_witness :
  let e := sample_env 0 true true true false (v3 0 0 0) (v3 0 0 0) 0%R None in
  let s := sample_state Guided_WP (v3 0 0 0)
             (AutoYaw.mk AUTO_YAW_ROI 0%R false 0%R) false in
  AutoYaw.mode (auto_yaw (snd (do_circle e loiter_turns_cmd s))) = AUTO_YAW_ROI.
Proof.
  intros e s.
  destruct (circle_keeps_roi_yaw e loiter_turns_cmd s) as [Hroi _].
  destruct (Hroi eq_refl) as [H _]. rewrite H; reflexivity.
Defined.

(** X22.  circle_movetoedge_start always sets a centre and never fails:
    the centre given to circle_nav is the location's vector from the
    origin, or the current position, after logging FAILED_CIRCLE_INIT,
    when the location does not resolve.  The radius is set, to radius_m *
    100 cm, only when radius_m is nonzero; with 0 circle_nav keeps the
    radius it has. *)
Theorem circle_movetoedge_start_centre_and_radius :
  forall (e : Env) (circle_center : Location) (radius_m : float) (s : State),
    exists new : list Call,
      calls (snd (circle_movetoedge_start e circle_center radius_m s)) = calls s ++ new /\
      circle_center_commands new
      = [match get_vector_from_origin_NEU e circle_center with
         | Some v => v
         | None => inertial_nav_get_position e
         end] /\
      circle_radius_commands new
      = (if is_zero radius_m then [] else [(radius_m * 100)%R]) /\
      (get_vector_from_origin_NEU e circle_center = None ->
       exists rest, new = Logger_Write_Error FAILED_CIRCLE_INIT :: rest).
Proof.
  intros e circle_center radius_m s.
  destruct s as [gm gp gv tpv tv ga gl ay aa lc cs].
  unfold circle_movetoedge_start, circle_start. unfold_monad. norm_state.
  destruct (get_vector_from_origin_NEU e circle_center) as [v|]; norm_state;
    destruct (is_zero radius_m); norm_state;
    repeat (case_if; norm_state);
    (eexists; split; [repeat rewrite <- app_assoc; cbn [app]; reflexivity|]);
    (split; [reflexivity | split; [reflexivity|]]);
    intros H; try discriminate H; eexists; reflexivity.
Qed.

Lemma circle_movetoedge_start_witness :
  let e := sample_env 0 true true true false (v3 700 0 0) (v3 0 0 0) 0%R None in
  let s := sample_state Guided_WP (v3 0 0 0) yaw_hold false in
  exists new : list Call,
    calls (snd (circle_movetoedge_start e sample_location 0%R s)) = calls s ++ new /\
    circle_center_commands new = [v3 700 0 0].
Proof.
  intros e s.
  destruct (circle_movetoedge_start_centre_and_radius e sample_location 0%R s)
    as (new & H1 & H2 & _).
  exists new; split; [exact H1 | exact H2].
Defined.

(** ** The yaw state and the target log of the ingestion calls *)

Ltac solve_yaw_as_requested :=
  unfold yaw_as_requested; norm_state;
  cbn [AutoYaw._fixed_yaw AutoYaw._fixed_yaw_relative];
  split; [intros Hy; try discriminate Hy; repeat split; reflexivity
         | intros Hy Hr; try discriminate Hy; try discriminate Hr; split; reflexivity].

(** X23.  The yaw options of an ingestion call: use_yaw wins over
    use_yaw_rate.  After set_velocity, and after a successful
    set_destination (either overload) or set_destination_posvel, the yaw
    state is a fixed yaw of yaw_cd / 100 degrees with the call's relative
    flag when use_yaw is set, whatever use_yaw_rate says, and a yaw rate
    of yaw_rate_cds when only use_yaw_rate is set; this holds whether or
    not the call had to switch the sub-mode. *)
Theorem ingestion_applies_yaw_options :
  forall (e : Env) (s : State) (use_yaw : bool) (yaw_cd : float) (use_yaw_rate : bool)
         (yaw_rate_cds : float) (relative_yaw : bool),
    (forall velocity log_request,
       yaw_as_requested use_yaw yaw_cd use_yaw_rate yaw_rate_cds relative_yaw
         (auto_yaw (snd (set_velocity e velocity use_yaw yaw_cd use_yaw_rate yaw_rate_cds
                           relative_yaw log_request s)))) /\
    (forall destination terrain_alt,
       let r := set_destination e destination use_yaw yaw_cd use_yaw_rate yaw_rate_cds
                  relative_yaw terrain_alt s in
       fst r = true ->
       yaw_as_requested use_yaw yaw_cd use_yaw_rate yaw_rate_cds relative_yaw
         (auto_yaw (snd r))) /\
    (forall dest_loc,
       let r := set_destination_loc e dest_loc use_yaw yaw_cd use_yaw_rate yaw_rate_cds
                  relative_yaw s in
       fst r = true ->
       yaw_as_requested use_yaw yaw_cd use_yaw_rate yaw_rate_cds relative_yaw
         (auto_yaw (snd r))) /\
    (forall destination velocity,
       let r := set_destination_posvel e destination velocity use_yaw yaw_cd use_yaw_rate
                  yaw_rate_cds relative_yaw s in
       fst r = true ->
       yaw_as_requested use_yaw yaw_cd use_yaw_rate yaw_rate_cds relative_yaw
         (auto_yaw (snd r))).
Proof.
  intros e s use_yaw yaw_cd use_yaw_rate yaw_rate_cds relative_yaw.
  destruct s as [gm gp gv tpv tv ga gl ay aa lc cs].
  split; [|split; [|split]].
  - intros velocity log_request.
    unfold set_velocity, set_yaw_state, vel_control_start. unfold_monad. norm_state.
    destruct gm, use_yaw, use_yaw_rate, log_request; solve_yaw_as_requested.
  - intros destination terrain_alt.
    unfold set_destination, set_yaw_state, pos_control_start. unfold_monad. norm_state.
    destruct (fence_rejects e (Location_from_vector e destination));
      [intros Hr; discriminate Hr|].
    intros _.
    destruct gm, use_yaw, use_yaw_rate; solve_yaw_as_requested.
  - intros dest_loc.
    unfold set_destination_loc, set_yaw_state, pos_control_start. unfold_monad. norm_state.
    destruct (fence_rejects e dest_loc); [intros Hr; discriminate Hr|].
    destruct (wp_nav_set_wp_destination_loc e dest_loc);
      [|intros Hr; destruct gm; discriminate Hr].
    intros _.
    destruct gm, use_yaw, use_yaw_rate; solve_yaw_as_requested.
  - intros destination velocity.
    unfold set_destination_posvel, set_yaw_state, posvel_control_start.
    unfold_monad. norm_state.
    destruct (fence_rejects e (Location_from_vector e destination));
      [intros Hr; discriminate Hr|].
    intros _.
    destruct gm, use_yaw, use_yaw_rate; solve_yaw_as_requested.
Qed.

Lemma ingestion_applies_yaw_options_witness :
  let e := sample_env 0 true true true false (v3 0 0 0) (v3 0 0 0) 0%R None in
  let s := sample_state Guided_WP (v3 0 0 0) yaw_hold false in
  let s' := snd (set_velocity e (v3 100 0 0) true 9000%R true 500%R false false s) in
  AutoYaw.mode (auto_yaw s') = AUTO_YAW_FIXED /\
  AutoYaw._fixed_yaw (auto_yaw s') = (9000 * 0.01)%R.
Proof.
  intros e s s'.
  destruct (ingestion_applies_yaw_options e s true 9000%R true 500%R false) as (Hv & _).
  destruct (Hv (v3 100 0 0) false) as [Hfixed _].
  destruct (Hfixed eq_refl) as (H1 & H2 & _).
  split; assumption.
Defined.

(** X24.  What entering a sub-mode through an ingestion call without yaw
    options does to the yaw state depends on the sub-mode: entering
    Waypoint sets the default yaw mode, entering PositionVelocity or Angle
    sets AUTO_YAW_HOLD, and entering Velocity leaves the yaw state as the
    previous sub-mode had it. *)
Theorem yaw_state_on_mode_entry :
  forall (e : Env) (s : State) (yaw_cd yaw_rate_cds : float) (relative_yaw : bool),
    (guided_mode s <> Guided_WP ->
     forall destination terrain_alt,
       let r := set_destination e destination false yaw_cd false yaw_rate_cds
                  relative_yaw terrain_alt s in
       fst r = true ->
       AutoYaw.mode (auto_yaw (snd r)) = auto_yaw_default_mode e false) /\
    (guided_mode s <> Guided_Velocity ->
     forall velocity log_request,
       auto_yaw (snd (set_velocity e velocity false yaw_cd false yaw_rate_cds
                        relative_yaw log_request s)) = auto_yaw s) /\
    (guided_mode s <> Guided_PosVel ->
     forall destination velocity,
       let r := set_destination_posvel e destination velocity false yaw_cd false
                  yaw_rate_cds relative_yaw s in
       fst r = true ->
       AutoYaw.mode (auto_yaw (snd r)) = AUTO_YAW_HOLD) /\
    (guided_mode s <> Guided_Angle ->
     forall q climb_rate_cms_or_thrust use_yaw_rate yaw_rate_rads use_thrust,
       AutoYaw.mode (auto_yaw (snd (set_angle e q climb_rate_cms_or_thrust use_yaw_rate
                                      yaw_rate_rads use_thrust s))) = AUTO_YAW_HOLD).
Proof.
  intros e s yaw_cd yaw_rate_cds relative_yaw.
  destruct s as [gm gp gv tpv tv ga gl ay aa lc cs]. norm_state.
  split; [|split; [|split]]; intros Hm.
  - intros destination terrain_alt.
    unfold set_destination, set_yaw_state, pos_control_start. unfold_monad. norm_state.
    destruct (fence_rejects e (Location_from_vector e destination));
      [intros Hr; discriminate Hr|].
    intros _. destruct gm; try contradiction; reflexivity.
  - intros velocity log_request.
    unfold set_velocity, set_yaw_state, vel_control_start. unfold_monad. norm_state.
    destruct gm, log_request; try contradiction; reflexivity.
  - intros destination velocity.
    unfold set_destination_posvel, set_yaw_state, posvel_control_start.
    unfold_monad. norm_state.
    destruct (fence_rejects e (Location_from_vector e destination));
      [intros Hr; discriminate Hr|].
    intros _. destruct gm; try contradiction; reflexivity.
  - intros q c uyr yrr uth.
    unfold set_angle, angle_control_start. unfold_monad. norm_state.
    destruct (to_euler e q) as [[roll pitch] yaw].
    destruct gm; try contradiction; norm_state;
      destruct (pos_control_is_active_z e); reflexivity.
Qed.

Lemma yaw_state_on_mode_entry_witness :
  let e := sample_env 0 true true true false (v3 0 0 0) (v3 0 0 0) 0%R None in
  let s := sample_state Guided_WP (v3 0 0 0) yaw_rate_30 false in
  auto_yaw (snd (set_velocity e (v3 100 0 0) false 0%R false 0%R false false s))
  = yaw_rate_30.
Proof.
  intros e s.
  destruct (yaw_state_on_mode_entry e s 0%R 0%R false) as (_ & H & _).
  apply H; discriminate.
Defined.

(** X25.  The target log: a destination that is refused (by the fence, or
    by wp_nav for the Location overload) logs no target; an accepted one
    logs exactly one, written with the sub-mode of the call (Guided_WP,
    Guided_PosVel), also when the call has just switched to it.
    set_velocity logs on request only, set_angle always. *)
Theorem ingestion_logs_accepted_targets :
  forall (e : Env) (s : State) (use_yaw : bool) (yaw_cd : float) (use_yaw_rate : bool)
         (yaw_rate_cds : float) (relative_yaw : bool),
    (forall destination terrain_alt,
       let r := set_destination e destination use_yaw yaw_cd use_yaw_rate yaw_rate_cds
                  relative_yaw terrain_alt s in
       exists new, calls (snd r) = calls s ++ new /\
         logged_modes new = if fst r then [Guided_WP] else []) /\
    (forall dest_loc,
       let r := set_destination_loc e dest_loc use_yaw yaw_cd use_yaw_rate yaw_rate_cds
                  relative_yaw s in
       exists new, calls (snd r) = calls s ++ new /\
         logged_modes new = if fst r then [Guided_WP] else []) /\
    (forall velocity log_request,
       let r := set_velocity e velocity use_yaw yaw_cd use_yaw_rate yaw_rate_cds
                  relative_yaw log_request s in
       exists new, calls (snd r) = calls s ++ new /\
         logged_modes new = if log_request then [Guided_Velocity] else []) /\
    (forall destination velocity,
       let r := set_destination_posvel e destination velocity use_yaw yaw_cd use_yaw_rate
                  yaw_rate_cds relative_yaw s in
       exists new, calls (snd r) = calls s ++ new /\
         logged_modes new = if fst r then [Guided_PosVel] else []) /\
    (forall q climb_rate_cms_or_thrust yaw_rate_rads use_thrust,
       let r := set_angle e q climb_rate_cms_or_thrust use_yaw_rate yaw_rate_rads
                  use_thrust s in
       exists new, calls (snd r) = calls s ++ new /\ logged_modes new = [Guided_Angle]).
Proof.
  intros e s use_yaw yaw_cd use_yaw_rate yaw_rate_cds relative_yaw.
  destruct s as [gm gp gv tpv tv ga gl ay aa lc cs].
  assert (Hnil : forall l : list Call, l = l ++ []) by (intros; rewrite app_nil_r; reflexivity).
  split; [|split; [|split; [|split]]].
  - intros destination terrain_alt.
    unfold set_destination, set_yaw_state, pos_control_start. unfold_monad. norm_state.
    destruct (fence_rejects e (Location_from_vector e destination)), gm, use_yaw,
      use_yaw_rate; norm_state;
      (eexists; split; [repeat rewrite <- app_assoc; cbn [app]; reflexivity | reflexivity]).
  - intros dest_loc.
    unfold set_destination_loc, set_yaw_state, pos_control_start. unfold_monad. norm_state.
    destruct (fence_rejects e dest_loc), (wp_nav_set_wp_destination_loc e dest_loc), gm,
      use_yaw, use_yaw_rate; norm_state;
      (eexists; split; [repeat rewrite <- app_assoc; cbn [app]; reflexivity | reflexivity]).
  - intros velocity log_request.
    unfold set_velocity, set_yaw_state, vel_control_start. unfold_monad. norm_state.
    destruct gm, use_yaw, use_yaw_rate, log_request; norm_state;
      (eexists; split;
       [first [apply Hnil | repeat rewrite <- app_assoc; cbn [app]; reflexivity]
       | reflexivity]).
  - intros destination velocity.
    unfold set_destination_posvel, set_yaw_state, posvel_control_start.
    unfold_monad. norm_state.
    destruct (fence_rejects e (Location_from_vector e destination)), gm, use_yaw,
      use_yaw_rate; norm_state;
      (eexists; split; [repeat rewrite <- app_assoc; cbn [app]; reflexivity | reflexivity]).
  - intros q c yrr uth.
    unfold set_angle, angle_control_start. unfold_monad. norm_state.
    destruct (to_euler e q) as [[roll pitch] yaw].
    destruct gm, (pos_control_is_active_z e); norm_state;
      (eexists; split; [repeat rewrite <- app_assoc; cbn [app]; reflexivity | reflexivity]).
Qed.

(** ** From set_angle to the next tick of the angle driver *)

Lemma set_angle_records (e : Env) (s : State) (q : Quaternion)
    (climb_rate_cms_or_thrust : float) (use_yaw_rate0 : bool) (yaw_rate_rads : float)
    (use_thrust0 : bool) :
  let s1 := snd (set_angle e q climb_rate_cms_or_thrust use_yaw_rate0 yaw_rate_rads
                   use_thrust0 s) in
  let a := guided_angle_state s1 in
  guided_mode s1 = Guided_Angle /\
  update_time_ms a = millis e /\
  use_thrust a = use_thrust0 /\
  thrust a = (if use_thrust0 then climb_rate_cms_or_thrust else 0%R) /\
  climb_rate_cms a = (if use_thrust0 then 0%R else climb_rate_cms_or_thrust) /\
  ap_auto_armed s1 = ap_auto_armed s /\
  ap_land_complete s1 = ap_land_complete s.
Proof.
  destruct s as [gm gp gv tpv tv ga gl ay aa lc cs].
  unfold set_angle, angle_control_start. unfold_monad. norm_state.
  destruct (to_euler e q) as [[roll pitch] yaw].
  destruct gm, (pos_control_is_active_z e); norm_state; norm_angle;
    repeat split; reflexivity.
Qed.

Lemma angle_control_run_passes_thrust (e : Env) (s : State) :
  motors_armed e = true ->
  use_thrust (guided_angle_state s) = true ->
  climb_rate_cms (guided_angle_state s) = 0%R ->
  (0 < thrust (guided_angle_state s))%R ->
  u32_sub (millis e) (update_time_ms (guided_angle_state s)) <= GUIDED_ATTITUDE_TIMEOUT_MS ->
  let s' := snd (angle_control_run e s) in
  ap_auto_armed s' = true /\
  ap_land_complete s' = ap_land_complete s /\
  exists new : list Call,
    calls s' = calls s ++ new /\
    throttle_out_commands new = [thrust (guided_angle_state s)] /\
    climb_rate_commands new = [].
Proof.
  intros Harmed Hthr Hclimb Hpos Hfresh.
  destruct s as [gm gp gv tpv tv ga gl ay aa lc cs].
  destruct ga as [t r p y yr cr th uyr uth].
  cbn in Hthr, Hclimb, Hpos, Hfresh. subst uth cr.
  assert (Hgt : (u32_sub (millis e) t >? GUIDED_ATTITUDE_TIMEOUT_MS) = false)
    by (rewrite Z.gtb_ltb; apply Z.ltb_ge; exact Hfresh).
  assert (Hp : is_positive th = true) by (apply is_positive_true; exact Hpos).
  assert (H0 : f_gt 0%R 0%R = false) by (apply f_lt_false; lra).
  unfold angle_control_run, initiate_takeoff.
  unfold_monad. norm_state. norm_angle.
  rewrite Hgt. norm_state. norm_angle.
  rewrite Harmed, Hp. norm_state. norm_angle.
  rewrite H0, ?andb_false_r. norm_state. norm_angle.
  destruct uyr; norm_state;
    (split; [reflexivity | split; [reflexivity|]]);
    (eexists; split; [repeat rewrite <- app_assoc; cbn [app]; reflexivity
                     | split; reflexivity]).
Qed.

(** X26.  A thrust target is passed through as it is: after set_angle with
    use_thrust and a positive thrust, a tick of the angle driver at most
    1000 ms later with the motors armed hands exactly that thrust to
    set_throttle_out and sends no climb rate; the vehicle is auto-armed by
    the tick, and this holds landed or not (the landed flag is left as it
    is: the take-off block looks at the climb rate, which is 0). *)
Theorem set_angle_thrust_then_tick :
  forall (e1 e2 : Env) (s : State) (q : Quaternion) (thrust0 : float)
         (use_yaw_rate0 : bool) (yaw_rate_rads : float) (d : Z),
    0 <= d <= GUIDED_ATTITUDE_TIMEOUT_MS ->
    millis e2 = (millis e1 + d) mod 2 ^ 32 ->
    motors_armed e2 = true ->
    (0 < thrust0)%R ->
    let s1 := snd (set_angle e1 q thrust0 use_yaw_rate0 yaw_rate_rads true s) in
    let s2 := snd (angle_control_run e2 s1) in
    ap_auto_armed s2 = true /\
    ap_land_complete s2 = ap_land_complete s /\
    exists new : list Call,
      calls s2 = calls s1 ++ new /\
      throttle_out_commands new = [thrust0] /\
      climb_rate_commands new = [].
Proof.
  intros e1 e2 s q thrust0 uyr yrr d Hd Hnow Harmed Hpos s1 s2.
  destruct (set_angle_records e1 s q thrust0 uyr yrr true)
    as (_ & Ht & Huse & Hthr & Hclimb & _ & Hlc).
  fold s1 in Ht, Huse, Hthr, Hclimb, Hlc. cbn beta iota in Hthr, Hclimb.
  assert (Hfresh : u32_sub (millis e2) (update_time_ms (guided_angle_state s1))
                   <= GUIDED_ATTITUDE_TIMEOUT_MS).
  { rewrite Ht, Hnow, u32_sub_after; [lia|].
    unfold GUIDED_ATTITUDE_TIMEOUT_MS in Hd; lia. }
  assert (Hpos1 : (0 < thrust (guided_angle_state s1))%R) by (rewrite Hthr; exact Hpos).
  destruct (angle_control_run_passes_thrust e2 s1 Harmed Huse Hclimb Hpos1 Hfresh)
    as (Haa & Hland & new & Hcalls & Hout & Hnone).
  fold s2 in Haa, Hland, Hcalls.
  split; [exact Haa|]. split; [congruence|].
  exists new. rewrite Hthr in Hout. auto.
Qed.

Lemma set_angle_thrust_then_tick_witness :
  let e1 := sample_env 0 true true true false (v3 0 0 0) (v3 0 0 0) 0%R None in
  let e2 := sample_env 500 true true true false (v3 0 0 0) (v3 0 0 0) 0%R None in
  let s := with_ap_auto_armed false (sample_state Guided_WP (v3 0 0 0) yaw_hold true) in
  let s1 := snd (set_angle e1 (mkQuaternion 0%R 0%R 0%R 0%R) (1 / 2)%R false 0%R true s) in
  ap_auto_armed (snd (angle_control_run e2 s1)) = true.
Proof.
  intros e1 e2 s s1.
  apply (set_angle_thrust_then_tick e1 e2 s (mkQuaternion 0%R 0%R 0%R 0%R) (1 / 2)%R false
           0%R 500);
    [unfold GUIDED_ATTITUDE_TIMEOUT_MS; lia | reflexivity | reflexivity | lra].
Defined.

Lemma constrain_float_within (amt low high : float) :
  (low <= high)%R -> (low <= constrain_float amt low high <= high)%R.
Proof.
  intros H. unfold constrain_float, f_gt.
  destruct (f_lt amt low) eqn:H1; [lra|]. apply f_lt_false in H1.
  destruct (f_lt high amt) eqn:H2; [lra|]. apply f_lt_false in H2. lra.
Qed.

(** X27.  The climb rate of an angle target is clamped: every climb rate
    the angle driver sends is either 0 (stale target) or the avoidance
    adjustment of a value between -|default speed down| and the default
    speed up, when the latter is not negative, whatever climb rate the
    target asked for. *)
Theorem angle_control_run_clamps_climb_rate :
  forall (e : Env) (s : State),
    (0 <= wp_nav_get_default_speed_up e)%R ->
    exists new : list Call,
      calls (snd (angle_control_run e s)) = calls s ++ new /\
      Forall (fun c =>
                c = 0%R \/
                exists c0 : float,
                  c = get_avoidance_adjusted_climbrate e c0 /\
                  (- Rabs (wp_nav_get_default_speed_down e) <= c0
                   <= wp_nav_get_default_speed_up e)%R)
             (climb_rate_commands new).
Proof.
  intros e s Hup.
  destruct s as [gm gp gv tpv tv ga gl ay aa lc cs].
  destruct ga as [t r p y yr cr th uyr uth].
  assert (Hlow : (- Rabs (wp_nav_get_default_speed_down e)
                  <= wp_nav_get_default_speed_up e)%R).
  { pose proof (Rabs_pos (wp_nav_get_default_speed_down e)); lra. }
  pose proof (constrain_float_within cr _ _ Hlow) as Hin.
  set (c0 := constrain_float cr (- Rabs (wp_nav_get_default_speed_down e))%R
               (wp_nav_get_default_speed_up e)) in *.
  unfold angle_control_run, initiate_takeoff.
  unfold_monad. norm_state. norm_angle. fold c0.
  repeat (case_if; norm_state; norm_angle);
    (eexists; split; [repeat rewrite <- app_assoc; cbn [app]; reflexivity|]);
    cbn [climb_rate_commands flat_map app];
    repeat first [apply Forall_nil | apply Forall_cons];
    first [left; reflexivity | right; exists c0; split; [reflexivity | exact Hin]].
Qed.

Lemma angle_control_run_clamps_witness :
  let e := sample_env 100 true true true false (v3 0 0 0) (v3 0 0 0) 0%R None in
  let s := with_guided_angle_state
             (mkAngleState 0 0%R 0%R 0%R 0%R 900%R 0%R false false)
             (sample_state Guided_Angle (v3 0 0 0) yaw_hold false) in
  exists new : list Call,
    calls (snd (angle_control_run e s)) = calls s ++ new /\
    Forall (fun c =>
              c = 0%R \/
              exists c0 : float,
                c = get_avoidance_adjusted_climbrate e c0 /\
                (- Rabs (wp_nav_get_default_speed_down e) <= c0
                 <= wp_nav_get_default_speed_up e)%R)
           (climb_rate_commands new).
Proof.
  intros e s.
  apply (angle_control_run_clamps_climb_rate e s). simpl; lra.
Defined.

(** ** The limits and the other calls *)

(** X28.  The guided limits are independent of the targets and of the
    sub-mode: none of the five ingestion calls, nor do_circle, nor
    verify_command changes them. *)
Theorem guided_limit_untouched :
  forall (e : Env) (s : State) (use_yaw : bool) (yaw_cd : float) (use_yaw_rate : bool)
         (yaw_rate_cds : float) (relative_yaw : bool),
    (forall destination terrain_alt,
       guided_limit (snd (set_destination e destination use_yaw yaw_cd use_yaw_rate
                            yaw_rate_cds relative_yaw terrain_alt s)) = guided_limit s) /\
    (forall dest_loc,
       guided_limit (snd (set_destination_loc e dest_loc use_yaw yaw_cd use_yaw_rate
                            yaw_rate_cds relative_yaw s)) = guided_limit s) /\
    (forall velocity log_request,
       guided_limit (snd (set_velocity e velocity use_yaw yaw_cd use_yaw_rate yaw_rate_cds
                            relative_yaw log_request s)) = guided_limit s) /\
    (forall destination velocity,
       guided_limit (snd (set_destination_posvel e destination velocity use_yaw yaw_cd
                            use_yaw_rate yaw_rate_cds relative_yaw s)) = guided_limit s) /\
    (forall q climb_rate_cms_or_thrust yaw_rate_rads use_thrust,
       guided_limit (snd (set_angle e q climb_rate_cms_or_thrust use_yaw_rate yaw_rate_rads
                            use_thrust s)) = guided_limit s) /\
    (forall cmd,
       guided_limit (snd (do_circle e cmd s)) = guided_limit s /\
       guided_limit (snd (verify_command e cmd s)) = guided_limit s).
Proof.
  intros e s use_yaw yaw_cd use_yaw_rate yaw_rate_cds relative_yaw.
  destruct s as [gm gp gv tpv tv ga gl ay aa lc cs]. norm_state.
  split; [|split; [|split; [|split; [|split]]]].
  - intros destination terrain_alt.
    unfold set_destination, set_yaw_state, pos_control_start. unfold_monad. norm_state.
    repeat (case_if; norm_state); reflexivity.
  - intros dest_loc.
    unfold set_destination_loc, set_yaw_state, pos_control_start. unfold_monad. norm_state.
    repeat (case_if; norm_state); reflexivity.
  - intros velocity log_request.
    unfold set_velocity, set_yaw_state, vel_control_start. unfold_monad. norm_state.
    repeat (case_if; norm_state); reflexivity.
  - intros destination velocity.
    unfold set_destination_posvel, set_yaw_state, posvel_control_start.
    unfold_monad. norm_state.
    repeat (case_if; norm_state); reflexivity.
  - intros q c yrr uth.
    unfold set_angle, angle_control_start. unfold_monad. norm_state.
    destruct (to_euler e q) as [[roll pitch] yaw].
    repeat (case_if; norm_state); reflexivity.
  - intros cmd. split.
    + unfold do_circle, circle_movetoedge_start, circle_start. unfold_monad. norm_state.
      repeat first [case_if; norm_state
                   | match goal with
                     | |- context [match ?o with Some _ => _ | None => _ end] =>
                         destruct o; norm_state
                     end]; reflexivity.
    + unfold verify_command, verify_circle, circle_start. unfold_monad. norm_state.
      repeat first [case_if; norm_state
                   | match goal with
                     | |- context [match ?o with Some _ => _ | None => _ end] =>
                         destruct o; norm_state
                     end]; reflexivity.
Qed.
